(** * Code review pipeline: analyzer, orchestrator and summary.

    A shallow embedding of [utils/code_analyzer.py], [utils/rag_manager.py],
    [utils/lim_manager.py], [agents/code_review_agents.py] and the
    validation of [config.py].

    Source text is a [string] holding one character per [ascii], read as a
    code point in the range 0..255; the character classes of Python's [re]
    and [str] are written out on that range.  Message literals of the
    source are kept as their UTF-8 bytes. *)

From Stdlib Require Import ZArith String Ascii List Bool Lia Permutation Sorted.
From Stdlib Require Import DecimalString.
From stdpp Require Import gmap strings list fin_maps.

Import ListNotations.
Local Open Scope string_scope.
Local Open Scope list_scope.

(** ** Python text primitives *)

Module PyText.

Definition code_point (c : ascii) : N := N_of_ascii c.

Definition between (lo hi : N) (n : N) : bool := (lo <=? n)%N && (n <=? hi)%N.

(** [\w] of a Python 3 [str] pattern: alphanumeric or underscore. *)
Definition is_word_char (c : ascii) : bool :=
  let n := code_point c in
  between 48 57 n || between 65 90 n || (n =? 95)%N || between 97 122 n
  || (n =? 170)%N || between 178 179 n || (n =? 181)%N || between 185 186 n
  || between 188 190 n || between 192 214 n || between 216 246 n
  || between 248 255 n.

(** [str.isspace] on one character; [str.strip()] removes these. *)
Definition is_space (c : ascii) : bool :=
  let n := code_point c in
  between 9 13 n || between 28 32 n || (n =? 133)%N || (n =? 160)%N.

(** The class [[0-9]]. *)
Definition is_digit (c : ascii) : bool := between 48 57 (code_point c).

(** The class of the two quote characters (code points 34 and 39). *)
Definition is_quote (c : ascii) : bool :=
  let n := code_point c in (n =? 34)%N || (n =? 39)%N.

Definition is_newline (c : ascii) : bool := (code_point c =? 10)%N.

Definition ascii_eqb (a b : ascii) : bool := (code_point a =? code_point b)%N.

(** [len(s)] *)
Fixpoint len (s : string) : nat :=
  match s with
  | EmptyString => 0
  | String _ r => S (len r)
  end.

(** [s.startswith(p)] *)
Fixpoint startswith (p s : string) : bool :=
  match p, s with
  | EmptyString, _ => true
  | String a p', String b s' => ascii_eqb a b && startswith p' s'
  | String _ _, EmptyString => false
  end.

(** [sub in s] *)
Fixpoint contains (sub s : string) : bool :=
  startswith sub s ||
  match s with
  | EmptyString => false
  | String _ r => contains sub r
  end.

Fixpoint rev_onto (s acc : string) : string :=
  match s with
  | EmptyString => acc
  | String c r => rev_onto r (String c acc)
  end.

Definition reverse (s : string) : string := rev_onto s EmptyString.

(** [s.endswith(p)] *)
Definition endswith (p s : string) : bool := startswith (reverse p) (reverse s).

Fixpoint lstrip (s : string) : string :=
  match s with
  | EmptyString => EmptyString
  | String c r => if is_space c then lstrip r else s
  end.

(** [s.strip()] *)
Definition strip (s : string) : string := reverse (lstrip (reverse (lstrip s))).

(** [s.split('\n')]: the segments between line feeds; never empty. *)
Fixpoint split_lines (s : string) : list string :=
  match s with
  | EmptyString => [EmptyString]
  | String c r =>
      if is_newline c then EmptyString :: split_lines r
      else match split_lines r with
           | h :: t => String c h :: t
           | [] => [String c EmptyString]
           end
  end.

(** [enumerate(lines)] *)
Fixpoint enumerate_from {A} (i : nat) (l : list A) : list (nat * A) :=
  match l with
  | [] => []
  | x :: r => (i, x) :: enumerate_from (S i) r
  end.

Definition enumerate {A} (l : list A) : list (nat * A) := enumerate_from 0 l.

Definition head_char (s : string) : option ascii :=
  match s with
  | EmptyString => None
  | String c _ => Some c
  end.

Fixpoint drop_chars (n : nat) (s : string) : string :=
  match n, s with
  | O, _ => s
  | S k, EmptyString => EmptyString
  | S k, String _ r => drop_chars k r
  end.

Fixpoint last_char (d : option ascii) (s : string) : option ascii :=
  match s with
  | EmptyString => d
  | String c r => last_char (Some c) r
  end.

Definition word_opt (o : option ascii) : bool :=
  match o with
  | Some c => is_word_char c
  | None => false
  end.

(** [\b] between the character before the position and the one at it. *)
Definition boundary (before after : option ascii) : bool :=
  xorb (word_opt before) (word_opt after).

(** The pattern [\b kw \b] matched at the start of [s], with [prev] the
    character just before [s] in the searched text. *)
Definition word_at (kw : string) (prev : option ascii) (s : string) : bool :=
  boundary prev (head_char s)
  && startswith kw s
  && boundary (last_char prev kw) (head_char (drop_chars (len kw) s)).

(** [len(re.findall(r'\b' + kw + r'\b', s))]: matches are taken left to
    right and the scan resumes after each match. *)
Fixpoint findall_word_from (kw : string) (prev : option ascii) (skip : nat)
         (s : string) : nat :=
  match s with
  | EmptyString => 0
  | String c r =>
      match skip with
      | S k => findall_word_from kw (Some c) k r
      | O =>
          if word_at kw prev s
          then S (findall_word_from kw (Some c) (Nat.pred (len kw)) r)
          else findall_word_from kw (Some c) 0 r
      end
  end.

Definition findall_word (kw s : string) : nat := findall_word_from kw None 0 s.

(** [re.search(r'\b' + kw + r'\b', s)] as a truth value. *)
Fixpoint search_word_from (kw : string) (prev : option ascii) (s : string) : bool :=
  word_at kw prev s ||
  match s with
  | EmptyString => false
  | String c r => search_word_from kw (Some c) r
  end.

Definition search_word (kw s : string) : bool := search_word_from kw None s.

(** The hard-coded-literal pattern of [check_code_quality_issues], as the
    truth value of [re.search]: a quote, characters other than quotes, two
    or more digits, characters other than quotes, a quote.
    The two starred classes cannot cross a quote, so a match is a pair of
    neighbouring quote characters with two adjacent digits in between.
    [opened]: a quote has been seen; [run]: length of the digit run that
    ends here; [seen]: the current segment already holds two digits. *)
Fixpoint quoted_digits_from (opened : bool) (run : nat) (seen : bool)
         (s : string) : bool :=
  match s with
  | EmptyString => false
  | String c r =>
      if is_quote c then
        (opened && seen) || quoted_digits_from true 0 false r
      else if is_digit c then
        quoted_digits_from opened (S run) (seen || (1 <=? run)%nat) r
      else quoted_digits_from opened 0 seen r
  end.

Definition search_quoted_digits (s : string) : bool :=
  quoted_digits_from false 0 false s.

(** Decimal rendering of a length, as an f-string does. *)
Definition str_of_nat (n : nat) : string := NilEmpty.string_of_uint (Nat.to_uint n).

End PyText.

Import PyText.

(** ** Python values, exceptions and dictionaries *)

(** The values that flow through the pipeline: what [json.loads] produces
    and what the analyzer builds.  A dictionary keeps its keys in insertion
    order; keys are text. *)
#[warnings="-register-all"]
Inductive value : Type :=
| VNone
| VBool (b : bool)
| VInt (z : Z)
| VStr (s : string)
| VList (l : list value)
| VDict (d : list (string * value)).

Abbreviation dict := (list (string * value)).

Inductive exn_class : Type :=
| KeyError | TypeError | AttributeError | ValueError | SyntaxError | RuntimeError
| RecursionError | MemoryError.

(** An exception: its class and [str(e)]. *)
Record exn : Type := Exn { exn_cls : exn_class; exn_msg : string }.

Inductive result (A : Type) : Type :=
| Ok (a : A)
| Raise (e : exn).

Arguments Ok {A} a.
Arguments Raise {A} e.

(** Sequencing: an exception skips the rest of the block. *)
#[global] Instance result_ret : MRet result := fun _ a => Ok a.
#[global] Instance result_bind : MBind result := fun _ _ k r =>
  match r with
  | Ok a => k a
  | Raise e => Raise e
  end.

(** A loop whose body may raise: the first exception ends it. *)
Fixpoint for_each {A S} (body : S -> A -> result S) (l : list A) (s : S) : result S :=
  match l with
  | [] => Ok s
  | x :: r => s' ← body s x; for_each body r s'
  end.

(** [d.get(k)] on a dictionary: the first (only) entry under [k]. *)
Fixpoint dict_lookup (k : string) (d : dict) : option value :=
  match d with
  | [] => None
  | (k', v) :: r => if String.eqb k k' then Some v else dict_lookup k r
  end.

(** [d.get(k, default)] *)
Definition dict_get (k : string) (default : value) (d : dict) : value :=
  match dict_lookup k d with
  | Some v => v
  | None => default
  end.

(** [d[k] = v]: replaces in place, or appends a new key. *)
Fixpoint dict_set (k : string) (v : value) (d : dict) : dict :=
  match d with
  | [] => [(k, v)]
  | (k', v') :: r =>
      if String.eqb k k' then (k, v) :: r else (k', v') :: dict_set k v r
  end.

(** [d.update(e)] *)
Definition dict_update (d e : dict) : dict :=
  fold_left (fun acc kv => dict_set (fst kv) (snd kv) acc) e d.

(** [x.get(k, default)] on any value: only a dictionary has [get]. *)
Definition py_get (x : value) (k : string) (default : value) : result value :=
  match x with
  | VDict d => Ok (dict_get k default d)
  | _ => Raise (Exn AttributeError "object has no attribute 'get'")
  end.

(** [x[k]] with a text key: a missing key of a dictionary is a [KeyError];
    a list, a text, a number or [None] cannot be indexed by text. *)
Definition py_getitem (x : value) (k : string) : result value :=
  match x with
  | VDict d =>
      match dict_lookup k d with
      | Some v => Ok v
      | None => Raise (Exn KeyError k)
      end
  | _ => Raise (Exn TypeError "indices must be integers")
  end.

(** Lists and dictionaries cannot be dictionary keys. *)
Definition hashable (v : value) : bool :=
  match v with
  | VList _ | VDict _ => false
  | _ => true
  end.

(** [iter(x)] of a decoded value: the items of a list, the characters of a
    text, the keys of a dictionary; anything else is not iterable. *)
Definition py_iter (x : value) : result (list value) :=
  match x with
  | VList l => Ok l
  | VStr s => Ok (map (fun c => VStr (String c EmptyString)) (list_ascii_of_string s))
  | VDict d => Ok (map (fun kv => VStr (fst kv)) d)
  | _ => Raise (Exn TypeError "object is not iterable")
  end.

(** [len(x)] *)
Definition py_len (x : value) : result nat :=
  match x with
  | VList l => Ok (length l)
  | VStr s => Ok (len s)
  | VDict d => Ok (length d)
  | _ => Raise (Exn TypeError "object has no len()")
  end.

(** ** The standard-library functions the analyzer calls *)

(** One node of [ast.walk(ast.parse(code))], with the attributes the
    analyzer reads: [node.name], [node.lineno], [len(node.args.args)],
    [ast.get_docstring(node)], for a class whether each statement of
    [node.body] is a [FunctionDef], the alias names of an [import], the
    module of a [from ... import]. *)
Inductive ast_node : Type :=
| FunctionDef (name : string) (lineno : Z) (nargs : nat) (docstring : option string)
| ClassDef (name : string) (lineno : Z) (body_is_function : list bool)
           (docstring : option string)
| Import (names : list string)
| ImportFrom (module : option string)
| If
| For
| While
| Try
| OtherNode.

(** [ast.parse] builds a tree, or rejects the text with a [SyntaxError]
    (its subclasses included) carrying a detail message, or ends with
    another exception: [ValueError] on a text that holds a NUL character,
    [RecursionError] or [MemoryError] on a text nested too deep. *)
Inductive parse_outcome : Type :=
| Parsed (walk : list ast_node)
| Rejected (detail : string)
| Crashed (e : exn).

(** [re.findall] gives the text of the group for a pattern with one group,
    and the tuple of the groups for the pattern with three. *)
Record StdLib : Type := {
  ast_parse : string -> parse_outcome;
  re_findall1 : string -> string -> list string;
  re_findall3 : string -> string -> list (string * string * string);
  json_decode : string -> result value;
  py_str : value -> string
}.

(** ** utils/code_analyzer.py *)

Module CodeAnalyzer.

(** An entry of [self.language_patterns]; the comment markers are read by
    no method and are left out. *)
Record lang_info : Type := { extension : list string; keywords : list string }.

Definition language_patterns : list (string * lang_info) :=
  [ ("python",
     {| extension := [".py"];
        keywords := ["def"; "class"; "import"; "from"; "if"; "for"; "while";
                     "try"; "except"] |});
    ("javascript",
     {| extension := [".js"; ".jsx"];
        keywords := ["function"; "var"; "let"; "const"; "if"; "for"; "while";
                     "try"; "catch"] |});
    ("typescript",
     {| extension := [".ts"; ".tsx"];
        keywords := ["function"; "var"; "let"; "const"; "interface"; "type";
                     "class"] |});
    ("java",
     {| extension := [".java"];
        keywords := ["public"; "private"; "class"; "interface"; "if"; "for";
                     "while"; "try"; "catch"] |}) ].

(** The two nested loops over languages and extensions: the first language
    one of whose extensions ends the file name. *)
Fixpoint match_extension (filename : string) (pats : list (string * lang_info))
  : option string :=
  match pats with
  | [] => None
  | (lang, info) :: r =>
      if existsb (fun ext => endswith ext filename) (extension info)
      then Some lang
      else match_extension filename r
  end.

(** The inner loop over keywords: the sum of the whole-word counts. *)
Definition keyword_score (code : string) (info : lang_info) : nat :=
  fold_left (fun score keyword => score + findall_word keyword code)
            (keywords info) 0.

(** The [scores] dictionary, in insertion order. *)
Definition language_scores (code : string) (pats : list (string * lang_info))
  : list (string * nat) :=
  map (fun p => (fst p, keyword_score code (snd p))) pats.

(** [max(scores, key=scores.get)] over the keys that follow [best]: a
    later key wins only with a strictly larger value. *)
Fixpoint max_from (best : string * nat) (rest : list (string * nat)) : string :=
  match rest with
  | [] => fst best
  | (l, n) :: r => if (snd best <? n)%nat then max_from (l, n) r else max_from best r
  end.

(** [max(scores, key=scores.get) if scores else 'unknown'] *)
Definition best_language (scores : list (string * nat)) : string :=
  match scores with
  | [] => "unknown"
  | b :: r => max_from b r
  end.

Definition detect_language (code filename : string) : string :=
  match (if (len filename =? 0)%nat then None
         else match_extension filename language_patterns) with
  | Some lang => lang
  | None => best_language (language_scores code language_patterns)
  end.

(** The five keys every analysis starts from. *)
Definition empty_analysis : dict :=
  [ ("functions", VList []); ("classes", VList []); ("imports", VList []);
    ("complexity_score", VInt 0); ("issues", VList []) ].

(** [analysis[k].append(v)] *)
Definition append_to (k : string) (v : value) (analysis : dict) : dict :=
  match dict_lookup k analysis with
  | Some (VList l) => dict_set k (VList (l ++ [v])) analysis
  | _ => analysis
  end.

(** [analysis[k] += n] *)
Definition add_to (k : string) (n : Z) (analysis : dict) : dict :=
  match dict_lookup k analysis with
  | Some (VInt z) => dict_set k (VInt (z + n)) analysis
  | _ => analysis
  end.

Definition opt_str (o : option string) : value :=
  match o with
  | Some s => VStr s
  | None => VNone
  end.

(** The body of the loop over [ast.walk(tree)]. *)
Definition visit (analysis : dict) (node : ast_node) : dict :=
  match node with
  | FunctionDef name lineno nargs doc =>
      append_to "functions"
        (VDict [("name", VStr name); ("line", VInt lineno);
                ("args", VInt (Z.of_nat nargs)); ("docstring", opt_str doc)])
        analysis
  | ClassDef name lineno body doc =>
      append_to "classes"
        (VDict [("name", VStr name); ("line", VInt lineno);
                ("methods", VInt (Z.of_nat (length (List.filter (fun b : bool => b) body))));
                ("docstring", opt_str doc)])
        analysis
  | Import names =>
      fold_left (fun a alias => append_to "imports" (VStr alias) a) names analysis
  | ImportFrom module => append_to "imports" (opt_str module) analysis
  | If | For | While | Try => add_to "complexity_score" 1 analysis
  | OtherNode => analysis
  end.

Definition syntax_error_prefix : string := "구문 오류: ".

(** The [try] block parses and walks; [except SyntaxError] records the
    diagnostic in the analysis built so far, and an exception of any other
    class leaves the function.  Nothing is appended before [ast.parse] has
    returned. *)
Definition _analyze_python_code (lib : StdLib) (code : string) : result dict :=
  let analysis := empty_analysis in
  let attempt : result dict :=
    tree ← match ast_parse lib code with
           | Parsed walk => Ok walk
           | Rejected detail => Raise (Exn SyntaxError detail)
           | Crashed e => Raise e
           end;
    Ok (fold_left visit tree analysis) in
  match attempt with
  | Ok analysis' => Ok analysis'
  | Raise e =>
      match exn_cls e with
      | SyntaxError =>
          Ok (append_to "issues" (VStr (syntax_error_prefix +:+ exn_msg e)) analysis)
      | _ => Raise e
      end
  end.

(** [function_patterns]: the pattern text and its number of groups. *)
Inductive fn_pattern : Type :=
| OneGroup (src : string)
| ThreeGroups (src : string).

Definition function_patterns (language : string) : option fn_pattern :=
  if String.eqb language "javascript" then Some (OneGroup "function\s+(\w+)")
  else if String.eqb language "typescript" then Some (OneGroup "function\s+(\w+)")
  else if String.eqb language "java" then
    Some (ThreeGroups "(public|private|protected)?\s*(static)?\s*\w+\s+(\w+)\s*\(")
  else None.

(** [matches[0] if isinstance(matches[0], str) else matches[0][-1]], when
    [matches] is not empty. *)
Definition first_name (lib : StdLib) (pattern : fn_pattern) (line : string)
  : option string :=
  match pattern with
  | OneGroup src => head (re_findall1 lib src line)
  | ThreeGroups src =>
      match re_findall3 lib src line with
      | (_, _, name) :: _ => Some name
      | [] => None
      end
  end.

Definition complexity_keywords : list string :=
  ["if"; "for"; "while"; "switch"; "case"; "try"; "catch"].

Definition _analyze_generic_code (lib : StdLib) (code language : string) : dict :=
  let analysis := empty_analysis in
  let lines := split_lines code in
  let analysis :=
    match function_patterns language with
    | Some pattern =>
        fold_left
          (fun a il =>
             match first_name lib pattern (snd il) with
             | Some name =>
                 append_to "functions"
                   (VDict [("name", VStr name);
                           ("line", VInt (Z.of_nat (fst il + 1)))]) a
             | None => a
             end)
          (enumerate lines) analysis
    | None => analysis
    end in
  fold_left
    (fun a line =>
       fold_left
         (fun a' keyword =>
            add_to "complexity_score" (Z.of_nat (findall_word keyword line)) a')
         complexity_keywords a)
    lines analysis.

Definition analyze_code_structure (lib : StdLib) (code language : string)
  : result dict :=
  let analysis : dict :=
    [ ("lines_of_code", VInt (Z.of_nat (length (split_lines code))));
      ("functions", VList []); ("classes", VList []); ("imports", VList []);
      ("complexity_score", VInt 0); ("issues", VList []) ] in
  if String.eqb language "python" then
    found ← _analyze_python_code lib code;
    Ok (dict_update analysis found)
  else
    Ok (dict_update analysis (_analyze_generic_code lib code language)).

(** The issue dictionaries of the rule-based checks. *)
Definition issue (type severity : string) (line_num : nat) (message : string)
  : value :=
  VDict [ ("type", VStr type); ("severity", VStr severity);
          ("line", VInt (Z.of_nat line_num)); ("message", VStr message) ].

Definition long_line_message (n : nat) : string :=
  "라인이 너무 깁니다 (" +:+ str_of_nat n
    +:+ " 문자). 120자 이하로 줄이는 것을 권장합니다.".

Definition hardcoded_message : string :=
  "하드코딩된 값이 발견되었습니다. 상수로 정의하는 것을 고려해보세요.".

Definition import_order_message : string :=
  "from import는 일반 import 앞에 위치하는 것이 좋습니다.".

Definition bare_except_message : string :=
  "구체적인 예외 타입을 명시하는 것이 좋습니다.".

Definition var_message : string := "var 대신 let 또는 const 사용을 권장합니다.".

Definition loose_equality_message : string := "== 대신 === 사용을 권장합니다.".

(** The body of the loop of [_check_python_issues] at index [i]. *)
Definition python_line_issues (lines : list string) (i : nat) (line : string)
  : list value :=
  let line_num := i + 1 in
  let stripped := strip line in
  (if startswith "from " stripped && (0 <? i)%nat then
     match lines !! (i - 1) with
     | Some prev =>
         let prev_line := strip prev in
         if startswith "import " prev_line && negb (startswith "from " prev_line)
         then [issue "Best Practices" "Info" line_num import_order_message]
         else []
     | None => []
     end
   else [])
  ++ (if contains "except:" stripped
      then [issue "Best Practices" "Warning" line_num bare_except_message]
      else []).

Definition _check_python_issues (code : string) (lines : list string) : list value :=
  flat_map (fun il => python_line_issues lines (fst il) (snd il)) (enumerate lines).

(** The body of the loop of [_check_js_issues] at index [i]. *)
Definition js_line_issues (i : nat) (line : string) : list value :=
  let line_num := i + 1 in
  let stripped := strip line in
  (if search_word "var" stripped
   then [issue "Best Practices" "Warning" line_num var_message]
   else [])
  ++ (if contains "==" stripped && negb (contains "===" stripped)
      then [issue "Best Practices" "Warning" line_num loose_equality_message]
      else []).

Definition _check_js_issues (code : string) (lines : list string) : list value :=
  flat_map (fun il => js_line_issues (fst il) (snd il)) (enumerate lines).

(** The body of the common loop of [check_code_quality_issues]. *)
Definition common_line_issues (i : nat) (line : string) : list value :=
  let line_num := i + 1 in
  (if (120 <? len line)%nat
   then [issue "Code Quality" "Warning" line_num (long_line_message (len line))]
   else [])
  ++ (if search_quoted_digits line
      then [issue "Best Practices" "Info" line_num hardcoded_message]
      else []).

Definition check_code_quality_issues (code language : string) : list value :=
  let lines := split_lines code in
  let issues :=
    flat_map (fun il => common_line_issues (fst il) (snd il)) (enumerate lines) in
  if String.eqb language "python" then issues ++ _check_python_issues code lines
  else if String.eqb language "javascript" || String.eqb language "typescript"
  then issues ++ _check_js_issues code lines
  else issues.

End CodeAnalyzer.

Import CodeAnalyzer.

(** ** [json.loads] *)

(** The JSON whitespace skipped before a value. *)
Definition is_json_space (c : ascii) : bool :=
  let n := code_point c in
  (n =? 32)%N || (n =? 9)%N || (n =? 10)%N || (n =? 13)%N.

Fixpoint skip_json_space (s : string) : string :=
  match s with
  | EmptyString => EmptyString
  | String c r => if is_json_space c then skip_json_space r else s
  end.

(** The characters a JSON value can start with in Python's decoder: a
    quote, a brace, a bracket, a sign, a digit, or the first letter of
    [null], [true], [false], [NaN], [Infinity]. *)
Definition starts_json_value (s : string) : bool :=
  match s with
  | EmptyString => false
  | String c _ =>
      let n := code_point c in
      (n =? 34)%N || (n =? 123)%N || (n =? 91)%N || (n =? 45)%N
      || between 48 57 n || (n =? 110)%N || (n =? 116)%N || (n =? 102)%N
      || (n =? 78)%N || (n =? 73)%N
  end.

(** [json.loads]: a text that does not start with a value is rejected with
    a [JSONDecodeError] (a [ValueError]); the rest of the decoder is the
    library's. *)
Definition json_loads (lib : StdLib) (s : string) : result value :=
  if starts_json_value (skip_json_space s) then json_decode lib s
  else Raise (Exn ValueError "Expecting value").

(** ** utils/lim_manager.py *)

(** [self.llm.invoke(messages).content] for a system and a user prompt: the
    reply, or the exception of the call. *)
Record LLMManager : Type := { llm_invoke : string -> string -> result string }.

Definition llm_error_prefix : string := "오류가 발생했습니다: ".

Definition generate_response (self : LLMManager) (system_prompt user_prompt : string)
  : string :=
  match llm_invoke self system_prompt user_prompt with
  | Ok content => content
  | Raise e => llm_error_prefix +:+ exn_msg e
  end.

(** ** utils/rag_manager.py *)

Record Document : Type := { page_content : string; metadata : dict }.

(** [self.vector_store], absent when the knowledge base could not be built;
    its [similarity_search(query, k)] may raise. *)
Record RAGSystem : Type := {
  vector_store : option (string -> nat -> result (list Document))
}.

Definition search_knowledge (self : RAGSystem) (query : string) (k : nat)
  : list Document :=
  match vector_store self with
  | None => []
  | Some similarity_search =>
      match similarity_search query k with
      | Ok docs => docs
      | Raise _ => []
      end
  end.

(** The duplicate-removal loop: [unique_docs] in order, [seen_content]. *)
Definition keep_unseen (acc : list Document * gset string) (doc : Document)
  : list Document * gset string :=
  if bool_decide (page_content doc ∈ snd acc) then acc
  else (fst acc ++ [doc], {[ page_content doc ]} ∪ snd acc).

Definition unique_by_content (relevant_docs : list Document) : list Document :=
  fst (fold_left keep_unseen relevant_docs ([], ∅)).

(** The body of the search loop: the query is formatted from the type and
    the message of the issue, which must both be there. *)
Definition search_for_issue (lib : StdLib) (self : RAGSystem) (language : string)
           (relevant_docs : list Document) (issue : value)
  : result (list Document) :=
  type ← py_getitem issue "type";
  message ← py_getitem issue "message";
  let query := py_str lib type +:+ " " +:+ py_str lib message
                 +:+ " " +:+ language in
  Ok (relevant_docs ++ search_knowledge self query 2).

Definition get_relevant_practices (lib : StdLib) (self : RAGSystem)
           (code_issues : list value) (language : string) : result (list Document) :=
  relevant_docs ← for_each (search_for_issue lib self language) code_issues [];
  Ok (take 5 (unique_by_content relevant_docs)).

(** ** agents/code_review_agents.py *)

(** [CodeReviewState]; [messages] is written by no stage. *)
Record CodeReviewState : Type := {
  code : string;
  filename : string;
  language : string;
  analysis_result : dict;
  issues : list value;
  recommendations : list value;
  optimized_code : value;
  messages : list value;
  current_step : string
}.

(** The prompt texts: each stage renders one from the code, the language,
    the analysis and (security, performance) the retrieved guidelines. *)
Record Prompts : Type := {
  quality_prompt : string -> string -> dict -> string;
  security_prompt : string -> string -> string -> string;
  performance_prompt : string -> string -> dict -> string -> string;
  doc_prompt : string -> string -> dict -> string
}.

Record CodeReviewAgents : Type := {
  lib : StdLib;
  prompts : Prompts;
  llm_manager : LLMManager;
  rag_system : RAGSystem
}.

(** A block of statements run on the state dictionary: the state it leaves
    behind, and its value or the exception that ended it.  What a block
    wrote before raising stays written. *)
Definition action (A : Type) : Type := CodeReviewState -> CodeReviewState * result A.

#[global] Instance action_ret : MRet action := fun _ a st => (st, Ok a).
#[global] Instance action_bind : MBind action := fun _ _ k m st =>
  match m st with
  | (st', Ok a) => k a st'
  | (st', Raise e) => (st', Raise e)
  end.

(** A call that does not touch the state. *)
Definition call {A} (r : result A) : action A := fun st => (st, r).

(** [state[field]] *)
Definition read {A} (field : CodeReviewState -> A) : action A :=
  fun st => (st, Ok (field st)).

(** [try: body  except Exception as e: handler(e)] *)
Definition try_except (body : action unit) (handler : exn -> action unit)
  : action unit :=
  fun st =>
    match body st with
    | (st', Ok tt) => (st', Ok tt)
    | (st', Raise e) => handler e st'
    end.

(** [logger.error(...)]: no effect on the state. *)
Definition log_error (e : exn) : action unit := fun st => (st, Ok tt).

(** [state.get("issues", []).extend(items)]: the list held by the state is
    extended in place, after [items] has been found iterable. *)
Definition extend_issues (items : value) : action unit :=
  fun st =>
    match py_iter items with
    | Ok new =>
        ({| code := code st; filename := filename st; language := language st;
            analysis_result := analysis_result st;
            issues := issues st ++ new;
            recommendations := recommendations st;
            optimized_code := optimized_code st; messages := messages st;
            current_step := current_step st |}, Ok tt)
    | Raise e => (st, Raise e)
    end.

(** [state.update({...})] for each set of keys a stage writes. *)
Definition set_step (step : string) : action unit :=
  fun st =>
    ({| code := code st; filename := filename st; language := language st;
        analysis_result := analysis_result st; issues := issues st;
        recommendations := recommendations st;
        optimized_code := optimized_code st; messages := messages st;
        current_step := step |}, Ok tt).

Definition set_optimized_code (v : value) : action unit :=
  fun st =>
    ({| code := code st; filename := filename st; language := language st;
        analysis_result := analysis_result st; issues := issues st;
        recommendations := recommendations st;
        optimized_code := v; messages := messages st;
        current_step := current_step st |}, Ok tt).

Definition set_analysis (lang : string) (analysis : dict) (found : list value)
  : action unit :=
  fun st =>
    ({| code := code st; filename := filename st; language := lang;
        analysis_result := analysis; issues := found;
        recommendations := recommendations st;
        optimized_code := optimized_code st; messages := messages st;
        current_step := current_step st |}, Ok tt).

Definition set_review (sorted_issues recs : list value) : action unit :=
  fun st =>
    ({| code := code st; filename := filename st; language := language st;
        analysis_result := analysis_result st; issues := sorted_issues;
        recommendations := recs;
        optimized_code := optimized_code st; messages := messages st;
        current_step := current_step st |}, Ok tt).

Definition _analyzer_agent (self : CodeReviewAgents) : action unit :=
  code ← read code;
  filename ← read filename;
  let language := detect_language code filename in
  analysis_result ← call (analyze_code_structure (lib self) code language);
  let issues := check_code_quality_issues code language in
  set_analysis language analysis_result issues;;
  set_step "analysis_complete".

(** The [try] block shared by the four enrichment stages: ask the model,
    decode the reply, extend the issues with the list under [key], then
    update the state. *)
Definition enrich (self : CodeReviewAgents) (prompt key : string)
           (update : value -> action unit) : action unit :=
  try_except
    (let response := generate_response (llm_manager self) "" prompt in
     decoded ← call (json_loads (lib self) response);
     items ← call (py_get decoded key (VList []));
     extend_issues items;;
     update decoded)
    log_error.

Definition _quality_checker_agent (self : CodeReviewAgents) : action unit :=
  code ← read code;
  language ← read language;
  analysis ← read analysis_result;
  enrich self (quality_prompt (prompts self) code language analysis) "issues"
         (fun _ => set_step "quality_check_complete").

(** ["\n".join(contents)] *)
Fixpoint join_lines (contents : list string) : string :=
  match contents with
  | [] => EmptyString
  | [s] => s
  | s :: r => s +:+ String (ascii_of_N 10) (join_lines r)
  end.

Definition _security_reviewer_agent (self : CodeReviewAgents) : action unit :=
  code ← read code;
  language ← read language;
  let security_docs :=
    search_knowledge (rag_system self) ("security " +:+ language) 3 in
  let security_context := join_lines (map page_content security_docs) in
  enrich self (security_prompt (prompts self) code language security_context)
         "vulnerabilities"
         (fun _ => set_step "security_review_complete").

Definition _performance_optimizer_agent (self : CodeReviewAgents) : action unit :=
  code ← read code;
  language ← read language;
  analysis ← read analysis_result;
  let performance_docs :=
    search_knowledge (rag_system self)
                     ("performance optimization " +:+ language) 3 in
  let performance_context := join_lines (map page_content performance_docs) in
  enrich self
         (performance_prompt (prompts self) code language analysis
                             performance_context)
         "optimizations"
         (fun performance_result =>
            optimized ← call (py_get performance_result "optimized_code"
                                     (VStr EmptyString));
            set_optimized_code optimized;;
            set_step "performance_optimization_complete").

Definition _documentation_generator_agent (self : CodeReviewAgents) : action unit :=
  code ← read code;
  language ← read language;
  analysis ← read analysis_result;
  enrich self (doc_prompt (prompts self) code language analysis) "suggestions"
         (fun _ => set_step "documentation_complete").

(** [priority_order] *)
Definition priority_order : gmap string Z :=
  <["Critical" := 0%Z]> (<["Warning" := 1%Z]> (<["Info" := 2%Z]> ∅)).

(** The sort key [priority_order.get(x.get("severity", "Info"), 2)]: a
    value without [get] raises, and so does a severity that cannot be
    hashed. *)
Definition severity_key (x : value) : result Z :=
  severity ← py_get x "severity" (VStr "Info");
  match severity with
  | VStr s => Ok (default 2%Z (priority_order !! s))
  | VList _ | VDict _ => Raise (Exn TypeError "unhashable type")
  | _ => Ok 2%Z
  end.

(** Keys are computed once per item, in order. *)
Fixpoint with_keys (key : value -> result Z) (l : list value)
  : result (list (Z * value)) :=
  match l with
  | [] => Ok []
  | x :: r => k ← key x; kr ← with_keys key r; Ok ((k, x) :: kr)
  end.

(** Insertion in front of the first item whose key is not smaller: an item
    stays ahead of the equal items that followed it. *)
Fixpoint insert_keyed (kx : Z * value) (l : list (Z * value)) : list (Z * value) :=
  match l with
  | [] => [kx]
  | ky :: r =>
      if (fst kx <=? fst ky)%Z then kx :: ky :: r else ky :: insert_keyed kx r
  end.

Definition sort_keyed (l : list (Z * value)) : list (Z * value) :=
  foldr insert_keyed [] l.

(** The order on keyed items, and the items of one key. *)
Definition key_le (a b : Z * value) : Prop := (fst a <= fst b)%Z.
Definition has_key (r : Z) (p : Z * value) : bool := (fst p =? r)%Z.

(** [sorted(l, key=key)]: Python's sort is stable. *)
Definition py_sorted (key : value -> result Z) (l : list value) : result (list value) :=
  keyed ← with_keys key l;
  Ok (map snd (sort_keyed keyed)).

(** One entry of [recommendations]. *)
Definition recommendation (practice : Document) : value :=
  VDict [ ("category", dict_get "category" (VStr "General") (metadata practice));
          ("title", dict_get "title" (VStr "Best Practice") (metadata practice));
          ("content", VStr (page_content practice));
          ("language", dict_get "language" (VStr "general") (metadata practice)) ].

Definition _final_reviewer_agent (self : CodeReviewAgents) : action unit :=
  code ← read code;
  language ← read language;
  issues ← read issues;
  relevant_practices ←
    call (get_relevant_practices (lib self) (rag_system self) issues language);
  let recommendations := map recommendation relevant_practices in
  sorted_issues ← call (py_sorted severity_key issues);
  set_review sorted_issues recommendations;;
  set_step "review_complete".

(** The compiled workflow: the six nodes along their single edges. *)
Definition workflow (self : CodeReviewAgents) : action unit :=
  _analyzer_agent self;;
  _quality_checker_agent self;;
  _security_reviewer_agent self;;
  _performance_optimizer_agent self;;
  _documentation_generator_agent self;;
  _final_reviewer_agent self.

Record Summary : Type := {
  overall_score : Z;
  total_issues : nat;
  severity_breakdown : gmap string nat;
  category_breakdown : list (value * nat);
  recommendations_count : nat
}.

(** Equality of dictionary keys: [True] and [1] are the same key. *)
Definition key_number (v : value) : option Z :=
  match v with
  | VBool b => Some (Z.b2z b)
  | VInt z => Some z
  | _ => None
  end.

Definition key_eqb (a b : value) : bool :=
  match a, b with
  | VNone, VNone => true
  | VStr s, VStr t => String.eqb s t
  | _, _ =>
      match key_number a, key_number b with
      | Some x, Some y => (x =? y)%Z
      | _, _ => false
      end
  end.

(** [severity_count[severity] += 1]: the entry must exist. *)
Definition count_severity (severity : value) (severity_count : gmap string nat)
  : result (gmap string nat) :=
  match severity with
  | VStr s =>
      match severity_count !! s with
      | Some n => Ok (<[s := n + 1]> severity_count)
      | None => Raise (Exn KeyError s)
      end
  | VList _ | VDict _ => Raise (Exn TypeError "unhashable type")
  | _ => Raise (Exn KeyError "severity")
  end.

(** [type_count[issue_type] = type_count.get(issue_type, 0) + 1] *)
Fixpoint bump (k : value) (type_count : list (value * nat)) : list (value * nat) :=
  match type_count with
  | [] => [(k, 1)]
  | (k', n) :: r => if key_eqb k k' then (k', n + 1) :: r else (k', n) :: bump k r
  end.

Definition count_type (issue_type : value) (type_count : list (value * nat))
  : result (list (value * nat)) :=
  if hashable issue_type then Ok (bump issue_type type_count)
  else Raise (Exn TypeError "unhashable type").

(** The body of the counting loop. *)
Definition count_issue (counts : gmap string nat * list (value * nat))
           (issue : value) : result (gmap string nat * list (value * nat)) :=
  severity ← py_get issue "severity" (VStr "Info");
  issue_type ← py_get issue "type" (VStr "General");
  severity_count ← count_severity severity (fst counts);
  type_count ← count_type issue_type (snd counts);
  Ok (severity_count, type_count).

Definition initial_severity_count : gmap string nat :=
  <["Critical" := 0]> (<["Warning" := 0]> (<["Info" := 0]> ∅)).

Definition count_issues (issues : list value)
  : result (gmap string nat * list (value * nat)) :=
  for_each count_issue issues (initial_severity_count, []).

(** [severity_count[k]] *)
Definition severity_entry (k : string) (severity_count : gmap string nat) : result nat :=
  match severity_count !! k with
  | Some n => Ok n
  | None => Raise (Exn KeyError k)
  end.

(** [max(1, 10 - min(penalty, 9))] *)
Definition score_of_penalty (penalty : Z) : Z := Z.max 1 (10 - Z.min penalty 9).

Definition _generate_summary (result_state : CodeReviewState) : result Summary :=
  let issues := issues result_state in
  counts ← count_issues issues;
  let severity_count := fst counts in
  let type_count := snd counts in
  let total_issues := length issues in
  critical ← severity_entry "Critical" severity_count;
  warning ← severity_entry "Warning" severity_count;
  info ← severity_entry "Info" severity_count;
  let critical_weight := (Z.of_nat critical * 3)%Z in
  let warning_weight := (Z.of_nat warning * 2)%Z in
  let info_weight := (Z.of_nat info * 1)%Z in
  let penalty := (critical_weight + warning_weight + info_weight)%Z in
  let overall_score := score_of_penalty penalty in
  Ok {| overall_score := overall_score;
        total_issues := total_issues;
        severity_breakdown := severity_count;
        category_breakdown := type_count;
        recommendations_count := length (recommendations result_state) |}.

(** The stages by name. *)
Inductive stage_name : Type :=
| Analyzer | Quality | Security | Performance | Documentation | Final.

Definition agent (n : stage_name) : CodeReviewAgents -> action unit :=
  match n with
  | Analyzer => _analyzer_agent
  | Quality => _quality_checker_agent
  | Security => _security_reviewer_agent
  | Performance => _performance_optimizer_agent
  | Documentation => _documentation_generator_agent
  | Final => _final_reviewer_agent
  end.

(** The four stages that ask the model. *)
Inductive enrichment : Type := EQuality | ESecurity | EPerformance | EDocumentation.

Definition enrichment_agent (n : enrichment) : CodeReviewAgents -> action unit :=
  match n with
  | EQuality => _quality_checker_agent
  | ESecurity => _security_reviewer_agent
  | EPerformance => _performance_optimizer_agent
  | EDocumentation => _documentation_generator_agent
  end.

(** The user prompt a stage sends from a given state. *)
Definition enrichment_prompt (n : enrichment) (self : CodeReviewAgents)
           (st : CodeReviewState) : string :=
  match n with
  | EQuality =>
      quality_prompt (prompts self) (code st) (language st) (analysis_result st)
  | ESecurity =>
      security_prompt (prompts self) (code st) (language st)
        (join_lines (map page_content
           (search_knowledge (rag_system self) ("security " +:+ language st) 3)))
  | EPerformance =>
      performance_prompt (prompts self) (code st) (language st) (analysis_result st)
        (join_lines (map page_content
           (search_knowledge (rag_system self)
              ("performance optimization " +:+ language st) 3)))
  | EDocumentation =>
      doc_prompt (prompts self) (code st) (language st) (analysis_result st)
  end.

(** The key of the reply under which a stage expects its list. *)
Definition enrichment_key (n : enrichment) : string :=
  match n with
  | EQuality => "issues"
  | ESecurity => "vulnerabilities"
  | EPerformance => "optimizations"
  | EDocumentation => "suggestions"
  end.

(** ** Vocabulary of the properties *)

(** A failure of the parser that the analyzer does not handle: the language
    is python and [ast.parse] ends with an exception that is no
    [SyntaxError]. *)
Definition parser_failure_escapes (lib : StdLib) (code language : string)
           (e : exn) : Prop :=
  language = "python" /\ ast_parse lib code = Crashed e /\ exn_cls e <> SyntaxError.

(** A reply the decoding of a stage rejects: it is not JSON, or it is JSON
    but not an object, or the object holds under the stage's key a value
    that is no collection (a number, a truth value, [null]). *)
Inductive unusable_reply (lib : StdLib) (key : string) (text : string) : Prop :=
| NotJson (e : exn) :
    json_loads lib text = Raise e -> unusable_reply lib key text
| NotObject (v : value) :
    json_loads lib text = Ok v -> (forall d, v <> VDict d) ->
    unusable_reply lib key text
| NotCollection (d : dict) (v : value) :
    json_loads lib text = Ok (VDict d) -> dict_lookup key d = Some v ->
    (v = VNone \/ (exists b, v = VBool b) \/ (exists z, v = VInt z)) ->
    unusable_reply lib key text.

(** Severity rank: Critical 0, Warning 1, anything else (Info, a missing or
    an unrecognized severity) 2. *)
Definition severity_rank (x : value) : Z :=
  match x with
  | VDict d =>
      match dict_lookup "severity" d with
      | Some (VStr s) =>
          if String.eqb s "Critical" then 0%Z
          else if String.eqb s "Warning" then 1%Z
          else 2%Z
      | _ => 2%Z
      end
  | _ => 2%Z
  end.

(** An issue as the sort can rank it: a dictionary whose severity, when
    present, is not itself a list or a dictionary. *)
Definition rankable (x : value) : bool :=
  match x with
  | VDict d =>
      match dict_lookup "severity" d with
      | Some v => hashable v
      | None => true
      end
  | _ => false
  end.

(** An issue as the retrieval can query it: a dictionary with a type and a
    message. *)
Definition queryable (x : value) : bool :=
  match x with
  | VDict d =>
      match dict_lookup "type" d, dict_lookup "message" d with
      | Some _, Some _ => true
      | _, _ => false
      end
  | _ => false
  end.

(** The three keys of [severity_count]. *)
Definition one_of_three (s : string) : Prop :=
  s = "Critical" \/ s = "Warning" \/ s = "Info".

(** An issue the summary can count: a dictionary whose severity is absent
    or one of the three entries of [severity_count], and whose type can be
    a dictionary key. *)
Definition countable_issue (x : value) : bool :=
  match x with
  | VDict d =>
      match dict_lookup "severity" d with
      | Some (VStr s) =>
          String.eqb s "Critical" || String.eqb s "Warning" || String.eqb s "Info"
      | Some _ => false
      | None => true
      end
      && hashable (dict_get "type" (VStr "General") d)
  | _ => false
  end.

(** The severity an issue is counted under. *)
Definition counted_as (s : string) (x : value) : bool :=
  match x with
  | VDict d =>
      match dict_get "severity" (VStr "Info") d with
      | VStr t => String.eqb t s
      | _ => false
      end
  | _ => false
  end.

Definition count_of (s : string) (issues : list value) : nat :=
  length (List.filter (counted_as s) issues).

(** [3 * countCritical + 2 * countWarning + 1 * countInfo] *)
Definition weighted_penalty (issues : list value) : Z :=
  (3 * Z.of_nat (count_of "Critical" issues)
   + 2 * Z.of_nat (count_of "Warning" issues)
   + 1 * Z.of_nat (count_of "Info" issues))%Z.

(** The penalty as the synthesizer computes it from its counts. *)
Definition penalty_of (severity_count : gmap string nat) : Z :=
  (Z.of_nat (default O (severity_count !! "Critical")) * 3
   + Z.of_nat (default O (severity_count !! "Warning")) * 2
   + Z.of_nat (default O (severity_count !! "Info")) * 1)%Z.

(** A line uses the loose equality operator: two equals signs that are not
    part of a longer operator (no [=] or [!] before, no [=] after). *)
Definition is_equals (c : ascii) : bool := (code_point c =? 61)%N.
Definition is_bang (c : ascii) : bool := (code_point c =? 33)%N.

Fixpoint loose_equality_from (prev : option ascii) (s : string) : bool :=
  match s with
  | String a t =>
      (match t with
       | String b r =>
           is_equals a && is_equals b
           && negb (match prev with
                    | Some p => is_equals p || is_bang p
                    | None => false
                    end)
           && negb (match r with
                    | String c _ => is_equals c
                    | EmptyString => false
                    end)
       | EmptyString => false
       end)
      || loose_equality_from (Some a) t
  | EmptyString => false
  end.

Definition uses_loose_equality (line : string) : bool := loose_equality_from None line.

(** The severity recorded in an issue dictionary. *)
Definition severity_of (x : value) : option value :=
  match x with
  | VDict d => dict_lookup "severity" d
  | _ => None
  end.

Definition line_of (x : value) : option value :=
  match x with
  | VDict d => dict_lookup "line" d
  | _ => None
  end.

(** The claim that every line with a loose equality is reported. *)
Definition reports_every_loose_equality : Prop :=
  forall (code language : string) (i : nat) (line : string),
    language = "javascript" \/ language = "typescript" ->
    split_lines code !! i = Some line ->
    uses_loose_equality line = true ->
    exists x, In x (check_code_quality_issues code language)
              /\ severity_of x = Some (VStr "Warning")
              /\ line_of x = Some (VInt (Z.of_nat (i + 1))).

(** The content of a recommendation entry. *)
Definition content_of (x : value) : value :=
  match x with
  | VDict d => dict_get "content" VNone d
  | _ => VNone
  end.

(** The severity of an issue is one of the two the rule-based checks use. *)
Definition warning_or_info (x : value) : Prop :=
  severity_of x = Some (VStr "Warning") \/ severity_of x = Some (VStr "Info").

(** A block leaves the two inputs of the review as they were, whether it
    ends normally or by an exception. *)
Definition keeps_inputs {A} (m : action A) : Prop :=
  forall st, code (fst (m st)) = code st /\ filename (fst (m st)) = filename st.

(** ** Sample collaborators and states *)

Module Sample.

(** The text of one NUL character. *)
Definition nul : string := String (ascii_of_N 0) EmptyString.

(** A parser that knows one program, ends with a [ValueError] on a text
    that holds a NUL character, and rejects the rest. *)
Definition parse (code : string) : parse_outcome :=
  if String.eqb code "pass" then Parsed [OtherNode]
  else if contains nul code
       then Crashed (Exn ValueError "source code string cannot contain null bytes")
  else Rejected "invalid syntax (<unknown>, line 1)".

(** The reply made of an object that holds the text [ab] under [issues],
    where the schema of the quality stage asks for a list of issues. *)
Definition double_quote : string := String (ascii_of_N 34) EmptyString.

Definition text_reply : string :=
  "{" +:+ double_quote +:+ "issues" +:+ double_quote +:+ ": "
      +:+ double_quote +:+ "ab" +:+ double_quote +:+ "}".

(** A decoder for four replies. *)
Definition decode (s : string) : result value :=
  if String.eqb s "{}" then Ok (VDict [])
  else if String.eqb s "[]" then Ok (VList [])
  else if String.eqb s "7" then Ok (VInt 7)
  else if String.eqb s text_reply then Ok (VDict [("issues", VStr "ab")])
  else Raise (Exn ValueError "Expecting value").

Definition str (v : value) : string :=
  match v with
  | VStr s => s
  | _ => "None"
  end.

Definition stdlib : StdLib :=
  {| ast_parse := parse;
     re_findall1 := fun _ _ => [];
     re_findall3 := fun _ _ => [];
     json_decode := decode;
     py_str := str |}.

Definition plain_prompts : Prompts :=
  {| quality_prompt := fun code _ _ => code;
     security_prompt := fun code _ _ => code;
     performance_prompt := fun code _ _ _ => code;
     doc_prompt := fun code _ _ => code |}.

(** A model whose call times out. *)
Definition failing_llm : LLMManager :=
  {| llm_invoke := fun _ _ => Raise (Exn RuntimeError "timeout") |}.

(** A model that answers with a JSON array. *)
Definition array_llm : LLMManager := {| llm_invoke := fun _ _ => Ok "[]" |}.


Definition practice (title content : string) : Document :=
  {| page_content := content;
     metadata := [("category", VStr "code_quality"); ("title", VStr title);
                  ("language", VStr "general")] |}.

(** A store that answers every query with the same two documents. *)
Definition store : RAGSystem :=
  {| vector_store :=
       Some (fun _ k => Ok (take k [practice "t1" "keep functions short";
                                    practice "t2" "use clear names"])) |}.

Definition agents (llm : LLMManager) : CodeReviewAgents :=
  {| lib := stdlib; prompts := plain_prompts; llm_manager := llm;
     rag_system := store |}.

Definition found (type severity message : string) : value :=
  VDict [("type", VStr type); ("severity", VStr severity);
         ("line", VInt 1); ("message", VStr message)].

Definition state_with (found_issues : list value) : CodeReviewState :=
  {| code := "x = 1"; filename := "a.py"; language := "python";
     analysis_result := []; issues := found_issues; recommendations := [];
     optimized_code := VStr EmptyString; messages := [];
     current_step := "documentation_complete" |}.

(** An issue as a model may phrase it, with a severity outside the three. *)
Definition high_issue : value := found "Code Quality" "High" "too long".

Definition mixed_issues : list value :=
  [ found "Best Practices" "Info" "a"; found "Security" "Critical" "b";
    found "Code Quality" "Warning" "c"; found "Code Quality" "High" "d";
    found "Security" "Critical" "e" ].

Definition three_critical : list value :=
  [ found "Security" "Critical" "a"; found "Security" "Critical" "b";
    found "Security" "Critical" "c" ].

End Sample.

(** ** Further vocabulary *)

(** The number of line feeds of a text. *)
Fixpoint count_newlines (s : string) : nat :=
  match s with
  | EmptyString => 0
  | String c r => (if is_newline c then 1 else 0) + count_newlines r
  end.

(** The dictionary an analysis builds, by its five entries, and the facts
    returned to the caller, with the line count in front. *)
Definition analysis_of (functions classes imports : list value) (complexity : Z)
           (diagnostics : list value) : dict :=
  [ ("functions", VList functions); ("classes", VList classes);
    ("imports", VList imports); ("complexity_score", VInt complexity);
    ("issues", VList diagnostics) ].

Definition facts_of (lines : nat) (functions classes imports : list value)
           (complexity : Z) (diagnostics : list value) : dict :=
  ("lines_of_code", VInt (Z.of_nat lines))
    :: analysis_of functions classes imports complexity diagnostics.

(** What one node of the walk contributes to each entry. *)
Definition function_entries (node : ast_node) : list value :=
  match node with
  | FunctionDef name lineno nargs doc =>
      [VDict [("name", VStr name); ("line", VInt lineno);
              ("args", VInt (Z.of_nat nargs)); ("docstring", opt_str doc)]]
  | _ => []
  end.

Definition class_entries (node : ast_node) : list value :=
  match node with
  | ClassDef name lineno body doc =>
      [VDict [("name", VStr name); ("line", VInt lineno);
              ("methods", VInt (Z.of_nat (length (List.filter (fun b : bool => b) body))));
              ("docstring", opt_str doc)]]
  | _ => []
  end.

Definition import_entries (node : ast_node) : list value :=
  match node with
  | Import names => map VStr names
  | ImportFrom module => [opt_str module]
  | _ => []
  end.

Definition is_branch (node : ast_node) : bool :=
  match node with
  | If | For | While | Try => true
  | _ => false
  end.

(** The whole-word occurrences of the control-flow keywords on one line,
    and in a list of lines. *)
Definition line_complexity (line : string) : nat :=
  list_sum (map (fun keyword => findall_word keyword line) complexity_keywords).

Definition text_complexity (lines : list string) : nat :=
  list_sum (map line_complexity lines).

(** The function entries of the line-by-line search. *)
Definition generic_function_entries (lib : StdLib) (language : string)
           (lines : list string) : list value :=
  match function_patterns language with
  | Some pattern =>
      flat_map
        (fun il =>
           match first_name lib pattern (snd il) with
           | Some name =>
               [VDict [("name", VStr name); ("line", VInt (Z.of_nat (fst il + 1)))]]
           | None => []
           end)
        (enumerate lines)
  | None => []
  end.

(** A second sample library: a parser that knows the one-function module
    [def f(x): return x+1] and the walk of its tree. *)
Module Demo.

Definition source : string := "def f(x):
    return x+1
".

Definition parse (code : string) : parse_outcome :=
  if String.eqb code source
  then Parsed [OtherNode; FunctionDef "f" 1 1 None; OtherNode; OtherNode;
               OtherNode; OtherNode; OtherNode; OtherNode; OtherNode]
  else Rejected "invalid syntax (<unknown>, line 1)".

Definition stdlib : StdLib :=
  {| ast_parse := parse;
     re_findall1 := fun _ _ => [];
     re_findall3 := fun _ _ => [];
     json_decode := Sample.decode;
     py_str := Sample.str |}.

End Demo.

(** One entry of the facts [analyze_code_structure] returns. *)
Definition fact (key : string) (lib : StdLib) (code language : string)
  : result (option value) :=
  facts ← analyze_code_structure lib code language;
  Ok (dict_lookup key facts).

(** A line feed. *)
Definition newline : string := String (ascii_of_N 10) EmptyString.

(** What the rule-based checker reports, line by line: [x] is an issue for
    the text [code] read as [language]. *)
Definition reported (code language : string) (x : value) : Prop :=
  exists (i : nat) (line : string),
    split_lines code !! i = Some line
    /\ ((120 < len line
         /\ x = issue "Code Quality" "Warning" (i + 1) (long_line_message (len line)))
        \/ (search_quoted_digits line = true
            /\ x = issue "Best Practices" "Info" (i + 1) hardcoded_message)
        \/ (language = "python"
            /\ contains "except:" (strip line) = true
            /\ x = issue "Best Practices" "Warning" (i + 1) bare_except_message)
        \/ (language = "python"
            /\ startswith "from " (strip line) = true
            /\ (exists prev, 0 < i /\ split_lines code !! (i - 1) = Some prev
                             /\ startswith "import " (strip prev) = true)
            /\ x = issue "Best Practices" "Info" (i + 1) import_order_message)
        \/ ((language = "javascript" \/ language = "typescript")
            /\ search_word "var" (strip line) = true
            /\ x = issue "Best Practices" "Warning" (i + 1) var_message)
        \/ ((language = "javascript" \/ language = "typescript")
            /\ contains "==" (strip line) = true
            /\ contains "===" (strip line) = false
            /\ x = issue "Best Practices" "Warning" (i + 1) loose_equality_message)).

(** The query the retrieval sends for an issue. *)
Definition issue_query (lib : StdLib) (language : string) (issue : value)
  : result string :=
  type ← py_getitem issue "type";
  message ← py_getitem issue "message";
  Ok (py_str lib type +:+ " " +:+ py_str lib message +:+ " " +:+ language).

(** The documents found for a list of issues, in the order of the issues
    and, for each issue, in the order of its search. *)
Definition retrieved (lib : StdLib) (rag : RAGSystem) (language : string)
           (issues : list value) : list Document :=
  flat_map (fun issue =>
              match issue_query lib language issue with
              | Ok query => search_knowledge rag query 2
              | Raise _ => []
              end) issues.

(** The documents kept when those whose content is in [seen], or was met
    earlier in the list, are left out. *)
Fixpoint first_seen (seen : gset string) (docs : list Document) : list Document :=
  match docs with
  | [] => []
  | doc :: rest =>
      if bool_decide (page_content doc ∈ seen) then first_seen seen rest
      else doc :: first_seen ({[ page_content doc ]} ∪ seen) rest
  end.

(** The step a stage records when its [try] block completes. *)
Definition enrichment_step (n : enrichment) : string :=
  match n with
  | EQuality => "quality_check_complete"
  | ESecurity => "security_review_complete"
  | EPerformance => "performance_optimization_complete"
  | EDocumentation => "documentation_complete"
  end.

(** What [review_code] returns: the success dictionary, or the failure
    dictionary made from the exception caught. *)
Inductive review : Type :=
| Reviewed (language : string) (analysis : dict) (issues recommendations : list value)
           (optimized_code : value) (summary : Summary)
| Failed (error : exn).

(** The state [review_code] starts the workflow from. *)
Definition initial_state (code filename : string) : CodeReviewState :=
  {| code := code; filename := filename; language := EmptyString;
     analysis_result := []; issues := []; recommendations := [];
     optimized_code := VStr EmptyString; messages := [];
     current_step := "start" |}.

(** [review_code]: the workflow and the summary run inside one [try]; any
    exception becomes the failure dictionary. *)
Definition review_code (self : CodeReviewAgents) (code filename : string) : review :=
  match workflow self (initial_state code filename) with
  | (result_state, Ok tt) =>
      match _generate_summary result_state with
      | Ok summary =>
          Reviewed (language result_state) (analysis_result result_state)
                   (issues result_state) (recommendations result_state)
                   (optimized_code result_state) summary
      | Raise e => Failed e
      end
  | (_, Raise e) => Failed e
  end.

(** The state the analyzer stage leaves, and the state the final stage
    leaves when it completes. *)
Definition analyzed_state (st : CodeReviewState) (facts : dict) : CodeReviewState :=
  {| code := code st; filename := filename st;
     language := detect_language (code st) (filename st);
     analysis_result := facts;
     issues := check_code_quality_issues (code st)
                 (detect_language (code st) (filename st));
     recommendations := recommendations st;
     optimized_code := optimized_code st; messages := messages st;
     current_step := "analysis_complete" |}.

Definition reviewed_state (st : CodeReviewState) (sorted_issues : list value)
           (docs : list Document) : CodeReviewState :=
  {| code := code st; filename := filename st; language := language st;
     analysis_result := analysis_result st; issues := sorted_issues;
     recommendations := map recommendation docs;
     optimized_code := optimized_code st; messages := messages st;
     current_step := "review_complete" |}.

(** Vocabulary for the hard-coded-literal pattern. *)

(** Two neighbouring digits somewhere in a segment. *)
Fixpoint adjacent_digits (l : list ascii) : bool :=
  match l with
  | d1 :: (d2 :: _) as t => (is_digit d1 && is_digit d2) || adjacent_digits t
  | _ => false
  end.

Definition starts_with_digit (l : list ascii) : bool :=
  match l with
  | d :: _ => is_digit d
  | [] => false
  end.

(** What the scan is looking for from the state it is in: with a quote
    open, a closing quote after a segment without quotes that holds two
    neighbouring digits (counting those already seen and the run that ends
    here); or a whole match further on. *)
Definition closes (run : nat) (seen : bool) (l : list ascii) : Prop :=
  exists seg q post,
    l = seg ++ q :: post
    /\ Forall (fun c => is_quote c = false) seg
    /\ is_quote q = true
    /\ seen || ((1 <=? run)%nat && starts_with_digit seg) || adjacent_digits seg = true.

Definition quoted_pair (l : list ascii) : Prop :=
  exists pre q1 seg q2 post,
    l = pre ++ q1 :: seg ++ q2 :: post
    /\ is_quote q1 = true /\ is_quote q2 = true
    /\ Forall (fun c => is_quote c = false) seg
    /\ adjacent_digits seg = true.


(** ** config.py *)

(** The class attributes [validate_config] reads: the demo flag and three
    values of [os.getenv], each absent or a text. *)
Record Config : Type := {
  DEMO_MODE : bool;
  AZURE_OPENAI_API_KEY : option string;
  AZURE_OPENAI_ENDPOINT : option string;
  OPENAI_API_KEY : option string
}.

(** Truth value of an optional text: [None] and the empty text are false. *)
Definition is_set (v : option string) : bool :=
  match v with
  | Some (String _ _) => true
  | _ => false
  end.

Definition missing_key_message : string :=
  "API 키가 설정되지 않았습니다. AOAI_API_KEY 또는 OPENAI_API_KEY를 설정해주세요.".

Definition missing_endpoint_message : string :=
  "Azure OpenAI 엔드포인트가 설정되지 않았습니다. AOAI_ENDPOINT를 설정해주세요.".

Definition validate_config (cls : Config) : list string :=
  if negb (DEMO_MODE cls) then
    (if negb (is_set (AZURE_OPENAI_API_KEY cls)) && negb (is_set (OPENAI_API_KEY cls))
     then [missing_key_message] else [])
    ++ (if is_set (AZURE_OPENAI_API_KEY cls)
           && negb (is_set (AZURE_OPENAI_ENDPOINT cls))
        then [missing_endpoint_message] else [])
  else [].

(** * Properties *)

(** ** The result monad and loops *)

Lemma bind_Ok_inv {A B} (r : result A) (k : A -> result B) (b : B) :
  (x ← r; k x) = Ok b -> exists a, r = Ok a /\ k a = Ok b.
Proof.
  destruct r as [a|e]; simpl; intros H; [eauto | discriminate].
Qed.

Lemma for_each_app {A S} (body : S -> A -> result S) (l1 l2 : list A) (s : S) :
  for_each body (l1 ++ l2) s = (s' ← for_each body l1 s; for_each body l2 s').
Proof.
  revert s; induction l1 as [|x l1 IH]; intros s; simpl; [reflexivity|].
  destruct (body s x) as [s'|e]; simpl; [apply IH | reflexivity].
Qed.

(** ** Summary synthesizer *)

Lemma score_of_penalty_range (p : Z) :
  (0 <= p)%Z -> (1 <= score_of_penalty p <= 10)%Z.
Proof. unfold score_of_penalty; lia. Qed.

Lemma score_of_penalty_ten (p : Z) :
  (0 <= p)%Z -> (score_of_penalty p = 10 <-> p = 0)%Z.
Proof. unfold score_of_penalty; lia. Qed.

Lemma score_of_penalty_floor (p : Z) :
  (9 <= p)%Z -> score_of_penalty p = 1%Z.
Proof. unfold score_of_penalty; lia. Qed.

Lemma count_of_cons (s : string) (x : value) (l : list value) :
  count_of s (x :: l) = (if counted_as s x then 1 else 0) + count_of s l.
Proof. unfold count_of; simpl; destruct (counted_as s x); reflexivity. Qed.

(** One turn of the counting loop adds one to the entry of the severity the
    issue is counted under and leaves the other entries, present or absent,
    as they were. *)
Lemma count_issue_entry sc tc x sc' tc' (s : string) :
  count_issue (sc, tc) x = Ok (sc', tc') ->
  sc' !! s = (fun n => n + (if counted_as s x then 1 else 0)) <$> sc !! s.
Proof.
  unfold count_issue; simpl.
  destruct x as [| | | |l|d]; simpl; try discriminate.
  unfold counted_as.
  destruct (dict_get "severity" (VStr "Info") d) as [| | |t| |]; simpl;
    try discriminate.
  destruct (sc !! t) as [n|] eqn:Ht; simpl; [|discriminate].
  destruct (count_type _ tc) as [tc''|e]; simpl; [|discriminate].
  intros H; injection H as <- <-.
  destruct (String.eqb_spec t s) as [-> | Hne].
  - rewrite lookup_insert_eq, Ht; reflexivity.
  - rewrite lookup_insert_ne by assumption.
    destruct (sc !! s); simpl; [f_equal; lia | reflexivity].
Qed.

Lemma count_loop_entry l : forall sc tc sc' tc' (s : string),
  for_each count_issue l (sc, tc) = Ok (sc', tc') ->
  sc' !! s = (fun n => n + count_of s l) <$> sc !! s.
Proof.
  induction l as [|x l IH]; intros sc tc sc' tc' s; simpl.
  - intros H; injection H as <- <-. unfold count_of; simpl.
    destruct (sc !! s); simpl; [f_equal; lia | reflexivity].
  - intros H. apply bind_Ok_inv in H as [[sc1 tc1] [H1 H2]].
    rewrite (IH _ _ _ _ s H2), (count_issue_entry _ _ _ _ _ s H1), count_of_cons.
    destruct (sc !! s); simpl; [f_equal; lia | reflexivity].
Qed.

Lemma initial_entry (s : string) :
  s = "Critical" \/ s = "Warning" \/ s = "Info" ->
  initial_severity_count !! s = Some 0.
Proof. intros [-> | [-> | ->]]; reflexivity. Qed.

Lemma initial_entry_inv (s : string) (n : nat) :
  initial_severity_count !! s = Some n ->
  s = "Critical" \/ s = "Warning" \/ s = "Info".
Proof.
  unfold initial_severity_count. intros H.
  destruct (decide (s = "Critical")) as [|H1]; [auto|].
  destruct (decide (s = "Warning")) as [|H2]; [auto|].
  destruct (decide (s = "Info")) as [|H3]; [auto|].
  rewrite !lookup_insert_ne, lookup_empty in H by congruence. discriminate.
Qed.

(** After the loop the three entries hold the numbers of issues counted
    under each severity. *)
Lemma count_issues_entries issues sc tc (s : string) :
  count_issues issues = Ok (sc, tc) ->
  s = "Critical" \/ s = "Warning" \/ s = "Info" ->
  sc !! s = Some (count_of s issues).
Proof.
  unfold count_issues; intros H Hs.
  rewrite (count_loop_entry _ _ _ _ _ s H), (initial_entry s Hs). reflexivity.
Qed.

Lemma generate_summary_after_count st sc tc :
  count_issues (issues st) = Ok (sc, tc) ->
  _generate_summary st =
    Ok {| overall_score := score_of_penalty (weighted_penalty (issues st));
          total_issues := length (issues st);
          severity_breakdown := sc;
          category_breakdown := tc;
          recommendations_count := length (recommendations st) |}.
Proof.
  intros H. unfold _generate_summary. rewrite H; simpl.
  unfold severity_entry.
  rewrite !(count_issues_entries _ _ _ _ H) by auto. simpl.
  do 2 f_equal. unfold weighted_penalty. f_equal. lia.
Qed.

Lemma generate_summary_Ok_inv st s :
  _generate_summary st = Ok s ->
  exists sc tc, count_issues (issues st) = Ok (sc, tc).
Proof.
  unfold _generate_summary. intros H.
  apply bind_Ok_inv in H as [[sc tc] [H _]]. eauto.
Qed.

Lemma count_issue_counted sc tc x sc' tc' :
  count_issue (sc, tc) x = Ok (sc', tc') ->
  exists t, is_Some (sc !! t) /\ counted_as t x = true.
Proof.
  unfold count_issue; simpl.
  destruct x as [| | | |l|d]; simpl; try discriminate.
  unfold counted_as.
  destruct (dict_get "severity" (VStr "Info") d) as [| | |t| |]; simpl;
    try discriminate.
  destruct (sc !! t) as [n|] eqn:Ht; simpl; [|discriminate].
  intros _. exists t. rewrite Ht, String.eqb_refl. eauto.
Qed.

(** When the loop completes, every issue was counted under an entry the
    dictionary had from the start. *)
Lemma count_loop_counted l : forall sc tc sc' tc',
  for_each count_issue l (sc, tc) = Ok (sc', tc') ->
  Forall (fun x => exists t, is_Some (sc !! t) /\ counted_as t x = true) l.
Proof.
  induction l as [|x l IH]; intros sc tc sc' tc'; simpl; [constructor|].
  intros H. apply bind_Ok_inv in H as [[sc1 tc1] [H1 H2]].
  constructor.
  - eapply count_issue_counted; eassumption.
  - eapply Forall_impl; [eapply IH; eassumption|].
    intros y [t [Ht Hy]]. exists t. split; [|assumption].
    rewrite (count_issue_entry _ _ _ _ _ t H1) in Ht.
    destruct (sc !! t); [eauto | destruct Ht; discriminate].
Qed.

Lemma weighted_penalty_nonneg issues : (0 <= weighted_penalty issues)%Z.
Proof. unfold weighted_penalty; lia. Qed.

Lemma weighted_penalty_nil : weighted_penalty [] = 0%Z.
Proof. reflexivity. Qed.

Lemma weighted_penalty_counted x l :
  (exists t, one_of_three t /\ counted_as t x = true) ->
  (1 <= weighted_penalty (x :: l))%Z.
Proof.
  intros [t [Ht Hx]]. unfold weighted_penalty. rewrite !count_of_cons.
  destruct Ht as [-> | [-> | ->]]; rewrite Hx; lia.
Qed.

(** What the synthesizer returns, whenever it returns: a score between 1
    and 10 that is 10 exactly for the empty list. *)
Lemma generate_summary_score st s :
  _generate_summary st = Ok s ->
  (1 <= overall_score s <= 10)%Z /\ (overall_score s = 10%Z <-> issues st = []).
Proof.
  intros H. destruct (generate_summary_Ok_inv _ _ H) as [sc [tc Hc]].
  rewrite (generate_summary_after_count _ _ _ Hc) in H.
  injection H as <-; simpl.
  split; [apply score_of_penalty_range, weighted_penalty_nonneg|].
  rewrite score_of_penalty_ten by apply weighted_penalty_nonneg.
  split.
  - intros Hz. destruct (issues st) as [|x l] eqn:Hi; [reflexivity|].
    exfalso. apply count_loop_counted in Hc. inversion Hc as [|? ? [t [Ht Hx]] _]; subst.
    assert (1 <= weighted_penalty (x :: l))%Z; [|lia].
    apply weighted_penalty_counted. exists t. split; [|assumption].
    destruct Ht as [n Hn]. eapply initial_entry_inv; eassumption.
  - intros ->. reflexivity.
Qed.

Lemma count_issue_countable sc tc x :
  countable_issue x = true ->
  (forall t, one_of_three t -> is_Some (sc !! t)) ->
  exists sc1 tc1, count_issue (sc, tc) x = Ok (sc1, tc1).
Proof.
  intros Hx Hsc. destruct x as [| | | |l0|d]; try discriminate.
  unfold countable_issue in Hx. apply andb_true_iff in Hx as [Hs Ht].
  unfold count_issue; simpl. unfold count_type, dict_get in *. rewrite Ht. clear Ht.
  destruct (dict_lookup "severity" d) as [[| | |t| |]|]; try discriminate; simpl.
  - assert (one_of_three t) as Hthree.
    { apply orb_true_iff in Hs as [Hs|Hs];
        [apply orb_true_iff in Hs as [Hs|Hs]|];
        apply String.eqb_eq in Hs; unfold one_of_three; auto. }
    destruct (Hsc t Hthree) as [n Hn]. rewrite Hn; simpl. eauto.
  - destruct (Hsc "Info") as [n Hn]; [unfold one_of_three; auto|].
    rewrite Hn; simpl. eauto.
Qed.

(** The synthesizer returns on every list of issues it can count. *)
Lemma count_loop_countable l : forall sc tc,
  Forall (fun x => countable_issue x = true) l ->
  (forall t, one_of_three t -> is_Some (sc !! t)) ->
  exists counts, for_each count_issue l (sc, tc) = Ok counts.
Proof.
  induction l as [|x l IH]; intros sc tc Hl Hsc; simpl; [eauto|].
  inversion Hl as [|? ? Hx Hl']; subst.
  destruct (count_issue_countable sc tc x Hx Hsc) as [sc1 [tc1 H1]].
  rewrite H1; simpl. apply IH; [assumption|].
  intros t Ht. rewrite (count_issue_entry _ _ _ _ _ t H1).
  destruct (Hsc t Ht) as [n ->]; simpl; eauto.
Qed.

Lemma generate_summary_countable st :
  Forall (fun x => countable_issue x = true) (issues st) ->
  exists s, _generate_summary st = Ok s.
Proof.
  intros H.
  destruct (count_loop_countable (issues st) initial_severity_count [] H)
    as [[sc tc] Hc].
  - intros t Ht. rewrite (initial_entry t Ht); eauto.
  - rewrite (generate_summary_after_count _ _ _ Hc); eauto.
Qed.

(** The penalty the synthesizer computes is the weighted count of the
    list. *)
Lemma penalty_of_counts issues sc tc :
  count_issues issues = Ok (sc, tc) ->
  penalty_of sc = weighted_penalty issues.
Proof.
  intros H. unfold penalty_of, weighted_penalty.
  rewrite !(count_issues_entries _ _ _ _ H) by auto. simpl. lia.
Qed.

(** An issue whose severity is a text outside the three entries stops the
    counting loop. *)
Lemma generate_summary_unrecognized st :
  Exists (fun x => exists d t, x = VDict d
                     /\ dict_lookup "severity" d = Some (VStr t)
                     /\ ~ one_of_three t) (issues st) ->
  exists e, _generate_summary st = Raise e.
Proof.
  intros Hex. destruct (_generate_summary st) as [s|e] eqn:H; [|eauto].
  exfalso. destruct (generate_summary_Ok_inv _ _ H) as [sc [tc Hc]].
  apply count_loop_counted in Hc. rewrite Forall_forall in Hc.
  apply Exists_exists in Hex as [x [Hin [d [t [-> [Hd Hn]]]]]].
  destruct (Hc _ Hin) as [t' [[n Hn'] Hx]].
  apply initial_entry_inv in Hn'.
  unfold counted_as, dict_get in Hx. rewrite Hd in Hx.
  apply String.eqb_eq in Hx. subst. contradiction.
Qed.

(** C1. The summary synthesizer is given the one-issue list whose issue has
    severity [High], a list the enrichment stages can build from a model
    reply: the increment of [severity_count] raises [KeyError] and no score
    is returned, while the sort of the final stage accepts the same list and
    ranks the issue as Info. *)
Theorem generate_summary_raises_on_high_severity :
  _generate_summary (Sample.state_with [Sample.high_issue])
    = Raise (Exn KeyError "High")
  /\ py_sorted severity_key [Sample.high_issue] = Ok [Sample.high_issue]
  /\ severity_key Sample.high_issue = Ok 2%Z.
Proof. repeat split; vm_compute; reflexivity. Qed.

(** Once the counting loop has produced its counts, a weighted penalty of
    at least 9 makes the synthesizer return the overall score 1. *)
Lemma saturation_after_count st sc tc :
  count_issues (issues st) = Ok (sc, tc) ->
  (9 <= weighted_penalty (issues st))%Z ->
  exists s, _generate_summary st = Ok s /\ overall_score s = 1%Z.
Proof.
  intros Hc Hp.
  rewrite (generate_summary_after_count _ _ _ Hc).
  eexists; split; [reflexivity|]; simpl.
  apply score_of_penalty_floor; assumption.
Qed.

(** C5. Three Critical issues followed by one issue of severity [High]
    have the weighted penalty 3 x 3 + 2 x 0 + 1 x 0 = 9, yet the summary
    synthesizer returns no score for them: the increment of
    [severity_count] raises [KeyError].  On every list whose severities
    are absent or among Critical, Warning and Info, a weighted penalty of
    at least 9 gives the overall score 1. *)
Theorem penalty_reached_without_score :
  (9 <= weighted_penalty (Sample.three_critical ++ [Sample.high_issue]))%Z
  /\ _generate_summary
       (Sample.state_with (Sample.three_critical ++ [Sample.high_issue]))
     = Raise (Exn KeyError "High")
  /\ (forall st,
         Forall (fun x => countable_issue x = true) (issues st) ->
         (9 <= weighted_penalty (issues st))%Z ->
         exists s, _generate_summary st = Ok s /\ overall_score s = 1%Z).
Proof.
  split; [vm_compute; discriminate|].
  split; [vm_compute; reflexivity|].
  intros st Hall Hp.
  destruct (count_loop_countable (issues st) initial_severity_count [] Hall)
    as [[sc tc] Hc].
  - intros t Ht. rewrite (initial_entry t Ht); eauto.
  - eapply saturation_after_count; eassumption.
Qed.

(** ** Language detector *)

Lemma max_from_in rest : forall best,
  In (max_from best rest) (map fst (best :: rest)).
Proof.
  induction rest as [|[l n] r IH]; intros best; simpl; [auto|].
  destruct (snd best <? n)%nat.
  - right. apply (IH (l, n)).
  - destruct (IH best) as [H|H]; simpl in *; auto.
Qed.

(** The key that [max] returns when one entry is strictly above all the
    others. *)
Lemma max_from_strict rest : forall best lang n,
  In (lang, n) (best :: rest) ->
  (forall l m, In (l, m) (best :: rest) -> (l = lang /\ m = n) \/ m < n) ->
  max_from best rest = lang.
Proof.
  induction rest as [|[l m] r IH]; intros [bl bn] lang n Hin Hmax; simpl.
  - destruct Hin as [H|[]]. injection H as -> ->. reflexivity.
  - destruct (Nat.ltb_spec bn m) as [Hlt|Hge].
    + apply (IH (l, m) lang n).
      * destruct Hin as [H|H]; [|exact H].
        injection H as -> ->.
        destruct (Hmax l m) as [[_ ->]|]; [simpl; auto | lia | lia].
      * intros l' m' H. apply Hmax. simpl in *. tauto.
    + apply (IH (bl, bn) lang n).
      * destruct Hin as [H|[H|H]]; [left; exact H | | right; exact H].
        injection H as -> ->.
        destruct (Hmax bl bn) as [[-> ->]|]; [simpl; auto | left; reflexivity | lia].
      * intros l' m' H. apply Hmax. simpl in *. tauto.
Qed.

Lemma language_scores_names code :
  map fst (language_scores code language_patterns)
  = ["python"; "javascript"; "typescript"; "java"].
Proof. reflexivity. Qed.

Lemma match_extension_known filename lang :
  match_extension filename language_patterns = Some lang ->
  In lang ["python"; "javascript"; "typescript"; "java"].
Proof.
  unfold language_patterns; simpl.
  repeat match goal with
         | |- context [if ?b then _ else _] => destruct b
         end; intros H; inversion H; simpl; auto.
Qed.

(** The detector answers with one of the four table languages, whatever
    the text and the file name: the sentinel is never returned. *)
Lemma detect_language_known code filename :
  In (detect_language code filename) ["python"; "javascript"; "typescript"; "java"].
Proof.
  unfold detect_language.
  destruct (if (len filename =? 0)%nat then None
            else match_extension filename language_patterns) as [lang|] eqn:H.
  - destruct (len filename =? 0)%nat; [discriminate|].
    eapply match_extension_known; eassumption.
  - rewrite <- (language_scores_names code).
    unfold best_language.
    destruct (language_scores code language_patterns) as [|b r] eqn:Hs;
      [discriminate|].
    apply max_from_in.
Qed.

Lemma detect_language_not_unknown code filename :
  detect_language code filename <> "unknown".
Proof.
  intros H. pose proof (detect_language_known code filename) as Hin.
  rewrite H in Hin. simpl in Hin.
  repeat destruct Hin as [Hin|Hin]; try discriminate; contradiction.
Qed.

Lemma scores_functional code l a b :
  In (l, a) (language_scores code language_patterns) ->
  In (l, b) (language_scores code language_patterns) -> a = b.
Proof.
  simpl. intros Ha Hb.
  repeat destruct Ha as [Ha|Ha]; try contradiction;
    repeat destruct Hb as [Hb|Hb]; try contradiction;
    inversion Ha; inversion Hb; subst; try discriminate; reflexivity.
Qed.

(** Without a matching extension, a language whose keyword score is
    strictly above every other language's score is the one returned. *)
Lemma detect_language_strict_max code filename lang n :
  (len filename = 0 \/ match_extension filename language_patterns = None) ->
  In (lang, n) (language_scores code language_patterns) ->
  (forall l m, In (l, m) (language_scores code language_patterns) ->
               l <> lang -> m < n) ->
  detect_language code filename = lang.
Proof.
  intros Hext Hin Hmax. unfold detect_language.
  assert ((if (len filename =? 0)%nat then None
           else match_extension filename language_patterns) = None) as ->.
  { destruct Hext as [-> | ->]; [reflexivity|].
    destruct (len filename =? 0)%nat; reflexivity. }
  unfold best_language.
  destruct (language_scores code language_patterns) as [|b r] eqn:Hs;
    [destruct Hin|].
  apply (max_from_strict r b lang n Hin).
  intros l m Hlm. destruct (string_dec l lang) as [-> | Hne].
  - left. split; [reflexivity|].
    rewrite <- Hs in *. eapply scores_functional; eassumption.
  - right. eapply Hmax; eassumption.
Qed.

(** With no matching extension and every keyword score zero, the first
    language of the table comes back. *)
Lemma detect_language_all_zero code filename :
  (len filename = 0 \/ match_extension filename language_patterns = None) ->
  Forall (fun p => snd p = 0) (language_scores code language_patterns) ->
  detect_language code filename = "python".
Proof.
  intros Hext Hz. unfold detect_language.
  assert ((if (len filename =? 0)%nat then None
           else match_extension filename language_patterns) = None) as ->.
  { destruct Hext as [-> | ->]; [reflexivity|].
    destruct (len filename =? 0)%nat; reflexivity. }
  simpl in *.
  repeat match goal with
         | H : Forall _ (_ :: _) |- _ => inversion H; clear H; subst
         end.
  simpl in *.
  repeat match goal with
         | H : keyword_score _ _ = 0 |- _ => rewrite H; clear H
         end.
  reflexivity.
Qed.

(** C3. On a text without any keyword of the four languages and a file
    name without a known extension (and on the empty text with no file
    name), every score is zero and the detector returns [python], the first
    key of the table, not the sentinel [unknown]: the guard of the sentinel
    tests whether the score dictionary is empty, and it never is. *)
Theorem detect_language_without_signal :
  match_extension "notes.txt" language_patterns = None
  /\ Forall (fun p => snd p = 0) (language_scores "hello world" language_patterns)
  /\ detect_language "hello world" "notes.txt" = "python"
  /\ detect_language "" "" = "python".
Proof. repeat split; vm_compute; repeat constructor. Qed.

(** ** The sort of the final stage *)

Lemma insert_keyed_perm kx l : Permutation (kx :: l) (insert_keyed kx l).
Proof.
  induction l as [|ky r IH]; simpl; [reflexivity|].
  destruct (fst kx <=? fst ky)%Z; [reflexivity|].
  rewrite perm_swap. apply perm_skip, IH.
Qed.

Lemma sort_keyed_perm l : Permutation l (sort_keyed l).
Proof.
  induction l as [|kx l IH]; simpl; [reflexivity|].
  rewrite <- insert_keyed_perm. apply perm_skip, IH.
Qed.

Lemma insert_keyed_sorted kx l :
  StronglySorted key_le l -> StronglySorted key_le (insert_keyed kx l).
Proof.
  induction 1 as [|ky r Hr IH Hall]; simpl.
  - repeat constructor.
  - destruct (Z.leb_spec (fst kx) (fst ky)) as [Hle|Hgt].
    + constructor; [constructor; assumption|].
      constructor; [exact Hle|].
      eapply Forall_impl; [exact Hall|].
      intros p Hp. unfold key_le in *. lia.
    + constructor; [exact IH|].
      eapply Permutation_Forall; [apply insert_keyed_perm|].
      constructor; [unfold key_le; lia | exact Hall].
Qed.

Lemma sort_keyed_sorted l : StronglySorted key_le (sort_keyed l).
Proof.
  induction l as [|kx l IH]; simpl; [constructor|].
  apply insert_keyed_sorted, IH.
Qed.

(** Insertion keeps the items of each key in their order. *)
Lemma insert_keyed_stable r kx l :
  List.filter (has_key r) (insert_keyed kx l) = List.filter (has_key r) (kx :: l).
Proof.
  induction l as [|ky l IH]; [reflexivity|].
  cbn [insert_keyed].
  destruct (Z.leb_spec (fst kx) (fst ky)) as [Hle|Hgt]; [reflexivity|].
  cbn [List.filter] in *. rewrite IH.
  unfold has_key.
  destruct (Z.eqb_spec (fst kx) r), (Z.eqb_spec (fst ky) r);
    try reflexivity; lia.
Qed.

Lemma sort_keyed_stable r l :
  List.filter (has_key r) (sort_keyed l) = List.filter (has_key r) l.
Proof.
  induction l as [|kx l IH]; [reflexivity|].
  cbn [sort_keyed foldr]. rewrite insert_keyed_stable.
  cbn [List.filter]. fold (sort_keyed l). rewrite IH. reflexivity.
Qed.

Lemma priority_order_rank (s : string) :
  default 2%Z (priority_order !! s)
  = if String.eqb s "Critical" then 0%Z
    else if String.eqb s "Warning" then 1%Z else 2%Z.
Proof.
  unfold priority_order.
  destruct (String.eqb_spec s "Critical") as [-> | H1]; [reflexivity|].
  destruct (String.eqb_spec s "Warning") as [-> | H2]; [reflexivity|].
  rewrite !lookup_insert_ne by congruence.
  destruct (String.eqb_spec s "Info") as [-> | H3]; [reflexivity|].
  rewrite lookup_insert_ne, lookup_empty by congruence. reflexivity.
Qed.

(** Whenever the sort key is computed it is the severity rank. *)
Lemma severity_key_rank x k : severity_key x = Ok k -> k = severity_rank x.
Proof.
  unfold severity_key, severity_rank.
  destruct x as [| | | |l|d]; simpl; try discriminate.
  unfold dict_get. destruct (dict_lookup "severity" d) as [[| | |s| |]|];
    simpl; try discriminate; try (intros H; injection H as <-; reflexivity).
  rewrite priority_order_rank. intros H; injection H as <-. reflexivity.
Qed.

Lemma severity_key_rankable x :
  rankable x = true -> severity_key x = Ok (severity_rank x).
Proof.
  unfold rankable, severity_key, severity_rank.
  destruct x as [| | | |l|d]; simpl; try discriminate.
  unfold dict_get. destruct (dict_lookup "severity" d) as [[| | |s| |]|];
    simpl; try discriminate; try reflexivity.
  intros _. rewrite priority_order_rank. reflexivity.
Qed.

Lemma with_keys_Ok key l kl :
  with_keys key l = Ok kl ->
  map snd kl = l /\ Forall (fun p => key (snd p) = Ok (fst p)) kl.
Proof.
  revert kl; induction l as [|x l IH]; intros kl; simpl.
  - intros H; injection H as <-. split; constructor.
  - intros H. apply bind_Ok_inv in H as [k [Hk H]].
    apply bind_Ok_inv in H as [kr [Hkr H]]. injection H as <-.
    destruct (IH kr Hkr) as [Hm Hf]. simpl. split; [f_equal; exact Hm|].
    constructor; [exact Hk | exact Hf].
Qed.

Lemma with_keys_total key l :
  Forall (fun x => exists k, key x = Ok k) l -> exists kl, with_keys key l = Ok kl.
Proof.
  induction 1 as [|x l [k Hk] _ [kl IH]]; simpl; [eauto|].
  rewrite Hk, IH; simpl. eauto.
Qed.

Lemma filter_map_snd (f : value -> bool) (g : Z * value -> bool) l :
  Forall (fun p => g p = f (snd p)) l ->
  List.filter f (map snd l) = map snd (List.filter g l).
Proof.
  induction 1 as [|p l Hp _ IH]; simpl; [reflexivity|].
  rewrite <- Hp. destruct (g p); simpl; rewrite IH; reflexivity.
Qed.

(** What [sorted] returns, whenever it returns: the same issues, by
    non-decreasing rank, each rank in its order of arrival. *)
Lemma py_sorted_severity issues sorted_issues :
  py_sorted severity_key issues = Ok sorted_issues ->
  Permutation issues sorted_issues
  /\ StronglySorted (fun a b => (severity_rank a <= severity_rank b)%Z) sorted_issues
  /\ forall r, List.filter (fun x => (severity_rank x =? r)%Z) sorted_issues
               = List.filter (fun x => (severity_rank x =? r)%Z) issues.
Proof.
  unfold py_sorted. intros H. apply bind_Ok_inv in H as [kl [Hkl H]].
  injection H as <-.
  destruct (with_keys_Ok _ _ _ Hkl) as [Hm Hf].
  assert (Forall (fun p => fst p = severity_rank (snd p)) kl) as Htag.
  { eapply Forall_impl; [exact Hf|]. intros p Hp. apply severity_key_rank, Hp. }
  assert (Forall (fun p => fst p = severity_rank (snd p)) (sort_keyed kl)) as Htag'.
  { eapply Permutation_Forall; [apply sort_keyed_perm | exact Htag]. }
  split; [|split].
  - rewrite <- Hm. apply Permutation_map, sort_keyed_perm.
  - pose proof (sort_keyed_sorted kl) as Hs.
    induction Hs as [|p l Hl IH Hall]; simpl; [constructor|].
    inversion Htag' as [|? ? Hp Hl']; subst.
    constructor; [apply IH, Hl'|].
    rewrite Forall_map. rewrite Forall_forall in Hall, Hl' |- *.
    intros q Hq. simpl. rewrite <- Hp, <- (Hl' q Hq). apply Hall, Hq.
  - intros r. rewrite <- Hm.
    rewrite !(filter_map_snd _ (has_key r)).
    + rewrite sort_keyed_stable. reflexivity.
    + eapply Forall_impl; [exact Htag|]. unfold has_key. intros p ->. reflexivity.
    + eapply Forall_impl; [exact Htag'|]. unfold has_key. intros p ->. reflexivity.
Qed.

(** ** Retrieval of practices *)

(** The loop keeps [seen_content] equal to the contents of [unique_docs],
    which never repeat. *)
Lemma keep_unseen_invariant docs : forall unique_docs (seen : gset string),
  NoDup (map page_content unique_docs) ->
  (forall c, c ∈ seen <-> In c (map page_content unique_docs)) ->
  NoDup (map page_content (fst (fold_left keep_unseen docs (unique_docs, seen)))).
Proof.
  induction docs as [|doc docs IH]; intros u seen Hnd Hseen; simpl; [exact Hnd|].
  unfold keep_unseen at 2; simpl.
  destruct (bool_decide (page_content doc ∈ seen)) eqn:Hb.
  - apply IH; assumption.
  - apply bool_decide_eq_false in Hb. apply IH.
    + rewrite map_app; simpl. apply NoDup_app. split; [exact Hnd|].
      split; [|apply NoDup_singleton].
      intros c Hin Hc. apply list_elem_of_singleton in Hc. subst c.
      apply Hb, Hseen, list_elem_of_In, Hin.
    + intros c. rewrite map_app, in_app_iff; simpl.
      rewrite elem_of_union, elem_of_singleton, Hseen. intuition.
Qed.

Lemma unique_by_content_NoDup docs : NoDup (map page_content (unique_by_content docs)).
Proof.
  unfold unique_by_content. apply keep_unseen_invariant; simpl.
  - constructor.
  - intros c. split; [intros H; exfalso; set_solver | intros []].
Qed.

Lemma take_NoDup {A} (n : nat) (l : list A) : NoDup l -> NoDup (take n l).
Proof.
  intros H. rewrite <- (firstn_skipn n l) in H.
  apply NoDup_app in H as [H _]. exact H.
Qed.

Lemma recommendation_content doc :
  content_of (recommendation doc) = VStr (page_content doc).
Proof. reflexivity. Qed.

(** What the retrieval returns, whenever it returns. *)
Lemma relevant_practices_Ok lib rag issues language docs :
  get_relevant_practices lib rag issues language = Ok docs ->
  NoDup (map page_content docs) /\ length docs <= 5.
Proof.
  unfold get_relevant_practices. intros H.
  apply bind_Ok_inv in H as [relevant [_ H]]. injection H as <-. split.
  - rewrite <- firstn_map. apply take_NoDup, unique_by_content_NoDup.
  - apply firstn_le_length.
Qed.

Lemma search_for_issue_total lib rag language acc x :
  queryable x = true ->
  exists acc', search_for_issue lib rag language acc x = Ok acc'.
Proof.
  destruct x as [| | | |l|d]; try discriminate.
  unfold queryable, search_for_issue; simpl.
  destruct (dict_lookup "type" d); [|discriminate].
  destruct (dict_lookup "message" d); [|discriminate].
  simpl. eauto.
Qed.

Lemma relevant_loop_total lib rag language issues : forall acc,
  Forall (fun x => queryable x = true) issues ->
  exists relevant,
    for_each (search_for_issue lib rag language) issues acc = Ok relevant.
Proof.
  induction issues as [|x issues IH]; intros acc Hq; [simpl; eauto|].
  inversion Hq as [|? ? Hx Hq']; subst. cbn [for_each].
  destruct (search_for_issue_total lib rag language acc x Hx) as [acc' ->].
  simpl. apply IH, Hq'.
Qed.

Lemma recommendations_NoDup docs :
  NoDup (map page_content docs) ->
  NoDup (map content_of (map recommendation docs)).
Proof.
  intros H. rewrite map_map.
  rewrite (map_ext _ (fun d => VStr (page_content d)) recommendation_content).
  rewrite <- (map_map page_content VStr).
  assert (Inj (=) (=) VStr) as Hinj by (intros a b Hab; congruence).
  apply (NoDup_fmap_2 VStr), H.
Qed.

(** C7. For every list of issues (dictionaries with a type and a message)
    and every language, [get_relevant_practices] returns a list of at most
    5 documents in which no content occurs twice, and so does the list of
    recommendations the final stage builds from it. *)
Theorem relevant_practices_unique_capped lib rag issues language :
  Forall (fun x => queryable x = true) issues ->
  exists docs,
    get_relevant_practices lib rag issues language = Ok docs
    /\ NoDup (map page_content docs) /\ length docs <= 5
    /\ NoDup (map content_of (map recommendation docs))
    /\ length (map recommendation docs) <= 5.
Proof.
  intros Hq.
  destruct (relevant_loop_total lib rag language issues [] Hq) as [relevant Hr].
  assert (get_relevant_practices lib rag issues language
          = Ok (take 5 (unique_by_content relevant))) as H.
  { unfold get_relevant_practices. rewrite Hr. reflexivity. }
  destruct (relevant_practices_Ok _ _ _ _ _ H) as [Hnd Hlen].
  eexists; split; [exact H|]. repeat split; try assumption.
  - apply recommendations_NoDup, Hnd.
  - rewrite length_map. exact Hlen.
Qed.

Lemma relevant_practices_unique_capped_witness :
  exists docs,
    get_relevant_practices Sample.stdlib Sample.store Sample.mixed_issues "python"
      = Ok docs
    /\ NoDup (map page_content docs) /\ length docs <= 5
    /\ NoDup (map content_of (map recommendation docs))
    /\ length (map recommendation docs) <= 5.
Proof.
  apply (relevant_practices_unique_capped
           Sample.stdlib Sample.store Sample.mixed_issues "python").
  repeat constructor.
Defined.

(** ** Pipeline stages *)

Lemma keeps_inputs_ret {A} (a : A) : keeps_inputs (mret a : action A).
Proof. intros st; split; reflexivity. Qed.

Lemma keeps_inputs_bind {A B} (m : action A) (k : A -> action B) :
  keeps_inputs m -> (forall a, keeps_inputs (k a)) -> keeps_inputs (m ≫= k).
Proof.
  intros Hm Hk st. unfold mbind, action_bind.
  destruct (Hm st) as [Hc Hf]. destruct (m st) as [st' [a|e]]; simpl in *.
  - destruct (Hk a st') as [Hc' Hf']. split; congruence.
  - split; assumption.
Qed.

Lemma keeps_inputs_call {A} (r : result A) : keeps_inputs (call r).
Proof. intros st; split; reflexivity. Qed.

Lemma keeps_inputs_read {A} (field : CodeReviewState -> A) : keeps_inputs (read field).
Proof. intros st; split; reflexivity. Qed.

Lemma keeps_inputs_try body handler :
  keeps_inputs body -> (forall e, keeps_inputs (handler e)) ->
  keeps_inputs (try_except body handler).
Proof.
  intros Hb Hh st. unfold try_except.
  destruct (Hb st) as [Hc Hf]. destruct (body st) as [st' [[]|e]]; simpl in *.
  - split; assumption.
  - destruct (Hh e st') as [Hc' Hf']. split; congruence.
Qed.

Lemma keeps_inputs_log e : keeps_inputs (log_error e).
Proof. intros st; split; reflexivity. Qed.

Lemma keeps_inputs_extend items : keeps_inputs (extend_issues items).
Proof.
  intros st. unfold extend_issues. destruct (py_iter items); split; reflexivity.
Qed.

Lemma keeps_inputs_set_step step : keeps_inputs (set_step step).
Proof. intros st; split; reflexivity. Qed.

Lemma keeps_inputs_set_optimized v : keeps_inputs (set_optimized_code v).
Proof. intros st; split; reflexivity. Qed.

Lemma keeps_inputs_set_analysis lang analysis found :
  keeps_inputs (set_analysis lang analysis found).
Proof. intros st; split; reflexivity. Qed.

Lemma keeps_inputs_set_review sorted_issues recs :
  keeps_inputs (set_review sorted_issues recs).
Proof. intros st; split; reflexivity. Qed.

Create HintDb frame.

#[local] Hint Resolve keeps_inputs_ret keeps_inputs_call keeps_inputs_read
  keeps_inputs_log keeps_inputs_extend keeps_inputs_set_step
  keeps_inputs_set_optimized keeps_inputs_set_analysis keeps_inputs_set_review
  : frame.

Ltac frame_steps :=
  repeat first
    [ apply keeps_inputs_bind; [auto with frame | intros ?]
    | apply keeps_inputs_try; [| intros ?]
    | solve [auto with frame] ].

Lemma keeps_inputs_enrich self prompt key update :
  (forall v, keeps_inputs (update v)) ->
  keeps_inputs (enrich self prompt key update).
Proof. intros Hu. unfold enrich. frame_steps. Qed.

(** C9. Each of the six stage functions leaves [code] and [filename] of
    the state as it found them, whether it returns or raises; the state a
    stage returns is that state. *)
Theorem stages_keep_code_and_filename (n : stage_name) (self : CodeReviewAgents)
        (st : CodeReviewState) :
  code (fst (agent n self st)) = code st
  /\ filename (fst (agent n self st)) = filename st.
Proof.
  revert st. change (keeps_inputs (agent n self)).
  destruct n; simpl;
    [ unfold _analyzer_agent
    | unfold _quality_checker_agent
    | unfold _security_reviewer_agent
    | unfold _performance_optimizer_agent
    | unfold _documentation_generator_agent
    | unfold _final_reviewer_agent ];
    frame_steps;
    try (apply keeps_inputs_enrich; intros ?; frame_steps).
Qed.

(** The error text of a failed call is no JSON. *)
Lemma json_loads_error_text lib msg :
  json_loads lib (llm_error_prefix +:+ msg) = Raise (Exn ValueError "Expecting value").
Proof. reflexivity. Qed.

Lemma failed_call_unusable lib key llm system_prompt prompt e :
  llm_invoke llm system_prompt prompt = Raise e ->
  unusable_reply lib key (generate_response llm system_prompt prompt).
Proof.
  intros H. unfold generate_response. rewrite H.
  eapply NotJson, json_loads_error_text.
Qed.

(** The [try] block of a stage on a reply its decoding rejects: nothing is
    written, the handler logs, the block ends normally. *)
Lemma enrich_unusable self prompt key update st :
  unusable_reply (lib self) key (generate_response (llm_manager self) "" prompt) ->
  enrich self prompt key update st = (st, Ok tt).
Proof.
  intros H. unfold enrich, try_except, mbind, action_bind, call; simpl.
  destruct H as [e He | v Hv Hnd | d v Hd Hk Hv].
  - rewrite He. reflexivity.
  - rewrite Hv. destruct v; try reflexivity. exfalso. eapply Hnd. reflexivity.
  - rewrite Hd. simpl. unfold dict_get, extend_issues. rewrite Hk.
    destruct Hv as [-> | [[b ->] | [z ->]]]; reflexivity.
Qed.

Lemma enrichment_agent_enrich n self st :
  exists update,
    enrichment_agent n self st
    = enrich self (enrichment_prompt n self st) (enrichment_key n) update st.
Proof. destruct n; eexists; reflexivity. Qed.




(** A reply that decodes to an object with a list under the stage's key:
    the items are appended behind the issues already found. *)
Lemma enrich_appends self prompt key step st d items :
  json_loads (lib self) (generate_response (llm_manager self) "" prompt)
    = Ok (VDict d) ->
  py_iter (dict_get key (VList []) d) = Ok items ->
  let st' := fst (enrich self prompt key (fun _ => set_step step) st) in
  issues st' = issues st ++ items /\ current_step st' = step.
Proof.
  intros Hd Hi. unfold enrich, try_except, mbind, action_bind, call; simpl.
  rewrite Hd; simpl. unfold extend_issues. rewrite Hi. simpl. auto.
Qed.

(** ** Structural analyzer *)

(** C6. [analyze_code_structure] raises exactly when the language is
    python and [ast.parse] ends with an exception other than
    [SyntaxError], and then it raises that exception; for every other
    text and language it returns a facts dictionary.  For a python text
    the parser rejects with a [SyntaxError], the facts hold empty function
    and class lists, complexity 0 and one non-empty diagnostic under
    [issues]. *)
Theorem analyze_code_structure_raises_iff (lib : StdLib) (code language : string) :
  (forall e, analyze_code_structure lib code language = Raise e
             <-> parser_failure_escapes lib code language e)
  /\ ((forall e, ~ parser_failure_escapes lib code language e) ->
      exists facts, analyze_code_structure lib code language = Ok facts)
  /\ (language = "python" ->
      forall detail, ast_parse lib code = Rejected detail ->
        exists facts,
          analyze_code_structure lib code language = Ok facts
          /\ dict_lookup "functions" facts = Some (VList [])
          /\ dict_lookup "classes" facts = Some (VList [])
          /\ dict_lookup "complexity_score" facts = Some (VInt 0)
          /\ exists diagnostic,
               dict_lookup "issues" facts = Some (VList [VStr diagnostic])
               /\ 0 < len diagnostic).
Proof.
  unfold parser_failure_escapes, analyze_code_structure.
  destruct (String.eqb_spec language "python") as [-> | Hne].
  - unfold _analyze_python_code.
    destruct (ast_parse lib code) as [walk|detail|e0] eqn:Hp; simpl.
    + split; [|split].
      * intros e. split; [discriminate | intros [_ [H _]]; discriminate].
      * eauto.
      * intros _ d Hd. discriminate.
    + split; [|split].
      * intros e. split; [discriminate | intros [_ [H _]]; discriminate].
      * eauto.
      * intros _ d Hd. injection Hd as <-.
        eexists; split; [reflexivity|].
        repeat split. eexists; split; [reflexivity|]. simpl. lia.
    + destruct (exn_cls e0) eqn:Hcls; simpl;
        (split; [|split; [|intros _ d Hd; discriminate]]);
        try (intros e; split;
             [ intros H; injection H as <-;
               split; [reflexivity|]; split; [reflexivity|];
               rewrite Hcls; discriminate
             | intros [_ [H _]]; injection H as <-; reflexivity ]);
        try (intros Hno; exfalso; apply (Hno e0);
             split; [reflexivity|]; split; [reflexivity|];
             rewrite Hcls; discriminate).
      * intros e. split; [discriminate|].
        intros [_ [H Hc]]. injection H as <-. contradiction.
      * eauto.
  - split; [|split].
    + intros e. split; [discriminate | intros [H _]; contradiction].
    + eauto.
    + intros ->. contradiction.
Qed.

Lemma analyze_code_structure_raises_iff_witness :
  exists facts,
    analyze_code_structure Sample.stdlib "def f(:" "python" = Ok facts
    /\ dict_lookup "functions" facts = Some (VList [])
    /\ dict_lookup "classes" facts = Some (VList [])
    /\ dict_lookup "complexity_score" facts = Some (VInt 0)
    /\ exists diagnostic,
         dict_lookup "issues" facts = Some (VList [VStr diagnostic])
         /\ 0 < len diagnostic.
Proof.
  apply (proj2 (proj2 (analyze_code_structure_raises_iff
                         Sample.stdlib "def f(:" "python"))
               eq_refl "invalid syntax (<unknown>, line 1)").
  reflexivity.
Defined.

(** C6, as stated, does not hold.  On a python text that holds a NUL
    character [ast.parse] ends with a [ValueError], which
    [except SyntaxError] does not catch, and the analyzer raises it. *)
Lemma analyze_code_structure_raises_on_nul :
  ast_parse Sample.stdlib ("x = 1" +:+ Sample.nul)
  = Crashed (Exn ValueError "source code string cannot contain null bytes")
  /\ analyze_code_structure Sample.stdlib ("x = 1" +:+ Sample.nul) "python"
     = Raise (Exn ValueError "source code string cannot contain null bytes").
Proof. split; vm_compute; reflexivity. Qed.

(** ** Rule-based checker *)

Lemma Forall_flat_map_each {A B} (P : B -> Prop) (f : A -> list B) (l : list A) :
  (forall a, Forall P (f a)) -> Forall P (flat_map f l).
Proof.
  intros H. induction l as [|a l IH]; simpl; [constructor|].
  apply Forall_app. split; [apply H | exact IH].
Qed.

Lemma issue_warning type n message :
  warning_or_info (issue type "Warning" n message).
Proof. left. reflexivity. Qed.

Lemma issue_info type n message : warning_or_info (issue type "Info" n message).
Proof. right. reflexivity. Qed.

Ltac severity_cases :=
  simpl;
  repeat first
    [ exact I
    | apply List.Forall_nil
    | apply List.Forall_cons; [first [apply issue_warning | apply issue_info]|]
    | apply Forall_app; split ].

Lemma common_line_issues_severity i line :
  Forall warning_or_info (common_line_issues i line).
Proof.
  unfold common_line_issues.
  destruct (120 <? len line)%nat, (search_quoted_digits line); severity_cases.
Qed.

Lemma python_line_issues_severity lines i line :
  Forall warning_or_info (python_line_issues lines i line).
Proof.
  unfold python_line_issues. apply Forall_app. split.
  - destruct (startswith "from " (strip line) && (0 <? i)%nat); [|constructor].
    destruct (lines !! (i - 1)) as [prev|]; [|constructor].
    destruct (startswith "import " (strip prev)
              && negb (startswith "from " (strip prev))); severity_cases.
  - destruct (contains "except:" (strip line)); severity_cases.
Qed.

Lemma js_line_issues_severity i line : Forall warning_or_info (js_line_issues i line).
Proof.
  unfold js_line_issues. apply Forall_app. split.
  - destruct (search_word "var" (strip line)); severity_cases.
  - destruct (contains "==" (strip line) && negb (contains "===" (strip line)));
      severity_cases.
Qed.

(** C10. Every issue the rule-based checker returns, for any text and
    language, has severity Warning or Info; none is Critical. *)
Theorem check_code_quality_issues_severity (code language : string) :
  Forall warning_or_info (check_code_quality_issues code language)
  /\ Forall (fun x => severity_of x <> Some (VStr "Critical"))
            (check_code_quality_issues code language).
Proof.
  assert (Forall warning_or_info (check_code_quality_issues code language)) as H.
  { unfold check_code_quality_issues.
    assert (Forall warning_or_info
              (flat_map (fun il => common_line_issues (fst il) (snd il))
                        (enumerate (split_lines code)))) as Hc.
    { apply Forall_flat_map_each. intros a. apply common_line_issues_severity. }
    destruct (String.eqb language "python").
    - apply Forall_app. split; [exact Hc|].
      apply Forall_flat_map_each. intros a. apply python_line_issues_severity.
    - destruct (String.eqb language "javascript" || String.eqb language "typescript").
      + apply Forall_app. split; [exact Hc|].
        apply Forall_flat_map_each. intros a. apply js_line_issues_severity.
      + exact Hc. }
  split; [exact H|].
  eapply Forall_impl; [exact H|].
  intros x [Hx | Hx]; rewrite Hx; discriminate.
Qed.

Lemma enumerate_from_lookup {A} (l : list A) : forall k i x,
  l !! i = Some x -> In (k + i, x) (enumerate_from k l).
Proof.
  induction l as [|y l IH]; intros k i x H; [discriminate|].
  destruct i as [|i]; simpl in *.
  - injection H as ->. left. f_equal. lia.
  - right. replace (k + S i) with (S k + i) by lia. apply IH, H.
Qed.

(** C8, as stated, does not hold. The line [if (a == b && c === d) {}] uses the
    loose equality operator, yet the checker reports nothing for it: the
    test requires that no [===] occurs anywhere on the line. *)
Lemma loose_equality_beside_strict_unreported : ~ reports_every_loose_equality.
Proof.
  intros H.
  destruct (H "if (a == b && c === d) {}" "javascript" 0
              "if (a == b && c === d) {}" (or_introl eq_refl) eq_refl eq_refl)
    as [x [Hin _]].
  vm_compute in Hin. exact Hin.
Qed.

(** C8, as the code has it. For a javascript or typescript text the checker emits a
    Warning, with the line number, for every line that contains [==] and
    contains no [===]; the text [var x = 1; if (x == 1) {}] under the file
    name [a.js] yields exactly one Warning for [var] and one Warning for
    the loose equality. *)
Theorem loose_equality_reported_without_strict :
  (forall (code language : string) (i : nat) (line : string),
      language = "javascript" \/ language = "typescript" ->
      split_lines code !! i = Some line ->
      contains "==" (strip line) = true ->
      contains "===" (strip line) = false ->
      In (issue "Best Practices" "Warning" (i + 1) loose_equality_message)
         (check_code_quality_issues code language))
  /\ detect_language "var x = 1; if (x == 1) {}" "a.js" = "javascript"
  /\ check_code_quality_issues "var x = 1; if (x == 1) {}" "javascript"
     = [ issue "Best Practices" "Warning" 1 var_message;
         issue "Best Practices" "Warning" 1 loose_equality_message ].
Proof.
  split; [|split; reflexivity].
  intros code language i line Hlang Hline Heq Hstrict.
  assert (In (issue "Best Practices" "Warning" (i + 1) loose_equality_message)
             (_check_js_issues code (split_lines code))) as Hjs.
  { unfold _check_js_issues. apply in_flat_map.
    exists (i, line). split.
    - apply (enumerate_from_lookup _ 0 i line Hline).
    - unfold js_line_issues; simpl. apply in_or_app. right.
      rewrite Heq, Hstrict. simpl. auto. }
  unfold check_code_quality_issues.
  destruct Hlang as [-> | ->]; simpl; apply in_or_app; right; exact Hjs.
Qed.

Lemma loose_equality_reported_without_strict_witness :
  In (issue "Best Practices" "Warning" 2 loose_equality_message)
     (check_code_quality_issues "let a = 1;
if (a == 2) { a = 3; }" "typescript").
Proof.
  apply (proj1 loose_equality_reported_without_strict
           "let a = 1;
if (a == 2) { a = 3; }" "typescript" 1 "if (a == 2) { a = 3; }").
  - right. reflexivity.
  - reflexivity.
  - reflexivity.
  - reflexivity.
Defined.

(** * Further properties *)

(** ** Text primitives *)

Lemma append_cons (c : ascii) (a b : string) : String c a +:+ b = String c (a +:+ b).
Proof. reflexivity. Qed.

Lemma append_nil_l (b : string) : EmptyString +:+ b = b.
Proof. reflexivity. Qed.

Lemma append_assoc_str (a b c : string) : (a +:+ b) +:+ c = a +:+ (b +:+ c).
Proof.
  induction a as [|x a IH]; [reflexivity|].
  rewrite !append_cons, IH. reflexivity.
Qed.

Lemma append_empty_r (a : string) : a +:+ EmptyString = a.
Proof.
  induction a as [|x a IH]; [reflexivity|]. rewrite append_cons, IH. reflexivity.
Qed.

Lemma rev_onto_append (s acc : string) : rev_onto s acc = reverse s +:+ acc.
Proof.
  unfold reverse. revert acc. induction s as [|c s IH]; intros acc; simpl.
  - reflexivity.
  - rewrite (IH (String c acc)), (IH (String c EmptyString)), append_assoc_str.
    reflexivity.
Qed.

Lemma reverse_append (a b : string) : reverse (a +:+ b) = reverse b +:+ reverse a.
Proof.
  induction a as [|c a IH].
  - rewrite append_nil_l, append_empty_r. reflexivity.
  - rewrite append_cons. unfold reverse at 1 3. simpl.
    rewrite !rev_onto_append, IH, append_assoc_str. reflexivity.
Qed.

Lemma ascii_eqb_refl (c : ascii) : ascii_eqb c c = true.
Proof. unfold ascii_eqb. apply N.eqb_refl. Qed.

Lemma startswith_append (p x : string) : startswith p (p +:+ x) = true.
Proof.
  induction p as [|c p IH]; [reflexivity|].
  rewrite append_cons. simpl. rewrite ascii_eqb_refl, IH. reflexivity.
Qed.

Lemma endswith_append (stem ext : string) : endswith ext (stem +:+ ext) = true.
Proof. unfold endswith. rewrite reverse_append. apply startswith_append. Qed.

Lemma len_append (a b : string) : len (a +:+ b) = len a + len b.
Proof.
  induction a as [|c a IH]; [reflexivity|].
  rewrite append_cons. simpl. rewrite IH. reflexivity.
Qed.

(** ** Language detector, further *)

Ltac by_extension :=
  unfold detect_language;
  rewrite len_append; simpl len;
  match goal with
  | |- context [(?n + ?k =? 0)%nat] =>
      replace (n + k =? 0)%nat with false
        by (symmetry; apply Nat.eqb_neq; lia)
  end;
  unfold language_patterns; cbn [match_extension existsb extension];
  unfold endswith; rewrite !reverse_append; reflexivity.

(** X1. A file name that ends in a table extension decides the language,
    whatever the text holds. *)
Theorem detect_language_by_extension (code stem : string) :
  detect_language code (stem +:+ ".py") = "python"
  /\ detect_language code (stem +:+ ".js") = "javascript"
  /\ detect_language code (stem +:+ ".jsx") = "javascript"
  /\ detect_language code (stem +:+ ".ts") = "typescript"
  /\ detect_language code (stem +:+ ".tsx") = "typescript"
  /\ detect_language code (stem +:+ ".java") = "java".
Proof. repeat split; by_extension. Qed.

(** [max] walks the entries once: what it returns splits the entries into
    strictly smaller ones before it and not larger ones after it. *)
Lemma max_from_split rest : forall pre best mid,
  Forall (fun p => snd p < snd best) pre ->
  Forall (fun p => snd p <= snd best) mid ->
  exists pre' n post,
    pre ++ best :: mid ++ rest = pre' ++ (max_from best rest, n) :: post
    /\ Forall (fun p => snd p < n) pre'
    /\ Forall (fun p => snd p <= n) post.
Proof.
  induction rest as [|[l m] rest IH]; intros pre [bl bn] mid Hpre Hmid; simpl in *.
  - exists pre, bn, mid. rewrite app_nil_r. auto.
  - destruct (Nat.ltb_spec bn m) as [Hlt | Hge].
    + destruct (IH (pre ++ (bl, bn) :: mid) (l, m) []) as [pre' [n [post [He H]]]].
      * apply Forall_app. split.
        -- eapply Forall_impl; [exact Hpre|]. simpl. intros; lia.
        -- constructor; [simpl; lia|].
           eapply Forall_impl; [exact Hmid|]. simpl. intros; lia.
      * constructor.
      * exists pre', n, post. split; [|exact H].
        rewrite <- He. rewrite <- !app_assoc. simpl. reflexivity.
    + destruct (IH pre (bl, bn) (mid ++ [(l, m)])) as [pre' [n [post [He H]]]].
      * exact Hpre.
      * apply Forall_app. split; [exact Hmid|]. constructor; [simpl; lia | constructor].
      * exists pre', n, post. split; [|exact H].
        rewrite <- He. rewrite <- !app_assoc. simpl. reflexivity.
Qed.

(** X2. Without a matching extension the detector returns the first language,
    in table order, whose keyword score is the highest: every language
    before it scores strictly less, every language after it scores at most
    as much. *)
Theorem detect_language_first_maximum (code filename : string) :
  len filename = 0 \/ match_extension filename language_patterns = None ->
  exists before n after,
    language_scores code language_patterns
      = before ++ (detect_language code filename, n) :: after
    /\ Forall (fun p => snd p < n) before
    /\ Forall (fun p => snd p <= n) after.
Proof.
  intros Hext. unfold detect_language.
  assert ((if (len filename =? 0)%nat then None
           else match_extension filename language_patterns) = None) as ->.
  { destruct Hext as [-> | ->]; [reflexivity|].
    destruct (len filename =? 0)%nat; reflexivity. }
  unfold best_language.
  destruct (language_scores code language_patterns) as [|b r] eqn:Hs;
    [discriminate|].
  destruct (max_from_split r [] b []) as [pre [n [post [He H]]]];
    [constructor | constructor |].
  exists pre, n, post. split; [exact He | exact H].
Qed.

Lemma detect_language_first_maximum_witness :
  exists before n after,
    language_scores "function f() { let x; }" language_patterns
      = before ++ (detect_language "function f() { let x; }" "notes.txt", n) :: after
    /\ Forall (fun p => snd p < n) before
    /\ Forall (fun p => snd p <= n) after.
Proof.
  apply (detect_language_first_maximum "function f() { let x; }" "notes.txt").
  right. reflexivity.
Defined.

(** ** Lines *)

Lemma split_lines_not_nil (s : string) : split_lines s <> [].
Proof.
  induction s as [|c s IH]; simpl; [discriminate|].
  destruct (is_newline c); [discriminate|].
  destruct (split_lines s); [contradiction | discriminate].
Qed.

(** [code.split('\n')] has one segment more than the text has line feeds;
    the empty text has one line. *)
Lemma split_lines_length (s : string) : length (split_lines s) = S (count_newlines s).
Proof.
  induction s as [|c s IH]; simpl; [reflexivity|].
  destruct (is_newline c); simpl; [rewrite IH; reflexivity|].
  pose proof (split_lines_not_nil s) as Hn.
  destruct (split_lines s) as [|h t]; [contradiction|]. simpl in *. exact IH.
Qed.

Lemma is_newline_eq (c : ascii) : is_newline c = true -> c = ascii_of_N 10.
Proof.
  unfold is_newline, code_point. intros H. apply N.eqb_eq in H.
  rewrite <- (ascii_N_embedding c), H. reflexivity.
Qed.

(** X3. Joining the lines of a text with line feeds gives the text back. *)
Theorem join_split_lines (s : string) : join_lines (split_lines s) = s.
Proof.
  induction s as [|c s IH]; [reflexivity|]. simpl.
  pose proof (split_lines_not_nil s) as Hn.
  destruct (is_newline c) eqn:Hc.
  - apply is_newline_eq in Hc. subst c.
    destruct (split_lines s) as [|h t] eqn:Hs; [contradiction|].
    change (join_lines (EmptyString :: h :: t))
      with (EmptyString +:+ String (ascii_of_N 10) (join_lines (h :: t))).
    rewrite append_nil_l, IH. reflexivity.
  - destruct (split_lines s) as [|h t] eqn:Hs; [contradiction|].
    destruct t as [|h' t].
    + simpl in *. rewrite IH. reflexivity.
    + change (join_lines (String c h :: h' :: t))
        with (String c h +:+ String (ascii_of_N 10) (join_lines (h' :: t))).
      change (join_lines (h :: h' :: t))
        with (h +:+ String (ascii_of_N 10) (join_lines (h' :: t))) in IH.
      rewrite append_cons, IH. reflexivity.
Qed.

(** ** Structural analyzer, further *)

Lemma visit_imports names : forall fs cs ims n ds,
  fold_left (fun a alias => append_to "imports" (VStr alias) a) names
            (analysis_of fs cs ims n ds)
  = analysis_of fs cs (ims ++ map VStr names) n ds.
Proof.
  induction names as [|x names IH]; intros fs cs ims n ds; simpl.
  - rewrite app_nil_r. reflexivity.
  - change (append_to "imports" (VStr x) (analysis_of fs cs ims n ds))
      with (analysis_of fs cs (ims ++ [VStr x]) n ds).
    rewrite IH, <- app_assoc. reflexivity.
Qed.

Lemma visit_analysis fs cs ims n ds node :
  visit (analysis_of fs cs ims n ds) node
  = analysis_of (fs ++ function_entries node) (cs ++ class_entries node)
                (ims ++ import_entries node)
                (n + (if is_branch node then 1 else 0)) ds.
Proof.
  destruct node; simpl visit; simpl function_entries; simpl class_entries;
    simpl import_entries; simpl is_branch;
    rewrite ?visit_imports, ?app_nil_r, ?Z.add_0_r; reflexivity.
Qed.

Lemma walk_analysis walk : forall fs cs ims n ds,
  fold_left visit walk (analysis_of fs cs ims n ds)
  = analysis_of (fs ++ flat_map function_entries walk)
                (cs ++ flat_map class_entries walk)
                (ims ++ flat_map import_entries walk)
                (n + Z.of_nat (length (List.filter is_branch walk))) ds.
Proof.
  induction walk as [|node walk IH]; intros fs cs ims n ds; simpl.
  - rewrite !app_nil_r, Z.add_0_r. reflexivity.
  - rewrite visit_analysis, IH, <- !app_assoc.
    replace (n + (if is_branch node then 1 else 0)
             + Z.of_nat (length (List.filter is_branch walk)))%Z
      with (n + Z.of_nat (length (if is_branch node
                                  then node :: List.filter is_branch walk
                                  else List.filter is_branch walk)))%Z;
      [reflexivity|].
    destruct (is_branch node); simpl length; lia.
Qed.

(** X4. The python path on a text the parser accepts: functions, classes and
    imports are the entries of the definition and import nodes in walk
    order, the complexity is the number of [if], [for], [while] and [try]
    nodes, and no diagnostic is recorded. *)
Theorem analyze_python_accepted (lib : StdLib) (code : string) (walk : list ast_node) :
  ast_parse lib code = Parsed walk ->
  analyze_code_structure lib code "python"
  = Ok (facts_of (length (split_lines code))
                 (flat_map function_entries walk)
                 (flat_map class_entries walk)
                 (flat_map import_entries walk)
                 (Z.of_nat (length (List.filter is_branch walk))) []).
Proof.
  intros Hp. unfold analyze_code_structure, _analyze_python_code.
  rewrite Hp. simpl.
  change empty_analysis with (analysis_of [] [] [] 0 []).
  rewrite walk_analysis. reflexivity.
Qed.

Lemma analyze_python_accepted_witness :
  analyze_code_structure Demo.stdlib Demo.source "python"
  = Ok [ ("lines_of_code", VInt 3);
         ("functions",
          VList [VDict [("name", VStr "f"); ("line", VInt 1); ("args", VInt 1);
                        ("docstring", VNone)]]);
         ("classes", VList []); ("imports", VList []);
         ("complexity_score", VInt 0); ("issues", VList []) ].
Proof.
  exact (analyze_python_accepted Demo.stdlib Demo.source
           [OtherNode; FunctionDef "f" 1 1 None; OtherNode; OtherNode;
            OtherNode; OtherNode; OtherNode; OtherNode; OtherNode] eq_refl).
Defined.

Lemma generic_functions_fold lib pattern l : forall fs cs ims n ds,
  fold_left
    (fun a (il : nat * string) =>
       match first_name lib pattern (snd il) with
       | Some name =>
           append_to "functions"
             (VDict [("name", VStr name);
                     ("line", VInt (Z.of_nat (fst il + 1)))]) a
       | None => a
       end)
    l (analysis_of fs cs ims n ds)
  = analysis_of
      (fs ++ flat_map
               (fun il =>
                  match first_name lib pattern (snd il) with
                  | Some name =>
                      [VDict [("name", VStr name);
                              ("line", VInt (Z.of_nat (fst il + 1)))]]
                  | None => []
                  end) l)
      cs ims n ds.
Proof.
  induction l as [|il l IH]; intros fs cs ims n ds; simpl.
  - rewrite app_nil_r. reflexivity.
  - destruct (first_name lib pattern (snd il)) as [name|].
    + change (append_to "functions"
                (VDict [("name", VStr name); ("line", VInt (Z.of_nat (fst il + 1)))])
                (analysis_of fs cs ims n ds))
        with (analysis_of
                (fs ++ [VDict [("name", VStr name);
                               ("line", VInt (Z.of_nat (fst il + 1)))]])
                cs ims n ds).
      rewrite IH, <- app_assoc. reflexivity.
    + rewrite IH. reflexivity.
Qed.

Lemma keyword_fold line keywords : forall fs cs ims n ds,
  fold_left
    (fun a' keyword =>
       add_to "complexity_score" (Z.of_nat (findall_word keyword line)) a')
    keywords (analysis_of fs cs ims n ds)
  = analysis_of fs cs ims
      (n + Z.of_nat (list_sum (map (fun keyword => findall_word keyword line)
                                   keywords))) ds.
Proof.
  induction keywords as [|k keywords IH]; intros fs cs ims n ds; simpl.
  - rewrite Z.add_0_r. reflexivity.
  - change (add_to "complexity_score" (Z.of_nat (findall_word k line))
                   (analysis_of fs cs ims n ds))
      with (analysis_of fs cs ims (n + Z.of_nat (findall_word k line)) ds).
    rewrite IH, Nat2Z.inj_add, Z.add_assoc. reflexivity.
Qed.

Lemma text_complexity_cons (line : string) (lines : list string) :
  text_complexity (line :: lines) = line_complexity line + text_complexity lines.
Proof. reflexivity. Qed.

Lemma complexity_fold lines : forall fs cs ims n ds,
  fold_left
    (fun a line =>
       fold_left
         (fun a' keyword =>
            add_to "complexity_score" (Z.of_nat (findall_word keyword line)) a')
         complexity_keywords a)
    lines (analysis_of fs cs ims n ds)
  = analysis_of fs cs ims (n + Z.of_nat (text_complexity lines)) ds.
Proof.
  induction lines as [|line lines IH]; intros fs cs ims n ds.
  - simpl. rewrite Z.add_0_r. reflexivity.
  - cbn [fold_left]. rewrite keyword_fold, IH.
    fold (line_complexity line).
    rewrite text_complexity_cons, Nat2Z.inj_add, Z.add_assoc. reflexivity.
Qed.

Lemma analyze_generic_code_facts lib code language :
  _analyze_generic_code lib code language
  = analysis_of (generic_function_entries lib language (split_lines code)) [] []
                (Z.of_nat (text_complexity (split_lines code))) [].
Proof.
  unfold _analyze_generic_code, generic_function_entries.
  change empty_analysis with (analysis_of [] [] [] 0 []).
  destruct (function_patterns language) as [pattern|].
  - rewrite generic_functions_fold, complexity_fold. reflexivity.
  - rewrite complexity_fold. reflexivity.
Qed.

Lemma analyze_generic_facts lib code language :
  language <> "python" ->
  analyze_code_structure lib code language
  = Ok (facts_of (length (split_lines code))
                 (generic_function_entries lib language (split_lines code)) [] []
                 (Z.of_nat (text_complexity (split_lines code))) []).
Proof.
  intros Hne. unfold analyze_code_structure.
  destruct (String.eqb_spec language "python") as [->|_]; [contradiction|].
  rewrite analyze_generic_code_facts. reflexivity.
Qed.

(** X5. Every language but python takes the line-by-line path: no class, no
    import and no diagnostic is ever recorded, the complexity is the number
    of whole-word control-flow keywords of the text, and functions are
    searched for javascript, typescript and java only. *)
Theorem analyze_other_language (lib : StdLib) (code language : string) :
  language <> "python" ->
  analyze_code_structure lib code language
  = Ok (facts_of (length (split_lines code))
                 (generic_function_entries lib language (split_lines code)) [] []
                 (Z.of_nat (text_complexity (split_lines code))) [])
  /\ (language <> "javascript" -> language <> "typescript" -> language <> "java" ->
      generic_function_entries lib language (split_lines code) = []).
Proof.
  intros Hne. split; [apply analyze_generic_facts, Hne|].
  intros H1 H2 H3. unfold generic_function_entries, function_patterns.
    destruct (String.eqb_spec language "javascript"); [contradiction|].
    destruct (String.eqb_spec language "typescript"); [contradiction|].
    destruct (String.eqb_spec language "java"); [contradiction|].
    reflexivity.
Qed.

Lemma analyze_other_language_witness :
  analyze_code_structure Sample.stdlib "if (a) { for (;;) {} }
while (b) {}" "go"
  = Ok [ ("lines_of_code", VInt 2); ("functions", VList []);
         ("classes", VList []); ("imports", VList []);
         ("complexity_score", VInt 3); ("issues", VList []) ].
Proof.
  refine (proj1 (analyze_other_language Sample.stdlib "if (a) { for (;;) {} }
while (b) {}" "go" _)).
  discriminate.
Defined.

(** X6. For every text and language on which no failure of the parser
    escapes, the facts have the same six entries in the same order: a line
    count one above the number of line feeds, three lists, a complexity
    that is never negative, and the diagnostics. *)
Theorem analyze_code_structure_shape (lib : StdLib) (code language : string) :
  (forall e, ~ parser_failure_escapes lib code language e) ->
  exists functions classes imports complexity diagnostics,
    analyze_code_structure lib code language
    = Ok (facts_of (S (count_newlines code)) functions classes imports
                   complexity diagnostics)
    /\ (0 <= complexity)%Z.
Proof.
  intros Hno. rewrite <- split_lines_length.
  destruct (String.eqb_spec language "python") as [-> | Hne].
  - destruct (ast_parse lib code) as [walk|detail|e0] eqn:Hp.
    + unfold analyze_code_structure, _analyze_python_code. rewrite Hp. simpl.
      change empty_analysis with (analysis_of [] [] [] 0 []).
      rewrite walk_analysis.
      do 5 eexists. split; [reflexivity | lia].
    + unfold analyze_code_structure, _analyze_python_code. rewrite Hp. simpl.
      exists [], [], [], 0%Z. eexists. split; [reflexivity | lia].
    + unfold analyze_code_structure, _analyze_python_code. rewrite Hp. simpl.
      destruct (exn_cls e0) eqn:Hcls;
        try (exfalso; apply (Hno e0);
             split; [reflexivity|]; split; [exact Hp|];
             rewrite Hcls; discriminate).
      exists [], [], [], 0%Z. eexists. split; [reflexivity | lia].
  - rewrite (analyze_generic_facts lib code language Hne).
    do 5 eexists. split; [reflexivity | lia].
Qed.

Lemma analyze_code_structure_shape_witness :
  exists functions classes imports complexity diagnostics,
    analyze_code_structure Sample.stdlib "def f(:" "python"
    = Ok (facts_of (S (count_newlines "def f(:")) functions classes imports
                   complexity diagnostics)
    /\ (0 <= complexity)%Z.
Proof.
  apply (analyze_code_structure_shape Sample.stdlib "def f(:" "python").
  intros e [_ [H _]]. vm_compute in H. discriminate H.
Defined.

Lemma split_lines_join (a b : string) :
  split_lines (a +:+ newline +:+ b) = split_lines a ++ split_lines b.
Proof.
  induction a as [|c a IH].
  - reflexivity.
  - rewrite append_cons. simpl.
    pose proof (split_lines_not_nil a) as Hn.
    destruct (is_newline c); rewrite IH; [reflexivity|].
    destruct (split_lines a) as [|h t]; [contradiction | reflexivity].
Qed.

Lemma text_complexity_app (l1 l2 : list string) :
  text_complexity (l1 ++ l2) = text_complexity l1 + text_complexity l2.
Proof.
  unfold text_complexity. rewrite map_app, list_sum_app. reflexivity.
Qed.

(** X7. The line-by-line path works line by line: for every language but
    python, the line count and the complexity of two texts joined by a line
    feed are the sums of theirs. *)
Theorem analyze_joined_texts (lib : StdLib) (a b language : string) :
  language <> "python" ->
  exists la lb ca cb : nat,
    fact "lines_of_code" lib a language = Ok (Some (VInt (Z.of_nat la)))
    /\ fact "lines_of_code" lib b language = Ok (Some (VInt (Z.of_nat lb)))
    /\ fact "lines_of_code" lib (a +:+ newline +:+ b) language
       = Ok (Some (VInt (Z.of_nat (la + lb))))
    /\ fact "complexity_score" lib a language = Ok (Some (VInt (Z.of_nat ca)))
    /\ fact "complexity_score" lib b language = Ok (Some (VInt (Z.of_nat cb)))
    /\ fact "complexity_score" lib (a +:+ newline +:+ b) language
       = Ok (Some (VInt (Z.of_nat (ca + cb)))).
Proof.
  intros Hne. unfold fact.
  rewrite !(analyze_generic_facts lib _ language Hne).
  rewrite split_lines_join, length_app, text_complexity_app.
  exists (length (split_lines a)), (length (split_lines b)),
         (text_complexity (split_lines a)), (text_complexity (split_lines b)).
  repeat split; reflexivity.
Qed.

Lemma analyze_joined_texts_witness :
  exists la lb ca cb : nat,
    fact "lines_of_code" Sample.stdlib "if (a) {}" "java"
      = Ok (Some (VInt (Z.of_nat la)))
    /\ fact "lines_of_code" Sample.stdlib "while (b) { try {} catch (e) {} }" "java"
       = Ok (Some (VInt (Z.of_nat lb)))
    /\ fact "lines_of_code" Sample.stdlib
            ("if (a) {}" +:+ newline +:+ "while (b) { try {} catch (e) {} }") "java"
       = Ok (Some (VInt (Z.of_nat (la + lb))))
    /\ fact "complexity_score" Sample.stdlib "if (a) {}" "java"
       = Ok (Some (VInt (Z.of_nat ca)))
    /\ fact "complexity_score" Sample.stdlib "while (b) { try {} catch (e) {} }" "java"
       = Ok (Some (VInt (Z.of_nat cb)))
    /\ fact "complexity_score" Sample.stdlib
            ("if (a) {}" +:+ newline +:+ "while (b) { try {} catch (e) {} }") "java"
       = Ok (Some (VInt (Z.of_nat (ca + cb)))).
Proof.
  apply (analyze_joined_texts Sample.stdlib). discriminate.
Defined.

(** ** Rule-based checker, further *)

Lemma enumerate_from_In {A} (l : list A) : forall k i x,
  In (i, x) (enumerate_from k l) -> k <= i /\ l !! (i - k) = Some x.
Proof.
  induction l as [|y l IH]; intros k i x H; simpl in H; [contradiction|].
  destruct H as [H|H].
  - injection H as -> ->. split; [lia|]. rewrite Nat.sub_diag. reflexivity.
  - destruct (IH _ _ _ H) as [Hle Hl]. split; [lia|].
    replace (i - k) with (S (i - S k)) by lia. exact Hl.
Qed.

Lemma enumerate_In {A} (l : list A) i x : In (i, x) (enumerate l) <-> l !! i = Some x.
Proof.
  unfold enumerate. split.
  - intros H. apply enumerate_from_In in H as [_ H].
    rewrite Nat.sub_0_r in H. exact H.
  - intros H. apply (enumerate_from_lookup l 0 i x H).
Qed.

Lemma in_flat_map_lines (f : nat -> string -> list value) (lines : list string) x :
  In x (flat_map (fun il => f (fst il) (snd il)) (enumerate lines))
  <-> exists i line, lines !! i = Some line /\ In x (f i line).
Proof.
  rewrite in_flat_map. split.
  - intros [[i line] [Hin Hx]]. exists i, line.
    split; [apply enumerate_In, Hin | exact Hx].
  - intros [i [line [Hl Hx]]]. exists (i, line).
    split; [apply enumerate_In, Hl | exact Hx].
Qed.

Lemma startswith_import_not_from (s : string) :
  startswith "import " s = true -> startswith "from " s = false.
Proof.
  destruct s as [|c s]; [discriminate|]. simpl.
  destruct (ascii_eqb "i" c) eqn:Hi; [|discriminate]. intros _.
  unfold ascii_eqb in *. apply N.eqb_eq in Hi.
  destruct (code_point "f" =? code_point c)%N eqn:Hf; [|reflexivity].
  apply N.eqb_eq in Hf. rewrite <- Hf in Hi. discriminate.
Qed.

Lemma common_line_issues_In i line x :
  In x (common_line_issues i line)
  <-> (120 < len line
       /\ x = issue "Code Quality" "Warning" (i + 1) (long_line_message (len line)))
      \/ (search_quoted_digits line = true
          /\ x = issue "Best Practices" "Info" (i + 1) hardcoded_message).
Proof.
  unfold common_line_issues.
  destruct (Nat.ltb_spec 120 (len line)) as [Hl|Hl];
    destruct (search_quoted_digits line); simpl; split;
    intros H; repeat destruct H as [H|H]; try contradiction;
    try (destruct H as [H H0]); try discriminate; try lia; subst; auto.
Qed.

Lemma python_line_issues_In lines i line x :
  In x (python_line_issues lines i line)
  <-> (contains "except:" (strip line) = true
       /\ x = issue "Best Practices" "Warning" (i + 1) bare_except_message)
      \/ (startswith "from " (strip line) = true
          /\ (exists prev, 0 < i /\ lines !! (i - 1) = Some prev
                           /\ startswith "import " (strip prev) = true)
          /\ x = issue "Best Practices" "Info" (i + 1) import_order_message).
Proof.
  unfold python_line_issues. rewrite in_app_iff.
  assert (In x (if contains "except:" (strip line)
                then [issue "Best Practices" "Warning" (i + 1) bare_except_message]
                else [])
          <-> contains "except:" (strip line) = true
              /\ x = issue "Best Practices" "Warning" (i + 1) bare_except_message)
    as ->.
  { destruct (contains "except:" (strip line)); simpl; split; intros H;
      repeat destruct H as [H|H]; try contradiction;
      try (destruct H as [H H0]); try discriminate; subst; auto. }
  assert (In x (if startswith "from " (strip line) && (0 <? i)%nat
                then match lines !! (i - 1) with
                     | Some prev =>
                         if startswith "import " (strip prev)
                            && negb (startswith "from " (strip prev))
                         then [issue "Best Practices" "Info" (i + 1)
                                     import_order_message]
                         else []
                     | None => []
                     end
                else [])
          <-> startswith "from " (strip line) = true
              /\ (exists prev, 0 < i /\ lines !! (i - 1) = Some prev
                               /\ startswith "import " (strip prev) = true)
              /\ x = issue "Best Practices" "Info" (i + 1) import_order_message)
    as ->; [|tauto].
  destruct (startswith "from " (strip line)); cbn [andb];
    [|split; [contradiction | intros [H _]; discriminate]].
  destruct (Nat.ltb_spec 0 i) as [Hi|Hi];
    [|split; [contradiction | intros [_ [[p [H _]] _]]; lia]].
  destruct (lines !! (i - 1)) as [prev|];
    [|split; [contradiction | intros [_ [[p [_ [H _]]] _]]; discriminate]].
  destruct (startswith "import " (strip prev)) eqn:Himp.
  - rewrite (startswith_import_not_from _ Himp). cbn [andb negb]. split.
    + intros [<-|[]]. repeat split; eauto.
    + intros [_ [_ ->]]. left. reflexivity.
  - cbn [andb]. split; [contradiction|]. intros [_ [[p [_ [H1 H2]]] _]].
    injection H1 as <-. congruence.
Qed.

Lemma js_line_issues_In i line x :
  In x (js_line_issues i line)
  <-> (search_word "var" (strip line) = true
       /\ x = issue "Best Practices" "Warning" (i + 1) var_message)
      \/ (contains "==" (strip line) = true
          /\ contains "===" (strip line) = false
          /\ x = issue "Best Practices" "Warning" (i + 1) loose_equality_message).
Proof.
  unfold js_line_issues. rewrite in_app_iff.
  destruct (search_word "var" (strip line)),
           (contains "==" (strip line)),
           (contains "===" (strip line)); simpl; split; intros H;
    repeat destruct H as [H|H]; try contradiction;
    repeat match goal with
           | H : _ /\ _ |- _ => destruct H
           end; try discriminate; subst; auto.
Qed.

Lemma check_issues_sound code language x :
  In x (check_code_quality_issues code language) -> reported code language x.
Proof.
  unfold check_code_quality_issues, reported, _check_python_issues, _check_js_issues.
  destruct (String.eqb_spec language "python") as [-> | Hpy].
  - rewrite in_app_iff, !in_flat_map_lines.
    intros [[i [line [Hl H]]] | [i [line [Hl H]]]]; exists i, line;
      (split; [exact Hl|]).
    + apply common_line_issues_In in H. tauto.
    + apply python_line_issues_In in H. tauto.
  - destruct (String.eqb language "javascript" || String.eqb language "typescript")
      eqn:Hjs.
    + assert (language = "javascript" \/ language = "typescript") as Hlang.
      { apply orb_true_iff in Hjs as [H|H]; apply String.eqb_eq in H; auto. }
      rewrite in_app_iff, !in_flat_map_lines.
      intros [[i [line [Hl H]]] | [i [line [Hl H]]]]; exists i, line;
        (split; [exact Hl|]).
      * apply common_line_issues_In in H. tauto.
      * apply js_line_issues_In in H. tauto.
    + rewrite in_flat_map_lines.
      intros [i [line [Hl H]]]. exists i, line. split; [exact Hl|].
      apply common_line_issues_In in H. tauto.
Qed.

Lemma check_issues_complete code language x :
  reported code language x -> In x (check_code_quality_issues code language).
Proof.
  unfold check_code_quality_issues, reported, _check_python_issues, _check_js_issues.
  intros [i [line [Hl H]]].
  assert (In x (flat_map (fun il => common_line_issues (fst il) (snd il))
                         (enumerate (split_lines code)))
          <-> exists i line, split_lines code !! i = Some line
                             /\ In x (common_line_issues i line)) as Hcommon
      by apply (in_flat_map_lines common_line_issues).
  destruct (String.eqb_spec language "python") as [-> | Hpy].
  - rewrite in_app_iff, Hcommon, in_flat_map_lines.
    destruct H as [H | [H | [[_ H] | [[_ H] | [[[H|H] _] | [[H|H] _]]]]]];
      try discriminate.
    + left. exists i, line. rewrite common_line_issues_In. tauto.
    + left. exists i, line. rewrite common_line_issues_In. tauto.
    + right. exists i, line. rewrite python_line_issues_In. tauto.
    + right. exists i, line. rewrite python_line_issues_In. tauto.
  - destruct (String.eqb language "javascript" || String.eqb language "typescript")
      eqn:Hjs.
    + rewrite in_app_iff, Hcommon, in_flat_map_lines.
      destruct H as [H | [H | [[H _] | [[H _] | [[_ H] | [_ H]]]]]];
        try contradiction.
      * left. exists i, line. rewrite common_line_issues_In. tauto.
      * left. exists i, line. rewrite common_line_issues_In. tauto.
      * right. exists i, line. rewrite js_line_issues_In. tauto.
      * right. exists i, line. rewrite js_line_issues_In. tauto.
    + apply orb_false_iff in Hjs as [H1 H2].
      apply String.eqb_neq in H1, H2. rewrite Hcommon.
      destruct H as [H | [H | [[H _] | [[H _] | [[[H|H] _] | [[H|H] _]]]]]];
        try contradiction.
      * exists i, line. rewrite common_line_issues_In. tauto.
      * exists i, line. rewrite common_line_issues_In. tauto.
Qed.

(** X8. The checker is exact: an issue is in the list it returns if and only
    if some line of the text triggers the rule of that issue, for the
    language the text is read as. *)
Theorem check_code_quality_issues_exact (code language : string) (x : value) :
  In x (check_code_quality_issues code language) <-> reported code language x.
Proof.
  split; [apply check_issues_sound | apply check_issues_complete].
Qed.

(** X9. Every issue of the checker is a dictionary the later stages can read:
    it has a type and a message (the retrieval can query it), a severity
    the sort can rank and the summary can count, and a line number between
    1 and the number of lines of the text. *)
Theorem check_code_quality_issues_well_formed (code language : string) :
  Forall (fun x => queryable x = true /\ rankable x = true
                   /\ countable_issue x = true
                   /\ exists n, line_of x = Some (VInt (Z.of_nat n))
                                /\ 1 <= n <= S (count_newlines code))
         (check_code_quality_issues code language).
Proof.
  apply List.Forall_forall. intros x Hx.
  apply check_issues_sound in Hx as [i [line [Hl H]]].
  apply lookup_lt_Some in Hl. rewrite split_lines_length in Hl.
  assert (1 <= i + 1 <= S (count_newlines code)) as Hi by lia.
  destruct H as [[_ ->] | [[_ ->] | [[_ [_ ->]] | [[_ [_ [_ ->]]] | [[_ [_ ->]]
               | [_ [_ [_ ->]]]]]]]];
    (repeat split; [exists (i + 1); split; [reflexivity | exact Hi]]).
Qed.

Lemma ascii_eqb_eq (a b : ascii) : ascii_eqb a b = true -> a = b.
Proof.
  unfold ascii_eqb, code_point. intros H. apply N.eqb_eq in H.
  rewrite <- (ascii_N_embedding a), <- (ascii_N_embedding b), H. reflexivity.
Qed.

Lemma startswith_iff (p s : string) :
  startswith p s = true <-> exists post, s = p +:+ post.
Proof.
  split.
  - revert s. induction p as [|a p IH]; intros s H; [exists s; reflexivity|].
    destruct s as [|b s]; [discriminate|]. simpl in H.
    apply andb_true_iff in H as [Hab H]. apply ascii_eqb_eq in Hab. subst b.
    destruct (IH s H) as [post ->]. exists post. reflexivity.
  - intros [post ->]. apply startswith_append.
Qed.

(** [sub in s] holds exactly when [s] is some text, then [sub], then some
    text. *)
Lemma contains_iff (sub s : string) :
  contains sub s = true <-> exists pre post, s = pre +:+ sub +:+ post.
Proof.
  split.
  - induction s as [|c s IH]; simpl; intros H.
    + apply orb_true_iff in H as [H|H]; [|discriminate].
      apply startswith_iff in H as [post ->]. exists EmptyString, post. reflexivity.
    + apply orb_true_iff in H as [H|H].
      * apply startswith_iff in H as [post ->]. exists EmptyString, post. reflexivity.
      * destruct (IH H) as [pre [post ->]]. exists (String c pre), post. reflexivity.
  - intros [pre [post ->]]. induction pre as [|c pre IH].
    + rewrite append_nil_l. destruct (sub +:+ post) eqn:E; simpl;
        rewrite <- E, startswith_append; reflexivity.
    + rewrite append_cons. simpl. rewrite IH. apply orb_true_r.
Qed.

Lemma contains_longer (a sub s : string) :
  contains (a +:+ sub) s = true -> contains sub s = true.
Proof.
  rewrite !contains_iff. intros [pre [post ->]].
  exists (pre +:+ a), post. rewrite !append_assoc_str. reflexivity.
Qed.

(** X10. The loose-equality rule also fires on the strict inequality operator:
    a javascript or typescript line that holds [!==] and no [===] is
    reported with the advice to use [===]. *)
Theorem strict_inequality_reported (code language : string) (i : nat) (line : string) :
  language = "javascript" \/ language = "typescript" ->
  split_lines code !! i = Some line ->
  contains "!==" (strip line) = true ->
  contains "===" (strip line) = false ->
  In (issue "Best Practices" "Warning" (i + 1) loose_equality_message)
     (check_code_quality_issues code language).
Proof.
  intros Hlang Hl Hne Hstrict. apply check_issues_complete.
  exists i, line. split; [exact Hl|]. do 5 right.
  repeat split; try assumption.
  apply (contains_longer "!" "==" _ Hne).
Qed.

Lemma strict_inequality_reported_witness :
  In (issue "Best Practices" "Warning" 1 loose_equality_message)
     (check_code_quality_issues "if (a !== b) { return; }" "javascript").
Proof.
  apply (strict_inequality_reported "if (a !== b) { return; }" "javascript" 0
                                    "if (a !== b) { return; }");
    [left; reflexivity | reflexivity | reflexivity | reflexivity].
Defined.

Lemma drop_chars_append (kw post : string) : drop_chars (len kw) (kw +:+ post) = post.
Proof. induction kw as [|c kw IH]; [reflexivity|]. rewrite append_cons. exact IH. Qed.

Lemma search_word_from_iff (kw s : string) : forall prev,
  search_word_from kw prev s = true
  <-> exists pre post,
        s = pre +:+ kw +:+ post
        /\ boundary (last_char prev pre) (head_char (kw +:+ post)) = true
        /\ boundary (last_char (last_char prev pre) kw) (head_char post) = true.
Proof.
  induction s as [|c s IH]; intros prev.
  - simpl. rewrite orb_false_r. unfold word_at. split.
    + intros H. apply andb_true_iff in H as [H H3].
      apply andb_true_iff in H as [H1 H2].
      apply startswith_iff in H2 as [post E]. exists EmptyString, post.
      rewrite append_nil_l. split; [exact E|]. simpl last_char.
      rewrite <- E. split; [exact H1|].
      rewrite E, drop_chars_append in H3. exact H3.
    + intros [pre [post [E [H1 H2]]]].
      destruct pre as [|a pre]; [|rewrite append_cons in E; discriminate].
      rewrite append_nil_l in E. simpl last_char in *.
      rewrite E, H1, startswith_append, drop_chars_append, H2. reflexivity.
  - cbn [search_word_from]. rewrite orb_true_iff, IH. unfold word_at. split.
    + intros [H | [pre [post [E H]]]].
      * apply andb_true_iff in H as [H H3].
        apply andb_true_iff in H as [H1 H2].
        apply startswith_iff in H2 as [post E]. exists EmptyString, post.
        rewrite append_nil_l. split; [exact E|]. simpl last_char.
        rewrite <- E. split; [exact H1|].
        rewrite E, drop_chars_append in H3. exact H3.
      * exists (String c pre), post. rewrite append_cons, E. split; [reflexivity|].
        exact H.
    + intros [pre [post [E [H1 H2]]]]. destruct pre as [|a pre].
      * left. rewrite append_nil_l in E. simpl last_char in *.
        rewrite E, H1, startswith_append, drop_chars_append, H2. reflexivity.
      * right. rewrite append_cons in E. injection E as -> ->.
        exists pre, post. split; [reflexivity|]. split; assumption.
Qed.

(** X11. The [var] rule looks for the whole word: it fires exactly when the
    stripped line holds [var] with no letter, digit or underscore right
    before it and none right after it. *)
Theorem var_rule_whole_word (line : string) :
  search_word "var" line = true
  <-> exists pre post,
        line = pre +:+ "var" +:+ post
        /\ word_opt (last_char None pre) = false
        /\ word_opt (head_char post) = false.
Proof.
  unfold search_word. rewrite search_word_from_iff.
  split; intros [pre [post [E [H1 H2]]]]; exists pre, post;
    (split; [exact E|]); unfold boundary in *; simpl in *.
  - destruct (word_opt (last_char None pre)), (word_opt (head_char post));
      try discriminate; auto.
  - rewrite H1, H2. auto.
Qed.

(** ** Summary synthesizer, further *)

Lemma count_issue_Ok_countable sc tc x counts :
  (forall t, is_Some (sc !! t) -> one_of_three t) ->
  count_issue (sc, tc) x = Ok counts ->
  countable_issue x = true.
Proof.
  intros Hdom H. unfold count_issue in H. simpl in H.
  destruct x as [| | | |l|d]; simpl in H; try discriminate.
  unfold countable_issue, count_type, dict_get in *.
  destruct (dict_lookup "severity" d) as [sev|].
  - destruct sev as [| | |t| |]; simpl in H; try discriminate.
    destruct (sc !! t) as [n|] eqn:Ht; simpl in H; [|discriminate].
    assert (one_of_three t) as Hthree by (apply Hdom; rewrite Ht; eauto).
    destruct (hashable match dict_lookup "type" d with
                       | Some v => v
                       | None => VStr "General"
                       end); [|discriminate].
    rewrite andb_true_r.
    destruct Hthree as [-> | [-> | ->]]; reflexivity.
  - simpl in H. destruct (sc !! "Info"); simpl in H; [|discriminate].
    destruct (hashable match dict_lookup "type" d with
                       | Some v => v
                       | None => VStr "General"
                       end); [|discriminate].
    reflexivity.
Qed.

Lemma count_loop_Ok_countable l : forall sc tc counts,
  (forall t, is_Some (sc !! t) -> one_of_three t) ->
  for_each count_issue l (sc, tc) = Ok counts ->
  Forall (fun x => countable_issue x = true) l.
Proof.
  induction l as [|x l IH]; intros sc tc counts Hdom H; simpl in H; [constructor|].
  apply bind_Ok_inv in H as [[sc1 tc1] [H1 H2]].
  constructor.
  - eapply count_issue_Ok_countable; eassumption.
  - apply (IH sc1 tc1 counts); [|exact H2].
    intros t Ht. apply Hdom.
    rewrite (count_issue_entry _ _ _ _ _ t H1) in Ht.
    destruct (sc !! t); [eauto | destruct Ht; discriminate].
Qed.

Lemma generate_summary_Ok_countable st s :
  _generate_summary st = Ok s ->
  Forall (fun x => countable_issue x = true) (issues st).
Proof.
  intros H. destruct (generate_summary_Ok_inv _ _ H) as [sc [tc Hc]].
  unfold count_issues in Hc.
  apply (count_loop_Ok_countable _ _ _ _) with (2 := Hc).
  intros t [n Hn]. eapply initial_entry_inv; eassumption.
Qed.

(** X12. The synthesizer returns a summary exactly for the lists in which every
    issue is a dictionary whose severity is absent or one of Critical,
    Warning, Info and whose type can be a dictionary key; on any other list
    it raises. *)
Theorem generate_summary_returns_iff (st : CodeReviewState) :
  (exists s, _generate_summary st = Ok s)
  <-> Forall (fun x => countable_issue x = true) (issues st).
Proof.
  split; [|apply generate_summary_countable].
  intros [s H]. eapply generate_summary_Ok_countable; exact H.
Qed.

Lemma counted_once x :
  (exists t, one_of_three t /\ counted_as t x = true) ->
  (if counted_as "Critical" x then 1 else 0)
  + (if counted_as "Warning" x then 1 else 0)
  + (if counted_as "Info" x then 1 else 0) = 1.
Proof.
  intros [t [Ht Hx]]. unfold counted_as in *.
  destruct x as [| | | |l|d]; try discriminate.
  destruct (dict_get "severity" (VStr "Info") d) as [| | |s| |]; try discriminate.
  apply String.eqb_eq in Hx. subst s.
  destruct Ht as [-> | [-> | ->]]; reflexivity.
Qed.

Lemma counts_add_up l :
  Forall (fun x => exists t, one_of_three t /\ counted_as t x = true) l ->
  count_of "Critical" l + count_of "Warning" l + count_of "Info" l = length l.
Proof.
  induction 1 as [|x l Hx _ IH]; [reflexivity|].
  rewrite !count_of_cons. simpl length. pose proof (counted_once x Hx). lia.
Qed.

Lemma bump_total k tc :
  list_sum (map snd (bump k tc)) = S (list_sum (map snd tc)).
Proof.
  induction tc as [|[k' n] tc IH]; simpl; [reflexivity|].
  destruct (key_eqb k k'); simpl; [lia | rewrite IH; lia].
Qed.

Lemma count_issue_types sc tc x sc' tc' :
  count_issue (sc, tc) x = Ok (sc', tc') ->
  list_sum (map snd tc') = S (list_sum (map snd tc)).
Proof.
  unfold count_issue; simpl.
  destruct (py_get x "severity" (VStr "Info")) as [sev|]; simpl; [|discriminate].
  destruct (py_get x "type" (VStr "General")) as [ty|]; simpl; [|discriminate].
  destruct (count_severity sev sc); simpl; [|discriminate].
  unfold count_type. destruct (hashable ty); simpl; [|discriminate].
  intros H. injection H as _ <-. apply bump_total.
Qed.

Lemma count_loop_types l : forall sc tc sc' tc',
  for_each count_issue l (sc, tc) = Ok (sc', tc') ->
  list_sum (map snd tc') = list_sum (map snd tc) + length l.
Proof.
  induction l as [|x l IH]; intros sc tc sc' tc' H; simpl in H.
  - injection H as _ <-. simpl. lia.
  - apply bind_Ok_inv in H as [[sc1 tc1] [H1 H2]].
    rewrite (IH _ _ _ _ H2), (count_issue_types _ _ _ _ _ H1). simpl. lia.
Qed.

Lemma severity_breakdown_lookup issues sc tc (key : string) :
  count_issues issues = Ok (sc, tc) ->
  sc !! key = if bool_decide (one_of_three key)
              then Some (count_of key issues) else None.
Proof.
  intros H. unfold count_issues in H.
  rewrite (count_loop_entry _ _ _ _ _ key H).
  destruct (bool_decide (one_of_three key)) eqn:Hk.
  - apply bool_decide_eq_true in Hk. rewrite (initial_entry key Hk). reflexivity.
  - apply bool_decide_eq_false in Hk.
    destruct (initial_severity_count !! key) as [n|] eqn:Hn; [|reflexivity].
    exfalso. apply Hk. eapply initial_entry_inv; eassumption.
Qed.

(** X13. The numbers of a returned summary add up: the severity breakdown has
    exactly the three entries Critical, Warning and Info, holding the
    number of issues counted under each, and both the severity counts and
    the category counts sum to [total_issues], the length of the list. *)
Theorem generate_summary_totals (st : CodeReviewState) (s : Summary) :
  _generate_summary st = Ok s ->
  total_issues s = length (issues st)
  /\ recommendations_count s = length (recommendations st)
  /\ (forall key : string,
        severity_breakdown s !! key
        = if bool_decide (one_of_three key)
          then Some (count_of key (issues st)) else None)
  /\ count_of "Critical" (issues st) + count_of "Warning" (issues st)
     + count_of "Info" (issues st) = total_issues s
  /\ list_sum (map snd (category_breakdown s)) = total_issues s.
Proof.
  intros H. destruct (generate_summary_Ok_inv _ _ H) as [sc [tc Hc]].
  rewrite (generate_summary_after_count _ _ _ Hc) in H.
  injection H as <-. simpl. repeat split.
  - intros key. eapply severity_breakdown_lookup; eassumption.
  - apply counts_add_up. unfold count_issues in Hc.
    apply count_loop_counted in Hc.
    eapply Forall_impl; [exact Hc|]. intros x [t [[n Hn] Hx]].
    exists t. split; [eapply initial_entry_inv; eassumption | exact Hx].
  - unfold count_issues in Hc. rewrite (count_loop_types _ _ _ _ _ Hc). reflexivity.
Qed.

Lemma generate_summary_totals_witness :
  exists s, _generate_summary (Sample.state_with Sample.three_critical) = Ok s
            /\ total_issues s = 3
            /\ severity_breakdown s !! "Critical" = Some 3
            /\ severity_breakdown s !! "High" = None
            /\ list_sum (map snd (category_breakdown s)) = 3.
Proof.
  destruct (_generate_summary (Sample.state_with Sample.three_critical))
    as [s|e] eqn:E; [|vm_compute in E; discriminate].
  exists s. split; [reflexivity|].
  destruct (generate_summary_totals _ s E) as [H1 [_ [H3 [_ H5]]]].
  rewrite H1 in *. repeat split.
  - exact (H3 "Critical").
  - exact (H3 "High").
  - exact H5.
Defined.

Lemma count_of_perm (s : string) (l l' : list value) :
  Permutation l l' -> count_of s l = count_of s l'.
Proof.
  induction 1 as [|x l l' _ IH|x y l|l l' l'' _ IH1 _ IH2].
  - reflexivity.
  - rewrite !count_of_cons, IH. reflexivity.
  - rewrite !count_of_cons. lia.
  - congruence.
Qed.

Lemma weighted_penalty_perm (l l' : list value) :
  Permutation l l' -> weighted_penalty l = weighted_penalty l'.
Proof.
  intros H. unfold weighted_penalty.
  rewrite !(count_of_perm _ _ _ H). reflexivity.
Qed.

(** X14. The summary does not depend on the order of the issues: two states
    whose issue lists are permutations of each other get the same score,
    the same total and the same severity breakdown (so the sort of the
    final stage does not change the score). *)
Theorem generate_summary_order_independent (st1 st2 : CodeReviewState) (s1 : Summary) :
  Permutation (issues st1) (issues st2) ->
  _generate_summary st1 = Ok s1 ->
  exists s2, _generate_summary st2 = Ok s2
             /\ overall_score s2 = overall_score s1
             /\ total_issues s2 = total_issues s1
             /\ severity_breakdown s2 = severity_breakdown s1.
Proof.
  intros Hperm H1.
  assert (exists s2, _generate_summary st2 = Ok s2) as [s2 H2].
  { apply generate_summary_countable.
    eapply Permutation_Forall; [exact Hperm|].
    eapply generate_summary_Ok_countable; exact H1. }
  exists s2. split; [exact H2|].
  destruct (generate_summary_Ok_inv _ _ H1) as [sc1 [tc1 Hc1]].
  destruct (generate_summary_Ok_inv _ _ H2) as [sc2 [tc2 Hc2]].
  rewrite (generate_summary_after_count _ _ _ Hc1) in H1.
  rewrite (generate_summary_after_count _ _ _ Hc2) in H2.
  injection H1 as <-. injection H2 as <-. simpl.
  rewrite (weighted_penalty_perm _ _ Hperm), (Permutation_length Hperm).
  repeat split. apply map_eq. intros key.
  rewrite (severity_breakdown_lookup _ _ _ key Hc1),
          (severity_breakdown_lookup _ _ _ key Hc2),
          (count_of_perm key _ _ Hperm).
  reflexivity.
Qed.

Lemma generate_summary_order_independent_witness :
  exists s1 s2,
    _generate_summary (Sample.state_with Sample.three_critical) = Ok s1
    /\ _generate_summary (Sample.state_with (rev Sample.three_critical)) = Ok s2
    /\ overall_score s2 = overall_score s1
    /\ total_issues s2 = total_issues s1
    /\ severity_breakdown s2 = severity_breakdown s1.
Proof.
  destruct (_generate_summary (Sample.state_with Sample.three_critical))
    as [s1|e] eqn:E; [|vm_compute in E; discriminate].
  destruct (generate_summary_order_independent
              (Sample.state_with Sample.three_critical)
              (Sample.state_with (rev Sample.three_critical)) s1
              (Permutation_rev Sample.three_critical) E) as [s2 H].
  exists s1, s2. split; [reflexivity | exact H].
Defined.

Lemma count_of_app (s : string) (l1 l2 : list value) :
  count_of s (l1 ++ l2) = count_of s l1 + count_of s l2.
Proof.
  unfold count_of. rewrite List.filter_app, length_app. reflexivity.
Qed.

Lemma score_of_penalty_antitone (p q : Z) :
  (p <= q)%Z -> (score_of_penalty q <= score_of_penalty p)%Z.
Proof. unfold score_of_penalty; lia. Qed.

(** X15. More issues never improve the score: when the summary of a list with
    further issues appended is returned, the summary of the shorter list is
    returned too, with a score at least as high and a penalty at most as
    large. *)
Theorem generate_summary_more_issues (st1 st2 : CodeReviewState)
        (more : list value) (s2 : Summary) :
  issues st2 = issues st1 ++ more ->
  _generate_summary st2 = Ok s2 ->
  exists s1, _generate_summary st1 = Ok s1
             /\ (overall_score s2 <= overall_score s1)%Z
             /\ (weighted_penalty (issues st1) <= weighted_penalty (issues st2))%Z.
Proof.
  intros Hmore H2.
  assert (exists s1, _generate_summary st1 = Ok s1) as [s1 H1].
  { apply generate_summary_countable.
    assert (Forall (fun x => countable_issue x = true) (issues st2)) as Hall
        by (eapply generate_summary_Ok_countable; exact H2).
    rewrite Hmore in Hall. apply Forall_app in Hall as [Hall _]. exact Hall. }
  exists s1. split; [exact H1|].
  destruct (generate_summary_Ok_inv _ _ H1) as [sc1 [tc1 Hc1]].
  destruct (generate_summary_Ok_inv _ _ H2) as [sc2 [tc2 Hc2]].
  rewrite (generate_summary_after_count _ _ _ Hc1) in H1.
  rewrite (generate_summary_after_count _ _ _ Hc2) in H2.
  injection H1 as <-. injection H2 as <-. simpl.
  assert (weighted_penalty (issues st1) <= weighted_penalty (issues st2))%Z as Hle.
  { rewrite Hmore. unfold weighted_penalty. rewrite !count_of_app. lia. }
  split; [apply score_of_penalty_antitone, Hle | exact Hle].
Qed.

Lemma generate_summary_more_issues_witness :
  exists s1 s2,
    _generate_summary (Sample.state_with [Sample.found "Security" "Critical" "a"])
      = Ok s1
    /\ _generate_summary (Sample.state_with Sample.three_critical) = Ok s2
    /\ (overall_score s2 <= overall_score s1)%Z.
Proof.
  destruct (_generate_summary (Sample.state_with Sample.three_critical))
    as [s2|e] eqn:E; [|vm_compute in E; discriminate].
  destruct (generate_summary_more_issues
              (Sample.state_with [Sample.found "Security" "Critical" "a"])
              (Sample.state_with Sample.three_critical)
              [Sample.found "Security" "Critical" "b";
               Sample.found "Security" "Critical" "c"] s2 eq_refl E)
    as [s1 [H1 [Hle _]]].
  exists s1, s2. split; [exact H1|]. split; [reflexivity | exact Hle].
Defined.

(** ** The sort of the final stage, further *)

Lemma insert_keyed_head kx l :
  Forall (key_le kx) l -> insert_keyed kx l = kx :: l.
Proof.
  intros H. destruct l as [|ky l]; [reflexivity|]. simpl.
  inversion H as [|? ? Hle _]; subst. unfold key_le in Hle.
  destruct (Z.leb_spec (fst kx) (fst ky)); [reflexivity | lia].
Qed.

Lemma sort_keyed_sorted_id l : StronglySorted key_le l -> sort_keyed l = l.
Proof.
  induction 1 as [|kx l _ IH Hall]; [reflexivity|].
  cbn [sort_keyed foldr]. fold (sort_keyed l). rewrite IH.
  apply insert_keyed_head, Hall.
Qed.

Lemma with_keys_rank l :
  Forall (fun x => rankable x = true) l ->
  with_keys severity_key l = Ok (map (fun x => (severity_rank x, x)) l).
Proof.
  induction 1 as [|x l Hx _ IH]; [reflexivity|]. simpl.
  rewrite (severity_key_rankable x Hx), IH. reflexivity.
Qed.

Lemma severity_key_Ok_rankable x k : severity_key x = Ok k -> rankable x = true.
Proof.
  unfold severity_key, rankable.
  destruct x as [| | | |l|d]; simpl; try discriminate.
  unfold dict_get. destruct (dict_lookup "severity" d) as [[| | |s| |]|];
    simpl; try discriminate; reflexivity.
Qed.

Lemma sorted_by_rank_keyed l :
  StronglySorted (fun a b => (severity_rank a <= severity_rank b)%Z) l ->
  StronglySorted key_le (map (fun x => (severity_rank x, x)) l).
Proof.
  induction 1 as [|x l _ IH Hall]; simpl; constructor; [exact IH|].
  rewrite Forall_map. eapply Forall_impl; [exact Hall|].
  intros y Hy. exact Hy.
Qed.

(** X16. A list that is already ordered by rank comes back from the sort as it
    is, and sorting twice is sorting once. *)
Theorem final_sort_fixed_point :
  (forall issues,
      Forall (fun x => rankable x = true) issues ->
      StronglySorted (fun a b => (severity_rank a <= severity_rank b)%Z) issues ->
      py_sorted severity_key issues = Ok issues)
  /\ (forall issues sorted_issues,
         py_sorted severity_key issues = Ok sorted_issues ->
         py_sorted severity_key sorted_issues = Ok sorted_issues).
Proof.
  assert (forall issues,
             Forall (fun x => rankable x = true) issues ->
             StronglySorted (fun a b => (severity_rank a <= severity_rank b)%Z) issues ->
             py_sorted severity_key issues = Ok issues) as Hfix.
  { intros issues Hr Hs. unfold py_sorted. rewrite (with_keys_rank _ Hr). simpl.
    rewrite (sort_keyed_sorted_id _ (sorted_by_rank_keyed _ Hs)), map_map.
    simpl. rewrite map_id. reflexivity. }
  split; [exact Hfix|].
  intros issues sorted_issues H.
  destruct (py_sorted_severity _ _ H) as [Hperm [Hsorted _]].
  apply Hfix; [|exact Hsorted].
  eapply Permutation_Forall; [exact Hperm|].
  unfold py_sorted in H. apply bind_Ok_inv in H as [kl [Hkl _]].
  apply with_keys_Ok in Hkl as [Hm Hf]. rewrite <- Hm.
  rewrite Forall_map. eapply Forall_impl; [exact Hf|].
  intros p Hp. eapply severity_key_Ok_rankable; exact Hp.
Qed.

Lemma final_sort_fixed_point_witness :
  py_sorted severity_key Sample.three_critical = Ok Sample.three_critical
  /\ (forall sorted_issues,
         py_sorted severity_key Sample.mixed_issues = Ok sorted_issues ->
         py_sorted severity_key sorted_issues = Ok sorted_issues).
Proof.
  split.
  - apply (proj1 final_sort_fixed_point Sample.three_critical).
    + repeat constructor.
    + repeat constructor; vm_compute; discriminate.
  - apply (proj2 final_sort_fixed_point Sample.mixed_issues).
Defined.

(** ** Retrieval of practices, further *)

Lemma search_for_issue_query lib rag language acc x :
  search_for_issue lib rag language acc x
  = (query ← issue_query lib language x; Ok (acc ++ search_knowledge rag query 2)).
Proof.
  unfold search_for_issue, issue_query.
  destruct (py_getitem x "type"); simpl; [|reflexivity].
  destruct (py_getitem x "message"); reflexivity.
Qed.

Lemma issue_query_queryable lib language x :
  (exists q, issue_query lib language x = Ok q) <-> queryable x = true.
Proof.
  unfold issue_query, queryable. destruct x as [| | | |l|d]; simpl;
    try (split; [intros [q H]; discriminate | discriminate]).
  destruct (dict_lookup "type" d); simpl;
    [|split; [intros [q H]; discriminate | discriminate]].
  destruct (dict_lookup "message" d); simpl;
    [|split; [intros [q H]; discriminate | discriminate]].
  split; eauto.
Qed.

Lemma relevant_loop_retrieved lib rag language issues : forall acc,
  Forall (fun x => queryable x = true) issues ->
  for_each (search_for_issue lib rag language) issues acc
  = Ok (acc ++ retrieved lib rag language issues).
Proof.
  induction issues as [|x issues IH]; intros acc Hq.
  - simpl. rewrite app_nil_r. reflexivity.
  - inversion Hq as [|? ? Hx Hq']; subst. cbn [for_each].
    rewrite search_for_issue_query.
    apply issue_query_queryable with (lib := lib) (language := language) in Hx
      as [q Hquery].
    unfold retrieved. cbn [flat_map]. rewrite Hquery. simpl.
    rewrite IH by assumption. unfold retrieved. rewrite <- app_assoc. reflexivity.
Qed.

Lemma relevant_loop_Ok_queryable lib rag language issues : forall acc docs,
  for_each (search_for_issue lib rag language) issues acc = Ok docs ->
  Forall (fun x => queryable x = true) issues.
Proof.
  induction issues as [|x issues IH]; intros acc docs H; [constructor|].
  cbn [for_each] in H. apply bind_Ok_inv in H as [acc' [H1 H2]].
  constructor; [|eapply IH; exact H2].
  rewrite search_for_issue_query in H1.
  apply bind_Ok_inv in H1 as [q [Hq _]].
  apply (issue_query_queryable lib language). eauto.
Qed.

(** X17. The retrieval returns exactly for the lists in which every issue is a
    dictionary with a type and a message; an issue without one of the two
    keys, or an item that is no dictionary, makes it raise. *)
Theorem relevant_practices_returns_iff (lib : StdLib) (rag : RAGSystem)
        (issues : list value) (language : string) :
  (exists docs, get_relevant_practices lib rag issues language = Ok docs)
  <-> Forall (fun x => queryable x = true) issues.
Proof.
  unfold get_relevant_practices. split.
  - intros [docs H]. apply bind_Ok_inv in H as [relevant [H _]].
    eapply relevant_loop_Ok_queryable; exact H.
  - intros Hq. rewrite (relevant_loop_retrieved _ _ _ _ [] Hq). simpl. eauto.
Qed.

Lemma keep_unseen_first_seen docs : forall unique_docs seen,
  fst (fold_left keep_unseen docs (unique_docs, seen))
  = unique_docs ++ first_seen seen docs.
Proof.
  induction docs as [|doc docs IH]; intros u seen; simpl.
  - rewrite app_nil_r. reflexivity.
  - unfold keep_unseen at 2. simpl.
    destruct (bool_decide (page_content doc ∈ seen)).
    + apply IH.
    + rewrite IH, <- app_assoc. reflexivity.
Qed.

Lemma first_seen_sublist docs : forall seen, sublist (first_seen seen docs) docs.
Proof.
  induction docs as [|doc docs IH]; intros seen; simpl; [constructor|].
  destruct (bool_decide (page_content doc ∈ seen)).
  - apply sublist_cons, IH.
  - apply sublist_skip, IH.
Qed.

Lemma first_seen_covers docs : forall seen doc,
  In doc docs ->
  page_content doc ∈ seen
  \/ In (page_content doc) (map page_content (first_seen seen docs)).
Proof.
  induction docs as [|d docs IH]; intros seen doc Hin; [destruct Hin|].
  simpl. destruct (bool_decide (page_content d ∈ seen)) eqn:Hd.
  - apply bool_decide_eq_true in Hd. destruct Hin as [-> | Hin]; [auto|].
    apply IH, Hin.
  - destruct Hin as [-> | Hin]; [right; left; reflexivity|].
    destruct (IH ({[page_content d]} ∪ seen) doc Hin) as [H|H].
    + apply elem_of_union in H as [H|H]; [|auto].
      apply elem_of_singleton in H. right. left. symmetry. exact H.
    + right. right. exact H.
Qed.

(** X18. The practices returned are drawn from the search results: they form a
    sub-list of the documents found, in the order they were found; when no
    more than five distinct contents were found, every content found is
    among them; and nothing found gives nothing returned. *)
Theorem relevant_practices_from_searches (lib : StdLib) (rag : RAGSystem)
        (issues : list value) (language : string) :
  Forall (fun x => queryable x = true) issues ->
  exists docs,
    get_relevant_practices lib rag issues language = Ok docs
    /\ sublist docs (retrieved lib rag language issues)
    /\ (length (unique_by_content (retrieved lib rag language issues)) <= 5 ->
        forall doc, In doc (retrieved lib rag language issues) ->
                    In (page_content doc) (map page_content docs))
    /\ (retrieved lib rag language issues = [] -> docs = []).
Proof.
  intros Hq. unfold get_relevant_practices.
  rewrite (relevant_loop_retrieved _ _ _ _ [] Hq). simpl.
  eexists; split; [reflexivity|].
  assert (unique_by_content (retrieved lib rag language issues)
          = first_seen ∅ (retrieved lib rag language issues)) as Hu
      by (unfold unique_by_content; apply keep_unseen_first_seen).
  split; [|split].
  - transitivity (unique_by_content (retrieved lib rag language issues)).
    + apply sublist_take.
    + rewrite Hu. apply first_seen_sublist.
  - intros Hlen doc Hin. rewrite firstn_all2 by exact Hlen. rewrite Hu.
    destruct (first_seen_covers _ ∅ doc Hin) as [H|H]; [|exact H].
    exfalso. set_solver.
  - intros ->. reflexivity.
Qed.

Lemma relevant_practices_from_searches_witness :
  exists docs,
    get_relevant_practices Sample.stdlib Sample.store Sample.mixed_issues "python"
      = Ok docs
    /\ sublist docs (retrieved Sample.stdlib Sample.store "python" Sample.mixed_issues)
    /\ (forall doc,
           In doc (retrieved Sample.stdlib Sample.store "python" Sample.mixed_issues) ->
           In (page_content doc) (map page_content docs)).
Proof.
  destruct (relevant_practices_from_searches
              Sample.stdlib Sample.store Sample.mixed_issues "python")
    as [docs [H1 [H2 [H3 _]]]].
  - repeat constructor.
  - exists docs. split; [exact H1|]. split; [exact H2|].
    apply H3. vm_compute. lia.
Defined.

(** X19. Without a vector store, or with a store whose every search fails, the
    retrieval still returns, with no practice at all. *)
Theorem relevant_practices_without_store (lib : StdLib) (rag : RAGSystem)
        (issues : list value) (language : string) :
  vector_store rag = None
  \/ (exists search, vector_store rag = Some search
                     /\ forall query k, exists e, search query k = Raise e) ->
  Forall (fun x => queryable x = true) issues ->
  get_relevant_practices lib rag issues language = Ok [].
Proof.
  intros Hstore Hq.
  assert (forall query, search_knowledge rag query 2 = []) as Hnone.
  { intros query. unfold search_knowledge.
    destruct Hstore as [-> | [search [-> Hs]]]; [reflexivity|].
    destruct (Hs query 2) as [e ->]. reflexivity. }
  unfold get_relevant_practices.
  rewrite (relevant_loop_retrieved _ _ _ _ [] Hq). simpl.
  assert (retrieved lib rag language issues = []) as ->; [|reflexivity].
  unfold retrieved. induction issues as [|x issues IH]; [reflexivity|].
  inversion Hq; subst. simpl. rewrite IH by assumption.
  destruct (issue_query lib language x); [rewrite Hnone|]; reflexivity.
Qed.

Lemma relevant_practices_without_store_witness :
  get_relevant_practices Sample.stdlib {| vector_store := None |}
                         Sample.mixed_issues "python" = Ok [].
Proof.
  apply (relevant_practices_without_store Sample.stdlib {| vector_store := None |}).
  - left. reflexivity.
  - repeat constructor.
Defined.

(** ** Pipeline stages, further *)

Lemma app_nil_suffix {A} (l : list A) : exists new, l = l ++ new.
Proof. exists []. rewrite app_nil_r. reflexivity. Qed.

Ltac effect_cases :=
  repeat match goal with |- _ /\ _ => split end;
  first [ reflexivity
        | apply app_nil_suffix
        | eexists; reflexivity
        | left; reflexivity
        | right; reflexivity
        | intros; first [reflexivity | discriminate] ].

(** What the [try] block of a stage can do to the state, whatever the
    model replies. *)
Lemma enrich_effect self prompt key step (with_code : bool) st :
  let update := fun decoded : value =>
    if with_code
    then (optimized ← call (py_get decoded "optimized_code" (VStr EmptyString));
          set_optimized_code optimized;; set_step step)
    else set_step step in
  let st' := fst (enrich self prompt key update st) in
  snd (enrich self prompt key update st) = Ok tt
  /\ (exists new, issues st' = issues st ++ new)
  /\ code st' = code st /\ filename st' = filename st
  /\ language st' = language st
  /\ analysis_result st' = analysis_result st
  /\ recommendations st' = recommendations st
  /\ messages st' = messages st
  /\ (with_code = false -> optimized_code st' = optimized_code st)
  /\ (st' = st \/ current_step st' = step).
Proof.
  unfold enrich, try_except, mbind, action_bind, call. simpl.
  destruct (json_loads (lib self) (generate_response (llm_manager self) "" prompt))
    as [decoded|e]; simpl; [|effect_cases].
  destruct decoded as [| | | |l|d]; simpl; try effect_cases.
  unfold extend_issues.
  destruct (py_iter (dict_get key (VList []) d)) as [new|e]; simpl;
    [|effect_cases].
  destruct with_code; simpl; effect_cases.
Qed.

Lemma enrichment_agent_update n self st :
  enrichment_agent n self st
  = enrich self (enrichment_prompt n self st) (enrichment_key n)
      (fun decoded : value =>
         if match n with EPerformance => true | _ => false end
         then (optimized ← call (py_get decoded "optimized_code" (VStr EmptyString));
               set_optimized_code optimized;; set_step (enrichment_step n))
         else set_step (enrichment_step n)) st.
Proof. destruct n; reflexivity. Qed.

(** X20. Whatever the model replies, an enrichment stage returns, and all it
    can have done is append issues behind those already found, record its
    step and (the performance stage only) set the optimized code; it either
    leaves the state untouched or records its step. *)
Theorem enrichment_stage_effect (n : enrichment) (self : CodeReviewAgents)
        (st : CodeReviewState) :
  let st' := fst (enrichment_agent n self st) in
  snd (enrichment_agent n self st) = Ok tt
  /\ (exists new, issues st' = issues st ++ new)
  /\ language st' = language st
  /\ analysis_result st' = analysis_result st
  /\ recommendations st' = recommendations st
  /\ messages st' = messages st
  /\ (n <> EPerformance -> optimized_code st' = optimized_code st)
  /\ (st' = st \/ current_step st' = enrichment_step n).
Proof.
  rewrite enrichment_agent_update.
  destruct (enrich_effect self (enrichment_prompt n self st) (enrichment_key n)
              (enrichment_step n)
              (match n with EPerformance => true | _ => false end) st)
    as [H1 [H2 [_ [_ [H3 [H4 [H5 [H6 [H7 H8]]]]]]]]].
  repeat split; try assumption.
  intros Hn. apply H7. destruct n; [reflexivity.. | contradiction | reflexivity].
Qed.

Lemma final_stage_cases self st :
  match get_relevant_practices (lib self) (rag_system self) (issues st) (language st) with
  | Raise e => _final_reviewer_agent self st = (st, Raise e)
  | Ok docs =>
      match py_sorted severity_key (issues st) with
      | Raise e => _final_reviewer_agent self st = (st, Raise e)
      | Ok sorted_issues =>
          _final_reviewer_agent self st = (reviewed_state st sorted_issues docs, Ok tt)
      end
  end.
Proof.
  unfold _final_reviewer_agent, mbind, action_bind, read, call; simpl.
  destruct (get_relevant_practices _ _ _ _) as [docs|e]; [|reflexivity].
  destruct (py_sorted severity_key (issues st)); reflexivity.
Qed.

Lemma with_keys_Ok_rankable l kl :
  with_keys severity_key l = Ok kl -> Forall (fun x => rankable x = true) l.
Proof.
  intros H. apply with_keys_Ok in H as [Hm Hf]. rewrite <- Hm.
  rewrite Forall_map. eapply Forall_impl; [exact Hf|].
  intros p Hp. eapply severity_key_Ok_rankable; exact Hp.
Qed.

Lemma py_sorted_returns_iff l :
  (exists out, py_sorted severity_key l = Ok out)
  <-> Forall (fun x => rankable x = true) l.
Proof.
  unfold py_sorted. split.
  - intros [out H]. apply bind_Ok_inv in H as [kl [H _]].
    eapply with_keys_Ok_rankable; exact H.
  - intros H. rewrite (with_keys_rank _ H). simpl. eauto.
Qed.

Lemma relevant_practices_Ok_queryable lib rag issues language docs :
  get_relevant_practices lib rag issues language = Ok docs ->
  Forall (fun x => queryable x = true) issues.
Proof.
  unfold get_relevant_practices. intros H.
  apply bind_Ok_inv in H as [relevant [H _]].
  eapply relevant_loop_Ok_queryable; exact H.
Qed.

Lemma relevant_practices_queryable lib rag issues language :
  Forall (fun x => queryable x = true) issues ->
  exists docs, get_relevant_practices lib rag issues language = Ok docs.
Proof.
  intros Hq. unfold get_relevant_practices.
  rewrite (relevant_loop_retrieved _ _ _ _ [] Hq). simpl. eauto.
Qed.

(** X21. The final stage returns exactly when every issue is a dictionary with
    a type, a message and a severity that is absent or a text, number,
    truth value or null; any other item makes the stage raise. *)
Theorem final_stage_returns_iff (self : CodeReviewAgents) (st : CodeReviewState) :
  snd (_final_reviewer_agent self st) = Ok tt
  <-> Forall (fun x => queryable x = true /\ rankable x = true) (issues st).
Proof.
  pose proof (final_stage_cases self st) as Hc. split.
  - intros Hok.
    destruct (get_relevant_practices _ _ _ _) as [docs|e] eqn:Hd;
      [|rewrite Hc in Hok; discriminate].
    destruct (py_sorted severity_key (issues st)) as [out|e] eqn:Hs;
      [|rewrite Hc in Hok; discriminate].
    apply relevant_practices_Ok_queryable in Hd.
    assert (Forall (fun x => rankable x = true) (issues st)) as Hr
        by (apply py_sorted_returns_iff; eauto).
    rewrite List.Forall_forall in *. intros x Hx. split; auto.
  - intros Hall.
    assert (Forall (fun x => queryable x = true) (issues st)) as Hq
        by (eapply Forall_impl; [exact Hall | intros x [H _]; exact H]).
    assert (Forall (fun x => rankable x = true) (issues st)) as Hr
        by (eapply Forall_impl; [exact Hall | intros x [_ H]; exact H]).
    destruct (relevant_practices_queryable (lib self) (rag_system self) _
                (language st) Hq) as [docs Hd].
    apply py_sorted_returns_iff in Hr as [out Hs].
    rewrite Hd, Hs in Hc. rewrite Hc. reflexivity.
Qed.

(** X22. The final stage writes all or nothing: when it raises, the state is
    exactly as it was; when it returns, the issues are the sorted issues,
    the recommendations are those of the retrieved practices, the step is
    [review_complete] and every other field is as before. *)
Theorem final_stage_all_or_nothing (self : CodeReviewAgents) (st : CodeReviewState) :
  (forall e, snd (_final_reviewer_agent self st) = Raise e ->
             fst (_final_reviewer_agent self st) = st)
  /\ (snd (_final_reviewer_agent self st) = Ok tt ->
      exists docs sorted_issues,
        get_relevant_practices (lib self) (rag_system self) (issues st) (language st)
          = Ok docs
        /\ py_sorted severity_key (issues st) = Ok sorted_issues
        /\ fst (_final_reviewer_agent self st) = reviewed_state st sorted_issues docs).
Proof.
  pose proof (final_stage_cases self st) as Hc.
  destruct (get_relevant_practices _ _ _ _) as [docs|e0];
    [destruct (py_sorted severity_key (issues st)) as [out|e0]|];
    rewrite Hc; simpl; split; try discriminate; eauto.
Qed.

Lemma final_stage_all_or_nothing_witness :
  fst (_final_reviewer_agent (Sample.agents Sample.failing_llm)
         (Sample.state_with [VDict [("severity", VStr "Info")]]))
  = Sample.state_with [VDict [("severity", VStr "Info")]].
Proof.
  apply (proj1 (final_stage_all_or_nothing (Sample.agents Sample.failing_llm)
                  (Sample.state_with [VDict [("severity", VStr "Info")]]))
               (Exn KeyError "type")).
  reflexivity.
Defined.

(** C4. On every state whose issues are well-formed (dictionaries with a
    type and a message whose severity, when present, is a text, a number,
    a truth value or null), the final stage returns, and the issues it
    leaves in the state are a permutation of the issues it received,
    ordered by non-decreasing rank Critical 0, Warning 1, anything else 2,
    in which the issues of each rank keep the order they had in the
    input. *)
Theorem final_stage_sorts_issues (self : CodeReviewAgents) (st : CodeReviewState) :
  Forall (fun x => queryable x = true /\ rankable x = true) (issues st) ->
  snd (_final_reviewer_agent self st) = Ok tt
  /\ Permutation (issues st) (issues (fst (_final_reviewer_agent self st)))
  /\ StronglySorted (fun a b => (severity_rank a <= severity_rank b)%Z)
                    (issues (fst (_final_reviewer_agent self st)))
  /\ forall r,
       List.filter (fun x => (severity_rank x =? r)%Z)
                   (issues (fst (_final_reviewer_agent self st)))
       = List.filter (fun x => (severity_rank x =? r)%Z) (issues st).
Proof.
  intros Hall.
  assert (Forall (fun x => queryable x = true) (issues st)) as Hq
      by (eapply Forall_impl; [exact Hall | intros x [H _]; exact H]).
  assert (Forall (fun x => rankable x = true) (issues st)) as Hr
      by (eapply Forall_impl; [exact Hall | intros x [_ H]; exact H]).
  destruct (relevant_practices_queryable (lib self) (rag_system self) _
              (language st) Hq) as [docs Hd].
  apply py_sorted_returns_iff in Hr as [out Hs].
  pose proof (final_stage_cases self st) as Hc.
  rewrite Hd, Hs in Hc. rewrite Hc. simpl.
  split; [reflexivity|]. apply py_sorted_severity, Hs.
Qed.

Lemma final_stage_sorts_issues_witness :
  snd (_final_reviewer_agent (Sample.agents Sample.failing_llm)
         (Sample.state_with Sample.mixed_issues)) = Ok tt
  /\ issues (fst (_final_reviewer_agent (Sample.agents Sample.failing_llm)
                    (Sample.state_with Sample.mixed_issues)))
     = [ Sample.found "Security" "Critical" "b";
         Sample.found "Security" "Critical" "e";
         Sample.found "Code Quality" "Warning" "c";
         Sample.found "Best Practices" "Info" "a";
         Sample.found "Code Quality" "High" "d" ]
  /\ StronglySorted (fun a b => (severity_rank a <= severity_rank b)%Z)
                    (issues (fst (_final_reviewer_agent
                                    (Sample.agents Sample.failing_llm)
                                    (Sample.state_with Sample.mixed_issues)))).
Proof.
  destruct (final_stage_sorts_issues (Sample.agents Sample.failing_llm)
              (Sample.state_with Sample.mixed_issues))
    as [Hok [_ [Hsorted _]]].
  - repeat constructor.
  - split; [exact Hok|]. split; [vm_compute; reflexivity | exact Hsorted].
Defined.

Lemma checker_issues_readable code language :
  Forall (fun x => queryable x = true /\ rankable x = true
                   /\ countable_issue x = true)
         (check_code_quality_issues code language).
Proof.
  apply List.Forall_forall. intros x Hx.
  apply check_issues_sound in Hx as [i [line [_ H]]].
  destruct H as [[_ ->] | [[_ ->] | [[_ [_ ->]] | [[_ [_ [_ ->]]] | [[_ [_ ->]]
               | [_ [_ [_ ->]]]]]]]]; repeat split.
Qed.

Lemma analyze_code_structure_cases lib code language :
  (exists facts, analyze_code_structure lib code language = Ok facts
                 /\ forall e, ~ parser_failure_escapes lib code language e)
  \/ (exists e, analyze_code_structure lib code language = Raise e
                /\ parser_failure_escapes lib code language e).
Proof.
  unfold parser_failure_escapes, analyze_code_structure.
  destruct (String.eqb_spec language "python") as [-> | Hne].
  - unfold _analyze_python_code.
    destruct (ast_parse lib code) as [walk|detail|e0] eqn:Hp; simpl.
    + left. eexists. split; [reflexivity|]. intros e [_ [H _]]. discriminate.
    + left. eexists. split; [reflexivity|]. intros e [_ [H _]]. discriminate.
    + destruct (exn_cls e0) eqn:Hcls; simpl;
        try (right; exists e0; split; [reflexivity|];
             split; [reflexivity|]; split; [reflexivity|];
             rewrite Hcls; discriminate).
      left. eexists. split; [reflexivity|].
      intros e [_ [H Hc]]. injection H as <-. contradiction.
  - left. eexists. split; [reflexivity|]. intros e [H _]. contradiction.
Qed.

Lemma analyzer_run self st facts :
  analyze_code_structure (lib self) (code st)
    (detect_language (code st) (filename st)) = Ok facts ->
  _analyzer_agent self st = (analyzed_state st facts, Ok tt).
Proof.
  intros Hf. unfold _analyzer_agent, mbind, action_bind, read, call; simpl.
  rewrite Hf. reflexivity.
Qed.

Lemma analyzer_raises self st e :
  analyze_code_structure (lib self) (code st)
    (detect_language (code st) (filename st)) = Raise e ->
  _analyzer_agent self st = (st, Raise e).
Proof.
  intros Hf. unfold _analyzer_agent, mbind, action_bind, read, call; simpl.
  rewrite Hf. reflexivity.
Qed.

Lemma enrichment_run n self st :
  exists st' new,
    enrichment_agent n self st = (st', Ok tt)
    /\ issues st' = issues st ++ new
    /\ code st' = code st /\ filename st' = filename st
    /\ language st' = language st
    /\ analysis_result st' = analysis_result st
    /\ recommendations st' = recommendations st.
Proof.
  rewrite enrichment_agent_update.
  destruct (enrich_effect self (enrichment_prompt n self st) (enrichment_key n)
              (enrichment_step n)
              (match n with EPerformance => true | _ => false end) st)
    as [H1 [[new H2] [H3 [H4 [H5 [H6 [H7 _]]]]]]].
  match type of H1 with snd ?r = _ => destruct r as [st' [[]|e]] eqn:Hr end;
    [|discriminate].
  exists st', new. simpl in *. repeat split; assumption.
Qed.

Lemma then_run (m k : action unit) st st' :
  m st = (st', Ok tt) -> (m;; k) st = k st'.
Proof. intros H. unfold mbind, action_bind. rewrite H. reflexivity. Qed.

Lemma then_raises (m k : action unit) st st' e :
  m st = (st', Raise e) -> (m;; k) st = (st', Raise e).
Proof. intros H. unfold mbind, action_bind. rewrite H. reflexivity. Qed.

(** When the analyzer raises, the workflow ends there. *)
Lemma workflow_analyzer_raises self st e :
  analyze_code_structure (lib self) (code st)
    (detect_language (code st) (filename st)) = Raise e ->
  workflow self st = (st, Raise e).
Proof.
  intros Hf. unfold workflow.
  apply then_raises, analyzer_raises, Hf.
Qed.

(** When the analyzer returns, the stages before the final one hand it a
    state: the language and the facts are the analyzer's, and the issues
    are the checker's followed by what the enrichment stages appended. *)
Lemma workflow_reaches_final self st facts :
  analyze_code_structure (lib self) (code st)
    (detect_language (code st) (filename st)) = Ok facts ->
  exists new st5,
    workflow self st = _final_reviewer_agent self st5
    /\ language st5 = detect_language (code st) (filename st)
    /\ analysis_result st5 = facts
    /\ issues st5
       = check_code_quality_issues (code st)
           (detect_language (code st) (filename st)) ++ new
    /\ recommendations st5 = recommendations st.
Proof.
  intros Hf. pose proof (analyzer_run self st facts Hf) as H1.
  destruct (enrichment_run EQuality self (analyzed_state st facts))
    as [st2 [n2 [H2 [I2 [C2 [F2 [L2 [A2 R2]]]]]]]].
  destruct (enrichment_run ESecurity self st2)
    as [st3 [n3 [H3 [I3 [C3 [F3 [L3 [A3 R3]]]]]]]].
  destruct (enrichment_run EPerformance self st3)
    as [st4 [n4 [H4 [I4 [C4 [F4 [L4 [A4 R4]]]]]]]].
  destruct (enrichment_run EDocumentation self st4)
    as [st5 [n5 [H5 [I5 [C5 [F5 [L5 [A5 R5]]]]]]]].
  exists (n2 ++ n3 ++ n4 ++ n5), st5.
  split; [|repeat split].
  - unfold workflow.
    rewrite (then_run _ _ _ _ H1), (then_run _ _ _ _ H2), (then_run _ _ _ _ H3),
      (then_run _ _ _ _ H4), (then_run _ _ _ _ H5). reflexivity.
  - rewrite L5, L4, L3, L2. reflexivity.
  - rewrite A5, A4, A3, A2. reflexivity.
  - rewrite I5, I4, I3, I2. simpl. rewrite <- !app_assoc. reflexivity.
  - rewrite R5, R4, R3, R2. reflexivity.
Qed.

Lemma enrichment_outage n self st :
  (forall system_prompt prompt,
      exists e, llm_invoke (llm_manager self) system_prompt prompt = Raise e) ->
  enrichment_agent n self st = (st, Ok tt).
Proof.
  intros Hdown. destruct (enrichment_agent_enrich n self st) as [update ->].
  apply enrich_unusable.
  destruct (Hdown "" (enrichment_prompt n self st)) as [e He].
  eapply failed_call_unusable; exact He.
Qed.

Lemma workflow_outage self st facts :
  (forall system_prompt prompt,
      exists e, llm_invoke (llm_manager self) system_prompt prompt = Raise e) ->
  analyze_code_structure (lib self) (code st)
    (detect_language (code st) (filename st)) = Ok facts ->
  workflow self st = _final_reviewer_agent self (analyzed_state st facts).
Proof.
  intros Hdown Hf. pose proof (analyzer_run self st facts Hf) as H1.
  unfold workflow.
  rewrite (then_run _ _ _ _ H1),
    (then_run _ _ _ _ (enrichment_outage EQuality self _ Hdown)),
    (then_run _ _ _ _ (enrichment_outage ESecurity self _ Hdown)),
    (then_run _ _ _ _ (enrichment_outage EPerformance self _ Hdown)),
    (then_run _ _ _ _ (enrichment_outage EDocumentation self _ Hdown)).
  reflexivity.
Qed.

Lemma review_code_cases self code filename :
  match workflow self (initial_state code filename) with
  | (result_state, Ok tt) =>
      match _generate_summary result_state with
      | Ok summary =>
          review_code self code filename
          = Reviewed (language result_state) (analysis_result result_state)
              (issues result_state) (recommendations result_state)
              (optimized_code result_state) summary
      | Raise e => review_code self code filename = Failed e
      end
  | (_, Raise e) => review_code self code filename = Failed e
  end.
Proof.
  unfold review_code.
  destruct (workflow self (initial_state code filename)) as [st' [[]|e]];
    [|reflexivity].
  destruct (_generate_summary st'); reflexivity.
Qed.

(** X23. A review that succeeds reports the language [detect_language] found
    and the facts of [analyze_code_structure] for it; its issues are those
    of the rule-based checker together with what the model added, ordered
    by rank; it gives at most five recommendations; and its summary counts
    exactly the issues and recommendations reported, with a score between
    1 and 10. *)
Theorem review_code_reviewed (self : CodeReviewAgents) (code filename : string)
        (language : string) (analysis : dict) (found recs : list value)
        (optimized : value) (summary : Summary) :
  review_code self code filename
  = Reviewed language analysis found recs optimized summary ->
  language = detect_language code filename
  /\ analyze_code_structure (lib self) code language = Ok analysis
  /\ (exists new,
         Permutation (check_code_quality_issues code language ++ new) found)
  /\ StronglySorted (fun a b => (severity_rank a <= severity_rank b)%Z) found
  /\ length recs <= 5
  /\ total_issues summary = length found
  /\ recommendations_count summary = length recs
  /\ (1 <= overall_score summary <= 10)%Z.
Proof.
  intros Hrev.
  pose proof (review_code_cases self code filename) as Hc.
  destruct (analyze_code_structure (lib self) code (detect_language code filename))
    as [facts|e0] eqn:Hf.
  2: { rewrite (workflow_analyzer_raises self (initial_state code filename) e0 Hf)
         in Hc.
       congruence. }
  destruct (workflow_reaches_final self (initial_state code filename) facts Hf)
    as [new [st5 [Hw [L5 [A5 [I5 _]]]]]].
  simpl in L5, I5. rewrite Hw in Hc.
  pose proof (final_stage_cases self st5) as Hfin.
  destruct (get_relevant_practices _ _ _ _) as [docs|e0] eqn:Hd;
    [|rewrite Hfin in Hc; congruence].
  destruct (py_sorted severity_key (issues st5)) as [out|e0] eqn:Hs;
    [|rewrite Hfin in Hc; congruence].
  rewrite Hfin in Hc.
  destruct (_generate_summary (reviewed_state st5 out docs)) as [s|e0] eqn:Hsum;
    [|congruence].
  rewrite Hc in Hrev. simpl in Hrev.
  injection Hrev as <- <- <- <- _ <-.
  destruct (py_sorted_severity _ _ Hs) as [Hperm [Hsorted _]].
  destruct (relevant_practices_Ok _ _ _ _ _ Hd) as [_ Hlen].
  destruct (generate_summary_score _ _ Hsum) as [Hscore _].
  destruct (generate_summary_Ok_inv _ _ Hsum) as [sc [tc Hcount]].
  rewrite (generate_summary_after_count _ _ _ Hcount) in Hsum.
  injection Hsum as <-. simpl in *.
  rewrite L5, A5. repeat split; try assumption; try lia.
  - exists new. rewrite <- I5. exact Hperm.
  - rewrite length_map. exact Hlen.
Qed.

(** X24. When every call of the model fails, the review depends on the
    analyzer alone.  If a failure of the parser escapes the analyzer, the
    review fails with that exception.  Otherwise the review succeeds: it
    reports exactly the issues of the rule-based checker, sorted by rank,
    no optimized code, and a summary that counts those issues. *)
Theorem review_code_model_outage (self : CodeReviewAgents) (code filename : string) :
  (forall system_prompt prompt,
      exists e, llm_invoke (llm_manager self) system_prompt prompt = Raise e) ->
  (forall e,
      parser_failure_escapes (lib self) code (detect_language code filename) e ->
      review_code self code filename = Failed e)
  /\ ((forall e,
         ~ parser_failure_escapes (lib self) code (detect_language code filename) e) ->
      exists analysis found recs summary,
        review_code self code filename
        = Reviewed (detect_language code filename) analysis found recs
            (VStr EmptyString) summary
        /\ py_sorted severity_key
             (check_code_quality_issues code (detect_language code filename))
           = Ok found
        /\ total_issues summary
           = length (check_code_quality_issues code
                       (detect_language code filename))).
Proof.
  intros Hdown.
  pose proof (review_code_cases self code filename) as Hc.
  destruct (analyze_code_structure_cases (lib self) code
              (detect_language code filename))
    as [[facts [Hf Hno]] | [e0 [Hf Hesc]]].
  2: { split; [|intros Hno; exfalso; exact (Hno e0 Hesc)].
       intros e [_ [He _]]. destruct Hesc as [_ [He0 _]].
       rewrite He in He0. injection He0 as <-.
       rewrite (workflow_analyzer_raises self (initial_state code filename) e Hf)
         in Hc.
       exact Hc. }
  split; [intros e He; exfalso; exact (Hno e He)|]. intros _.
  rewrite (workflow_outage self (initial_state code filename) facts Hdown Hf) in Hc.
  set (lang := detect_language code filename) in *.
  set (st1 := analyzed_state (initial_state code filename) facts) in *.
  pose proof (checker_issues_readable code lang) as Hread.
  assert (Forall (fun x => queryable x = true) (issues st1)) as Hq
      by (eapply Forall_impl; [exact Hread | intros x [H _]; exact H]).
  assert (Forall (fun x => rankable x = true) (issues st1)) as Hr
      by (eapply Forall_impl; [exact Hread | intros x [_ [H _]]; exact H]).
  assert (Forall (fun x => countable_issue x = true) (issues st1)) as Hcnt
      by (eapply Forall_impl; [exact Hread | intros x [_ [_ H]]; exact H]).
  destruct (relevant_practices_queryable (lib self) (rag_system self) _
              (language st1) Hq) as [docs Hd].
  destruct (proj2 (py_sorted_returns_iff _) Hr) as [out Hs].
  pose proof (final_stage_cases self st1) as Hfin.
  rewrite Hd, Hs in Hfin. rewrite Hfin in Hc.
  destruct (py_sorted_severity _ _ Hs) as [Hperm _].
  destruct (generate_summary_countable (reviewed_state st1 out docs)) as [s Hsum].
  { simpl. eapply Permutation_Forall; [exact Hperm | exact Hcnt]. }
  rewrite Hsum in Hc.
  exists facts, out, (map recommendation docs), s.
  split; [exact Hc|]. split; [exact Hs|].
  destruct (generate_summary_Ok_inv _ _ Hsum) as [sc [tc Hcount]].
  rewrite (generate_summary_after_count _ _ _ Hcount) in Hsum.
  injection Hsum as <-. simpl.
  symmetry. apply Permutation_length. exact Hperm.
Qed.

Lemma review_code_reviewed_witness :
  exists language analysis found recs optimized summary,
    review_code (Sample.agents Sample.array_llm) "var total = 1" "cart.js"
    = Reviewed language analysis found recs optimized summary
    /\ language = "javascript"
    /\ length found = 1
    /\ length recs <= 5
    /\ total_issues summary = length found
    /\ (1 <= overall_score summary <= 10)%Z.
Proof.
  assert (exists language analysis found recs optimized summary,
             review_code (Sample.agents Sample.array_llm) "var total = 1" "cart.js"
             = Reviewed language analysis found recs optimized summary
             /\ language = "javascript" /\ length found = 1)
    as [language [analysis [found [recs [optimized [summary [H [Hl Hn]]]]]]]]
      by (vm_compute; repeat eexists).
  exists language, analysis, found, recs, optimized, summary.
  destruct (review_code_reviewed _ _ _ _ _ _ _ _ _ H)
    as [_ [_ [_ [_ [H5 [H6 [_ H8]]]]]]].
  repeat split; try assumption; apply H8.
Defined.

Lemma review_code_model_outage_witness :
  (exists analysis found recs summary,
      review_code (Sample.agents Sample.failing_llm) "var total = 1" "cart.js"
      = Reviewed (detect_language "var total = 1" "cart.js") analysis found recs
          (VStr EmptyString) summary
      /\ py_sorted severity_key
           (check_code_quality_issues "var total = 1"
              (detect_language "var total = 1" "cart.js"))
         = Ok found
      /\ total_issues summary
         = length (check_code_quality_issues "var total = 1"
                     (detect_language "var total = 1" "cart.js")))
  /\ review_code (Sample.agents Sample.failing_llm) ("x = 1" +:+ Sample.nul) "a.py"
     = Failed (Exn ValueError "source code string cannot contain null bytes").
Proof.
  assert (forall system_prompt prompt,
             exists e, llm_invoke (llm_manager (Sample.agents Sample.failing_llm))
                         system_prompt prompt = Raise e) as Hdown
      by (intros system_prompt prompt; eexists; reflexivity).
  split.
  - apply (proj2 (review_code_model_outage (Sample.agents Sample.failing_llm)
                    "var total = 1" "cart.js" Hdown)).
    intros e [H _]. vm_compute in H. discriminate H.
  - apply (proj1 (review_code_model_outage (Sample.agents Sample.failing_llm)
                    ("x = 1" +:+ Sample.nul) "a.py" Hdown)).
    split; [vm_compute; reflexivity|].
    split; [vm_compute; reflexivity | discriminate].
Defined.

(** *** The hard-coded-literal pattern *)

Lemma digit_not_quote c : is_digit c = true -> is_quote c = false.
Proof.
  unfold is_digit, is_quote, between. intros H.
  apply andb_true_iff in H as [H1 H2].
  apply N.leb_le in H1. apply N.leb_le in H2.
  apply orb_false_iff. split; apply N.eqb_neq; lia.
Qed.

Lemma adjacent_digits_cons c l :
  adjacent_digits (c :: l)
  = (is_digit c && starts_with_digit l) || adjacent_digits l.
Proof. destruct l; simpl; [rewrite andb_false_r|]; reflexivity. Qed.

Lemma adjacent_digits_iff l :
  adjacent_digits l = true
  <-> exists a ds b,
        l = a ++ ds ++ b
        /\ Forall (fun c => is_digit c = true) ds /\ 2 <= length ds.
Proof.
  split.
  - induction l as [|c l IH]; [discriminate|].
    rewrite adjacent_digits_cons. intros H.
    apply orb_true_iff in H as [H|H].
    + apply andb_true_iff in H as [Hc Hl].
      destruct l as [|d l]; [discriminate|]. simpl in Hl.
      exists [], [c; d], l. split; [reflexivity|].
      split; [repeat constructor; assumption | simpl; lia].
    + destruct (IH H) as [a [ds [b [-> [Hd Hn]]]]].
      exists (c :: a), ds, b. repeat split; assumption.
  - intros [a [ds [b [-> [Hd Hn]]]]].
    induction a as [|c a IH]; simpl app.
    + destruct ds as [|d1 [|d2 ds]]; simpl in Hn; try lia.
      inversion Hd as [|? ? H1 Hd']; subst.
      inversion Hd' as [|? ? H2 _]; subst.
      simpl. rewrite H1, H2. reflexivity.
    + rewrite adjacent_digits_cons, IH. apply orb_true_r.
Qed.

Lemma closes_quote run seen c l :
  is_quote c = true -> closes run seen (c :: l) <-> seen = true.
Proof.
  intros Hc. split.
  - intros [seg [q [post [E [Hs [Hq Hcond]]]]]].
    destruct seg as [|c' seg].
    + simpl in Hcond. rewrite andb_false_r, !orb_false_r in Hcond. exact Hcond.
    + simpl in E. injection E as <- _. inversion Hs; subst. congruence.
  - intros ->. exists [], c, l. repeat split; [constructor | exact Hc].
Qed.

Lemma closes_other run seen c l :
  is_quote c = false ->
  closes run seen (c :: l)
  <-> closes (if is_digit c then S run else 0)
             (if is_digit c then seen || (1 <=? run)%nat else seen) l.
Proof.
  intros Hc. split.
  - intros [seg [q [post [E [Hs [Hq Hcond]]]]]].
    destruct seg as [|c' seg]; simpl in E; injection E as <- ->; [congruence|].
    inversion Hs as [|? ? _ Hs']; subst.
    exists seg, q, post. repeat split; try assumption.
    rewrite adjacent_digits_cons in Hcond. cbn [starts_with_digit] in Hcond.
    destruct (is_digit c), seen, (1 <=? run)%nat, (starts_with_digit seg),
      (adjacent_digits seg); simpl in *; congruence.
  - intros [seg [q [post [-> [Hs [Hq Hcond]]]]]].
    exists (c :: seg), q, post.
    split; [reflexivity|]. split; [constructor; assumption|].
    split; [exact Hq|].
    rewrite adjacent_digits_cons. cbn [starts_with_digit].
    destruct (is_digit c), seen, (1 <=? run)%nat, (starts_with_digit seg),
      (adjacent_digits seg); simpl in *; congruence.
Qed.

Lemma quoted_pair_quote c l :
  is_quote c = true -> quoted_pair (c :: l) <-> closes 0 false l \/ quoted_pair l.
Proof.
  intros Hc. split.
  - intros [pre [q1 [seg [q2 [post [E [H1 [H2 [Hs Ha]]]]]]]]].
    destruct pre as [|c' pre]; simpl in E; injection E as <- ->.
    + left. exists seg, q2, post. repeat split; assumption.
    + right. exists pre, q1, seg, q2, post. repeat split; assumption.
  - intros [[seg [q [post [-> [Hs [Hq Hcond]]]]]]
           | [pre [q1 [seg [q2 [post [-> [H1 [H2 [Hs Ha]]]]]]]]]].
    + exists [], c, seg, q, post. repeat split; try assumption.
    + exists (c :: pre), q1, seg, q2, post. repeat split; assumption.
Qed.

Lemma quoted_pair_other c l :
  is_quote c = false -> quoted_pair (c :: l) <-> quoted_pair l.
Proof.
  intros Hc. split.
  - intros [pre [q1 [seg [q2 [post [E [H1 [H2 [Hs Ha]]]]]]]]].
    destruct pre as [|c' pre]; simpl in E; injection E as <- ->; [congruence|].
    exists pre, q1, seg, q2, post. repeat split; assumption.
  - intros [pre [q1 [seg [q2 [post [-> [H1 [H2 [Hs Ha]]]]]]]]].
    exists (c :: pre), q1, seg, q2, post. repeat split; assumption.
Qed.

Lemma quoted_digits_from_iff s : forall opened run seen,
  quoted_digits_from opened run seen s = true
  <-> (opened = true /\ closes run seen (list_ascii_of_string s))
      \/ quoted_pair (list_ascii_of_string s).
Proof.
  induction s as [|c r IH]; intros opened run seen; simpl.
  - split; [discriminate|].
    intros [[_ [seg [q [post [E _]]]]] | [pre [q1 [seg [q2 [post [E _]]]]]]];
      [destruct seg | destruct pre]; discriminate.
  - destruct (is_quote c) eqn:Hq.
    + rewrite orb_true_iff, andb_true_iff, IH, (closes_quote _ _ _ _ Hq),
        (quoted_pair_quote _ _ Hq).
      tauto.
    + rewrite (closes_other _ _ _ _ Hq), (quoted_pair_other _ _ Hq).
      destruct (is_digit c); apply IH.
Qed.

(** X25. The hard-coded-literal rule fires on a line exactly when the line
    holds a quote character, then characters other than quotes, then two
    or more digits, then characters other than quotes, then a quote
    character: the matches of the pattern of [check_code_quality_issues]. *)
Theorem hardcoded_literal_rule (line : string) :
  search_quoted_digits line = true
  <-> exists pre q1 a ds b q2 post,
        list_ascii_of_string line = pre ++ q1 :: (a ++ ds ++ b) ++ q2 :: post
        /\ is_quote q1 = true /\ is_quote q2 = true
        /\ Forall (fun c => is_quote c = false) a
        /\ Forall (fun c => is_digit c = true) ds /\ 2 <= length ds
        /\ Forall (fun c => is_quote c = false) b.
Proof.
  unfold search_quoted_digits. rewrite quoted_digits_from_iff. split.
  - intros [[H _] | [pre [q1 [seg [q2 [post [E [H1 [H2 [Hs Ha]]]]]]]]]];
      [discriminate|].
    apply adjacent_digits_iff in Ha as [a [ds [b [-> [Hd Hn]]]]].
    apply Forall_app in Hs as [Hsa Hs]. apply Forall_app in Hs as [_ Hsb].
    exists pre, q1, a, ds, b, q2, post. repeat split; assumption.
  - intros [pre [q1 [a [ds [b [q2 [post [E [H1 [H2 [Ha [Hd [Hn Hb]]]]]]]]]]]]].
    right. exists pre, q1, (a ++ ds ++ b), q2, post.
    repeat split; try assumption.
    + apply Forall_app. split; [exact Ha|]. apply Forall_app. split; [|exact Hb].
      eapply Forall_impl; [exact Hd|]. intros c Hc. apply digit_not_quote, Hc.
    + apply adjacent_digits_iff. exists a, ds, b. repeat split; assumption.
Qed.

(** ** Configuration *)

(** X26. [validate_config] never reports both errors at once, and it reports
    none exactly in demo mode, or when the Azure key comes with its
    endpoint, or when there is no Azure key but an OpenAI key; an empty
    text counts as not set. *)
Theorem validate_config_errors (cls : Config) :
  length (validate_config cls) <= 1
  /\ (validate_config cls = []
      <-> DEMO_MODE cls = true
          \/ (is_set (AZURE_OPENAI_API_KEY cls) = true
              /\ is_set (AZURE_OPENAI_ENDPOINT cls) = true)
          \/ (is_set (AZURE_OPENAI_API_KEY cls) = false
              /\ is_set (OPENAI_API_KEY cls) = true)).
Proof.
  unfold validate_config.
  destruct (DEMO_MODE cls), (is_set (AZURE_OPENAI_API_KEY cls)),
    (is_set (AZURE_OPENAI_ENDPOINT cls)), (is_set (OPENAI_API_KEY cls));
    simpl; (split; [lia|]); split;
      solve [ reflexivity | discriminate | intuition discriminate | intuition ].
Qed.
